(** * Turnip LRZ state tracking (src/freedreno/vulkan/tu_lrz.c) and debug
      options (src/util/u_debug.c)

    A shallow embedding of tu_lrz.c, which tracks, per render pass and per
    draw, whether the low-resolution Z buffer may be used: the
    initialisation at render-pass / secondary begin, the per-draw computation
    of GRAS_LRZ_CNTL in [tu6_calculate_lrz_state], the command sequences
    emitted at the start and the end of the tiling and sysmem passes, and
    the depth clear outside a render pass.

    The second part embeds the option parsers of u_debug.c on C strings as
    lists of bytes: [debug_get_bool_option], [debug_get_flags_option] with
    [str_has_option], [parse_debug_string], [parse_enable_string],
    [comma_separated_list_contains], and the dumps [debug_dump_enum] and
    [debug_dump_flags]. [debug_get_num_option] and
    [debug_get_version_option], which rest on [strtol] and [sscanf], are
    not embedded.

    Conventions.
    - C integers are [Z]; [x & m] is [Z.land], [x >> s] is [Z.shiftr], and a C
      integer used as a condition is [truthy].
    - [cmd->state.lrz] is mutated in place by the C code; here every function
      that writes it returns the updated command buffer.
    - A command stream ([struct tu_cs]) is the list of what was emitted to it,
      oldest first.
    - [unreachable(...)] is a failure: the function returns [None]. So is
      a read through a NULL pointer or beyond the end of a string.
    - [assert(...)] is compiled out (NDEBUG); an asserted condition a result
      depends on is stated as a lemma instead.
    - Arrays are lists, read with [nth] and a default; every state the driver
      builds has the arrays as long as their counts say. *)

From Stdlib Require Import ZArith Bool List Lia Floats Ascii.
From Stdlib Require String.
Import ListNotations.
Import String.StringSyntax.
Delimit Scope string_scope with string.
Open Scope Z_scope.

(** ** Vulkan API constants (vulkan_core.h) *)

Definition VkCompareOp := Z.
Definition VK_COMPARE_OP_NEVER : VkCompareOp := 0.
Definition VK_COMPARE_OP_LESS : VkCompareOp := 1.
Definition VK_COMPARE_OP_EQUAL : VkCompareOp := 2.
Definition VK_COMPARE_OP_LESS_OR_EQUAL : VkCompareOp := 3.
Definition VK_COMPARE_OP_GREATER : VkCompareOp := 4.
Definition VK_COMPARE_OP_NOT_EQUAL : VkCompareOp := 5.
Definition VK_COMPARE_OP_GREATER_OR_EQUAL : VkCompareOp := 6.
Definition VK_COMPARE_OP_ALWAYS : VkCompareOp := 7.

(** The eight enumerators of [VkCompareOp]. *)
Definition is_VkCompareOp (op : VkCompareOp) : Prop := 0 <= op <= 7.

Definition VK_ATTACHMENT_UNUSED : Z := 4294967295.
Definition VK_IMAGE_ASPECT_COLOR_BIT : Z := 1.
Definition VK_IMAGE_ASPECT_DEPTH_BIT : Z := 2.

Definition VkFormat := Z.

(** [VkClearValue], read through its [depthStencil] member. A C [float] is
    held in a binary64 float: every binary32 value is one, and [==] on two of
    them is [PrimFloat.eqb]. *)
Record VkClearValue := mkVkClearValue {
  depth : float;
  stencil : Z
}.

Definition VkClearValue_zero : VkClearValue :=
  {| depth := 0%float; stencil := 0 |}.

(** ** What tu_lrz.c takes from headers that are not part of the sources

    The register layout (a6xx.xml.h), the driver's flag enumerators
    (tu_pipeline.h, tu_cmd_buffer.h, tu_device.h), two bit macros and two
    format queries. The development is parametric in them. *)
Class tu_headers := {
  A6XX_RB_DEPTH_CNTL_Z_TEST_ENABLE : Z;
  A6XX_RB_DEPTH_CNTL_Z_WRITE_ENABLE : Z;
  A6XX_RB_DEPTH_CNTL_Z_BOUNDS_ENABLE : Z;
  A6XX_RB_DEPTH_CNTL_ZFUNC__MASK : Z;
  A6XX_RB_DEPTH_CNTL_ZFUNC__SHIFT : Z;
  A6XX_RB_STENCIL_CONTROL_STENCIL_ENABLE : Z;
  A6XX_RB_STENCIL_CONTROL_FUNC__MASK : Z;
  A6XX_RB_STENCIL_CONTROL_FUNC__SHIFT : Z;
  A6XX_RB_STENCIL_CONTROL_FUNC_BF__MASK : Z;
  A6XX_RB_STENCIL_CONTROL_FUNC_BF__SHIFT : Z;
  A6XX_RB_MRT_CONTROL_COMPONENT_ENABLE__MASK : Z;
  A6XX_RB_MRT_CONTROL_COMPONENT_ENABLE__SHIFT : Z;
  TU_DEBUG_NOLRZ : Z;
  TU_LRZ_FORCE_DISABLE_LRZ : Z;
  TU_LRZ_FORCE_DISABLE_WRITE : Z;
  TU_DYNAMIC_STATE_LOGIC_OP : Z;
  TU_DYNAMIC_STATE_BLEND_ENABLE : Z;
  TU_DYNAMIC_STATE_BLEND : Z;
  TU_DYNAMIC_STATE_COLOR_WRITE_ENABLE : Z;
  TU_CMD_DIRTY_LRZ : Z;
  BIT : Z -> Z;
  MASK : Z -> Z;
  vk_format_get_nr_components : VkFormat -> Z;
  vk_format_has_depth : VkFormat -> bool
}.

(** ** Data model *)

(** A C integer in a condition. *)
Definition truthy (z : Z) : bool := negb (z =? 0).

(** [enum tu_lrz_direction] (tu_lrz.h). *)
Inductive tu_lrz_direction :=
| TU_LRZ_UNKNOWN
| TU_LRZ_LESS
| TU_LRZ_GREATER.

Definition tu_lrz_direction_eqb (x y : tu_lrz_direction) : bool :=
  match x, y with
  | TU_LRZ_UNKNOWN, TU_LRZ_UNKNOWN => true
  | TU_LRZ_LESS, TU_LRZ_LESS => true
  | TU_LRZ_GREATER, TU_LRZ_GREATER => true
  | _, _ => false
  end.

(** [enum a6xx_lrz_dir_status]. Its enumerators start at 1; [LRZ_DIR_0] is
    the value of the field in a zeroed [struct A6XX_GRAS_LRZ_CNTL]. *)
Inductive a6xx_lrz_dir_status :=
| LRZ_DIR_0
| LRZ_DIR_LE
| LRZ_DIR_GE
| LRZ_DIR_INVALID.

(** [struct A6XX_GRAS_LRZ_CNTL]: the unpacked control word. *)
Record A6XX_GRAS_LRZ_CNTL := mkCNTL {
  enable : bool;
  lrz_write : bool;
  greater : bool;
  fc_enable : bool;
  z_test_enable : bool;
  z_bounds_enable : bool;
  dir : a6xx_lrz_dir_status;
  dir_write : bool;
  disable_on_wrong_dir : bool
}.

(** [struct A6XX_GRAS_LRZ_CNTL gras_lrz_cntl = { 0 }] *)
Definition A6XX_GRAS_LRZ_CNTL_zero : A6XX_GRAS_LRZ_CNTL :=
  mkCNTL false false false false false false LRZ_DIR_0 false false.

Definition set_enable (c : A6XX_GRAS_LRZ_CNTL) (b : bool) :=
  mkCNTL b (lrz_write c) (greater c) (fc_enable c) (z_test_enable c)
         (z_bounds_enable c) (dir c) (dir_write c) (disable_on_wrong_dir c).
Definition set_lrz_write (c : A6XX_GRAS_LRZ_CNTL) (b : bool) :=
  mkCNTL (enable c) b (greater c) (fc_enable c) (z_test_enable c)
         (z_bounds_enable c) (dir c) (dir_write c) (disable_on_wrong_dir c).
Definition set_greater (c : A6XX_GRAS_LRZ_CNTL) (b : bool) :=
  mkCNTL (enable c) (lrz_write c) b (fc_enable c) (z_test_enable c)
         (z_bounds_enable c) (dir c) (dir_write c) (disable_on_wrong_dir c).
Definition set_dir (c : A6XX_GRAS_LRZ_CNTL) (d : a6xx_lrz_dir_status) :=
  mkCNTL (enable c) (lrz_write c) (greater c) (fc_enable c) (z_test_enable c)
         (z_bounds_enable c) d (dir_write c) (disable_on_wrong_dir c).

Record tu_image := mkImage {
  iova : Z;
  lrz_height : Z;
  lrz_pitch : Z;
  lrz_offset : Z;
  lrz_fc_offset : Z;
  lrz_fc_size : Z
}.

Record tu_image_view := mkView {
  image : tu_image;
  view_GRAS_LRZ_DEPTH_VIEW : Z
}.

(** [struct tu_lrz_state] (tu_lrz.h). [image_view] is a pointer in C, [None]
    is NULL. *)
Record tu_lrz_state := mkLrz {
  image_view : option tu_image_view;
  depth_clear_value : VkClearValue;
  valid : bool;
  enabled : bool;
  fast_clear : bool;
  gpu_dir_tracking : bool;
  reuse_previous_state : bool;
  prev_direction : tu_lrz_direction
}.

(** [memset(&cmd->state.lrz, 0, sizeof(cmd->state.lrz))] *)
Definition tu_lrz_state_zero : tu_lrz_state :=
  mkLrz None VkClearValue_zero false false false false false TU_LRZ_UNKNOWN.

Definition set_image_view (l : tu_lrz_state) (v : option tu_image_view) :=
  mkLrz v (depth_clear_value l) (valid l) (enabled l) (fast_clear l)
        (gpu_dir_tracking l) (reuse_previous_state l) (prev_direction l).
Definition set_depth_clear_value (l : tu_lrz_state) (v : VkClearValue) :=
  mkLrz (image_view l) v (valid l) (enabled l) (fast_clear l)
        (gpu_dir_tracking l) (reuse_previous_state l) (prev_direction l).
Definition set_valid (l : tu_lrz_state) (b : bool) :=
  mkLrz (image_view l) (depth_clear_value l) b (enabled l) (fast_clear l)
        (gpu_dir_tracking l) (reuse_previous_state l) (prev_direction l).
Definition set_enabled (l : tu_lrz_state) (b : bool) :=
  mkLrz (image_view l) (depth_clear_value l) (valid l) b (fast_clear l)
        (gpu_dir_tracking l) (reuse_previous_state l) (prev_direction l).
Definition set_fast_clear (l : tu_lrz_state) (b : bool) :=
  mkLrz (image_view l) (depth_clear_value l) (valid l) (enabled l) b
        (gpu_dir_tracking l) (reuse_previous_state l) (prev_direction l).
Definition set_gpu_dir_tracking (l : tu_lrz_state) (b : bool) :=
  mkLrz (image_view l) (depth_clear_value l) (valid l) (enabled l)
        (fast_clear l) b (reuse_previous_state l) (prev_direction l).
Definition set_reuse_previous_state (l : tu_lrz_state) (b : bool) :=
  mkLrz (image_view l) (depth_clear_value l) (valid l) (enabled l)
        (fast_clear l) (gpu_dir_tracking l) b (prev_direction l).
Definition set_prev_direction (l : tu_lrz_state) (d : tu_lrz_direction) :=
  mkLrz (image_view l) (depth_clear_value l) (valid l) (enabled l)
        (fast_clear l) (gpu_dir_tracking l) (reuse_previous_state l) d.

(** The fields of [struct tu_pipeline] that tu_lrz.c reads:
    [lrz.force_disable_mask], [dynamic_state_mask], [blend.num_rts]. *)
Record tu_pipeline := mkPipeline {
  lrz_force_disable_mask : Z;
  dynamic_state_mask : Z;
  blend_num_rts : Z
}.

Record tu_render_pass_attachment := mkAtt {
  format : VkFormat;
  clear_mask : Z;
  load : bool
}.

(** [attachment_count] is the length of [pass_attachments]. *)
Record tu_render_pass := mkPass {
  pass_attachments : list tu_render_pass_attachment;
  subpass_count : Z
}.

Definition attachment_count (p : tu_render_pass) : nat :=
  length (pass_attachments p).

(** [color_attachments] holds the [.attachment] index of each entry and
    [color_count] is its length; [depth_stencil_attachment] is
    [depth_stencil_attachment.attachment]. *)
Record tu_subpass := mkSubpass {
  color_attachments : list Z;
  depth_stencil_attachment : Z
}.

Definition color_count (s : tu_subpass) : Z :=
  Z.of_nat (length (color_attachments s)).

(** Registers written through [tu6_write_lrz_reg], before packing. *)
Inductive tu_reg_value :=
| GRAS_LRZ_DEPTH_VIEW (base_layer layer_count base_mip_level : Z)
| GRAS_LRZ_DEPTH_VIEW_dword (dword : Z)
| GRAS_LRZ_CNTL (c : A6XX_GRAS_LRZ_CNTL).

Inductive vgt_event_type :=
| LRZ_CLEAR
| LRZ_FLUSH.

(** What tu_lrz.c puts into a command stream. [cs_clear_lrz] and
    [cs_dirty_lrz_fc] stand for the calls to [tu6_clear_lrz] and
    [tu6_dirty_lrz_fc] of tu_clear_blit.c, [cs_event_write] for
    [tu6_emit_event_write] of tu_cmd_buffer.c. *)
Inductive tu_cs_entry :=
| cs_regs_GRAS_LRZ_BUFFER (base pitch fast_clear_base : Z)
| cs_pkt7_REG_WRITE_TRACK_LRZ (reg : tu_reg_value)
| cs_pkt4 (reg : tu_reg_value)
| cs_event_write (e : vgt_event_type)
| cs_clear_lrz (img : tu_image) (value : VkClearValue)
| cs_dirty_lrz_fc (img : tu_image)
| cs_regs_RB_LRZ_CNTL (en : bool).

Definition tu_cs := list tu_cs_entry.

(** The fields of [cmd->state] that tu_lrz.c reads or writes. [attachments]
    is a pointer to an array of image views, NULL in a secondary command
    buffer. *)
Record tu_cmd_state := mkState {
  pipeline : tu_pipeline;
  pass : tu_render_pass;
  subpass : tu_subpass;
  attachments : option (list tu_image_view);
  rb_depth_cntl : Z;
  rb_stencil_cntl : Z;
  rb_mrt_control : list Z;
  stencil_front_write : bool;
  stencil_back_write : bool;
  logic_op_enabled : bool;
  rop_reads_dst : bool;
  blend_enable : bool;
  color_write_enable : Z;
  dirty : Z;
  lrz : tu_lrz_state
}.

(** [struct tu_cmd_buffer], with what is read through [cmd->device]:
    [instance->debug_flags] and the [a6xx] device info. *)
Record tu_cmd_buffer := mkCmd {
  debug_flags : Z;
  has_lrz_dir_tracking : bool;
  lrz_track_quirk : bool;
  state : tu_cmd_state;
  cs : tu_cs
}.

Definition set_lrz (cmd : tu_cmd_buffer) (l : tu_lrz_state) : tu_cmd_buffer :=
  let s := state cmd in
  mkCmd (debug_flags cmd) (has_lrz_dir_tracking cmd) (lrz_track_quirk cmd)
        (mkState (pipeline s) (pass s) (subpass s) (attachments s)
                 (rb_depth_cntl s) (rb_stencil_cntl s) (rb_mrt_control s)
                 (stencil_front_write s) (stencil_back_write s)
                 (logic_op_enabled s) (rop_reads_dst s) (blend_enable s)
                 (color_write_enable s) (dirty s) l)
        (cs cmd).

Definition set_dirty (cmd : tu_cmd_buffer) (d : Z) : tu_cmd_buffer :=
  let s := state cmd in
  mkCmd (debug_flags cmd) (has_lrz_dir_tracking cmd) (lrz_track_quirk cmd)
        (mkState (pipeline s) (pass s) (subpass s) (attachments s)
                 (rb_depth_cntl s) (rb_stencil_cntl s) (rb_mrt_control s)
                 (stencil_front_write s) (stencil_back_write s)
                 (logic_op_enabled s) (rop_reads_dst s) (blend_enable s)
                 (color_write_enable s) d (lrz s))
        (cs cmd).

Definition set_cs (cmd : tu_cmd_buffer) (c : tu_cs) : tu_cmd_buffer :=
  mkCmd (debug_flags cmd) (has_lrz_dir_tracking cmd) (lrz_track_quirk cmd)
        (state cmd) c.

(** [cmd->state.lrz] *)
Definition cmd_lrz (cmd : tu_cmd_buffer) : tu_lrz_state := lrz (state cmd).

Definition tu_image_null : tu_image := mkImage 0 0 0 0 0 0.
Definition tu_image_view_null : tu_image_view := mkView tu_image_null 0.
Definition tu_render_pass_attachment_null : tu_render_pass_attachment :=
  mkAtt 0 0 false.

(** [cmd->state.attachments[a]]. The render-pass begin functions, which
    read it, run on primary command buffers, where the pointer is set; read
    through NULL or past the end, it is the null view. *)
Definition state_attachment (cmd : tu_cmd_buffer) (a : nat) : tu_image_view :=
  match attachments (state cmd) with
  | Some views => nth a views tu_image_view_null
  | None => tu_image_view_null
  end.

(** [cmd->state.pass->attachments[a]] *)
Definition pass_attachment (cmd : tu_cmd_buffer) (a : nat)
  : tu_render_pass_attachment :=
  nth a (pass_attachments (pass (state cmd))) tu_render_pass_attachment_null.

(** ** The operations of tu_lrz.c *)

Section Operations.
Context {hdr : tu_headers}.

(** *** Emitting commands *)

Definition uint64 (z : Z) : Z := z mod 2 ^ 64.

Definition tu6_emit_lrz_buffer (cs : tu_cs) (depth_image : option tu_image)
  : tu_cs :=
  match depth_image with
  | None => cs ++ [cs_regs_GRAS_LRZ_BUFFER 0 0 0]
  | Some depth_image =>
      let lrz_iova := uint64 (iova depth_image + lrz_offset depth_image) in
      let lrz_fc_iova := uint64 (iova depth_image + lrz_fc_offset depth_image) in
      let lrz_fc_iova :=
        if negb (truthy (lrz_fc_offset depth_image)) then 0 else lrz_fc_iova in
      cs ++ [cs_regs_GRAS_LRZ_BUFFER lrz_iova (lrz_pitch depth_image) lrz_fc_iova]
  end.

Definition tu6_write_lrz_reg (cmd : tu_cmd_buffer) (cs : tu_cs)
                             (reg : tu_reg_value) : tu_cs :=
  if lrz_track_quirk cmd
  then cs ++ [cs_pkt7_REG_WRITE_TRACK_LRZ reg]
  else cs ++ [cs_pkt4 reg].

Definition tu6_emit_event_write (cmd : tu_cmd_buffer) (cs : tu_cs)
                                (e : vgt_event_type) : tu_cs :=
  cs ++ [cs_event_write e].

Definition tu6_clear_lrz (cmd : tu_cmd_buffer) (cs : tu_cs) (img : tu_image)
                         (value : VkClearValue) : tu_cs :=
  cs ++ [cs_clear_lrz img value].

Definition tu6_dirty_lrz_fc (cmd : tu_cmd_buffer) (cs : tu_cs)
                            (img : tu_image) : tu_cs :=
  cs ++ [cs_dirty_lrz_fc img].

Definition tu6_disable_lrz_via_depth_view (cmd : tu_cmd_buffer) (cs : tu_cs)
  : tu_cs :=
  (* Disable direction by writing invalid depth view. *)
  let cs := tu6_write_lrz_reg cmd cs (GRAS_LRZ_DEPTH_VIEW 2047 2047 15) in
  let cs := tu6_write_lrz_reg cmd cs
              (GRAS_LRZ_CNTL
                 (mkCNTL true false false false false false LRZ_DIR_0 false true)) in
  let cs := tu6_emit_event_write cmd cs LRZ_CLEAR in
  tu6_emit_event_write cmd cs LRZ_FLUSH.

(** Disable LRZ outside of renderpass. *)
Definition tu_disable_lrz (cmd : tu_cmd_buffer) (cs : tu_cs) (img : tu_image)
  : tu_cs :=
  if negb (has_lrz_dir_tracking cmd) then cs
  else if negb (truthy (lrz_height img)) then cs
  else
    let cs := tu6_emit_lrz_buffer cs (Some img) in
    tu6_disable_lrz_via_depth_view cmd cs.

(** *** Initialisation at render-pass and secondary begin *)

(** [att->clear_mask & (VK_IMAGE_ASPECT_COLOR_BIT | VK_IMAGE_ASPECT_DEPTH_BIT)] *)
Definition att_clears_depth (att : tu_render_pass_attachment) : bool :=
  truthy (Z.land (clear_mask att)
                 (Z.lor VK_IMAGE_ASPECT_COLOR_BIT VK_IMAGE_ASPECT_DEPTH_BIT)).

Definition tu_lrz_init_state (cmd : tu_cmd_buffer)
                             (att : tu_render_pass_attachment)
                             (view : tu_image_view) : tu_cmd_buffer :=
  if negb (truthy (lrz_height (image view))) then
    (* assert(NOLRZ || !vk_format_has_depth(att->format)) *)
    cmd
  else
    let clears_depth := att_clears_depth att in
    let has_gpu_tracking := has_lrz_dir_tracking cmd in
    if negb has_gpu_tracking && negb clears_depth then cmd
    else
      let l := set_image_view (cmd_lrz cmd) (Some view) in
      if negb clears_depth && negb (load att) then set_lrz cmd l
      else
        let l := set_valid l true in
        let l := set_prev_direction l TU_LRZ_UNKNOWN in
        let l := set_fast_clear l (0 <? lrz_fc_size (image view)) in
        let l := set_gpu_dir_tracking l has_gpu_tracking in
        let l := set_reuse_previous_state l (negb clears_depth) in
        set_lrz cmd l.

Definition tu_lrz_init_secondary (cmd : tu_cmd_buffer)
                                 (att : tu_render_pass_attachment)
  : tu_cmd_buffer :=
  let has_gpu_tracking := has_lrz_dir_tracking cmd in
  if negb has_gpu_tracking then cmd
  else if truthy (Z.land (debug_flags cmd) TU_DEBUG_NOLRZ) then cmd
  else if negb (vk_format_has_depth (format att)) then cmd
  else
    let l := cmd_lrz cmd in
    let l := set_valid l true in
    let l := set_prev_direction l TU_LRZ_UNKNOWN in
    let l := set_gpu_dir_tracking l has_gpu_tracking in
    let l := set_fast_clear l true in
    (* These are not used inside secondaries *)
    let l := set_image_view l None in
    let l := set_reuse_previous_state l false in
    set_lrz cmd l.

(** The loop of [tu_lrz_begin_resumed_renderpass]:
    [for (a = 0; a < attachment_count; a++)
       if (cmd->state.attachments[a]->image->lrz_height) break;]
    run from index [a] with [n] iterations left; the result is the final
    value of [a]. *)
Fixpoint first_lrz_attachment (cmd : tu_cmd_buffer) (n a : nat) : nat :=
  match n with
  | O => a
  | S n' =>
      if truthy (lrz_height (image (state_attachment cmd a))) then a
      else first_lrz_attachment cmd n' (S a)
  end.

(** [clear.depthStencil.depth == 0.f || clear.depthStencil.depth == 1.f] *)
Definition depth_is_0_or_1 (clear : VkClearValue) : bool :=
  PrimFloat.eqb (depth clear) 0%float || PrimFloat.eqb (depth clear) 1%float.

Definition tu_lrz_begin_resumed_renderpass (cmd : tu_cmd_buffer)
                                           (clear_values : list VkClearValue)
  : tu_cmd_buffer :=
  (* Track LRZ valid state *)
  let cmd := set_lrz cmd tu_lrz_state_zero in
  let count := attachment_count (pass (state cmd)) in
  let a := first_lrz_attachment cmd count 0 in
  if negb (Nat.eqb a count) then
    let att := pass_attachment cmd a in
    let cmd := tu_lrz_init_state cmd att (state_attachment cmd a) in
    let cmd :=
      if att_clears_depth att then
        let clear := nth a clear_values VkClearValue_zero in
        let l := set_depth_clear_value (cmd_lrz cmd) clear in
        let l := set_fast_clear l (fast_clear l && depth_is_0_or_1 clear) in
        set_lrz cmd l
      else cmd in
    set_dirty cmd (Z.lor (dirty (state cmd)) TU_CMD_DIRTY_LRZ)
  else cmd.

(** The counting loop of [tu_lrz_begin_renderpass] over attachments
    [a, a + n). *)
Fixpoint count_lrz_images (cmd : tu_cmd_buffer) (n a : nat) : Z :=
  match n with
  | O => 0
  | S n' =>
      (if truthy (lrz_height (image (state_attachment cmd a))) then 1 else 0)
      + count_lrz_images cmd n' (S a)
  end.

(** The loop of [tu_lrz_begin_renderpass] that calls [tu_disable_lrz] on the
    image of every attachment in [a, a + n), emitting to [&cmd->cs]. *)
Fixpoint disable_lrz_all (cmd : tu_cmd_buffer) (n a : nat) : tu_cmd_buffer :=
  match n with
  | O => cmd
  | S n' =>
      let img := image (state_attachment cmd a) in
      let cmd := set_cs cmd (tu_disable_lrz cmd (cs cmd) img) in
      disable_lrz_all cmd n' (S a)
  end.

Definition tu_lrz_begin_renderpass (cmd : tu_cmd_buffer)
                                   (clear_values : list VkClearValue)
  : tu_cmd_buffer :=
  let count := attachment_count (pass (state cmd)) in
  let lrz_img_count := count_lrz_images cmd count 0 in
  if has_lrz_dir_tracking cmd
     && (1 <? subpass_count (pass (state cmd)))
     && (1 <? lrz_img_count)
  then
    let cmd := disable_lrz_all cmd count 0 in
    set_lrz cmd tu_lrz_state_zero
  else
    (* Track LRZ valid state *)
    let cmd := tu_lrz_begin_resumed_renderpass cmd clear_values in
    if negb (valid (cmd_lrz cmd))
    then set_cs cmd (tu6_emit_lrz_buffer (cs cmd) None)
    else cmd.

Definition tu_lrz_begin_secondary_cmdbuf (cmd : tu_cmd_buffer)
  : tu_cmd_buffer :=
  let cmd := set_lrz cmd tu_lrz_state_zero in
  let a := depth_stencil_attachment (subpass (state cmd)) in
  if negb (a =? VK_ATTACHMENT_UNUSED) then
    let att := pass_attachment cmd (Z.to_nat a) in
    tu_lrz_init_secondary cmd att
  else cmd.

(** *** Start of the tiling pass *)

Definition tu_lrz_tiling_begin (cmd : tu_cmd_buffer) (cs : tu_cs) : tu_cs :=
  match image_view (cmd_lrz cmd) with
  | None => cs
  | Some view =>
      let lrz := cmd_lrz cmd in
      let cs := tu6_emit_lrz_buffer cs (Some (image view)) in
      if reuse_previous_state lrz then
        (* assert(lrz->gpu_dir_tracking) *)
        tu6_write_lrz_reg cmd cs
          (GRAS_LRZ_DEPTH_VIEW_dword (view_GRAS_LRZ_DEPTH_VIEW view))
      else
        let invalidate_lrz := negb (valid lrz) && gpu_dir_tracking lrz in
        let cs :=
          if invalidate_lrz then
            let cs := tu6_disable_lrz_via_depth_view cmd cs in
            tu6_write_lrz_reg cmd cs (GRAS_LRZ_DEPTH_VIEW_dword 0)
          else if fast_clear lrz || gpu_dir_tracking lrz then
            let cs :=
              if gpu_dir_tracking lrz then
                tu6_write_lrz_reg cmd cs
                  (GRAS_LRZ_DEPTH_VIEW_dword (view_GRAS_LRZ_DEPTH_VIEW view))
              else cs in
            let cs := tu6_write_lrz_reg cmd cs
                        (GRAS_LRZ_CNTL
                           (mkCNTL true false false (fast_clear lrz) false false
                                   LRZ_DIR_0 false (gpu_dir_tracking lrz))) in
            tu6_emit_event_write cmd cs LRZ_CLEAR
          else cs in
        if negb (fast_clear lrz) && negb invalidate_lrz then
          let cs := tu6_clear_lrz cmd cs (image view) (depth_clear_value lrz) in
          if truthy (lrz_fc_size (image view))
          then tu6_dirty_lrz_fc cmd cs (image view)
          else cs
        else cs
  end.

(** *** Disabling LRZ in the middle of a render pass *)

Definition tu_lrz_disable_during_renderpass (cmd : tu_cmd_buffer)
  : tu_cmd_buffer :=
  let cmd := set_lrz cmd (set_valid (cmd_lrz cmd) false) in
  let cmd := set_dirty cmd (Z.lor (dirty (state cmd)) TU_CMD_DIRTY_LRZ) in
  if gpu_dir_tracking (cmd_lrz cmd) then
    set_cs cmd
      (tu6_write_lrz_reg cmd (cs cmd)
         (GRAS_LRZ_CNTL
            (mkCNTL true false false false false false LRZ_DIR_INVALID false true)))
  else cmd.

(** *** The per-draw decision *)

(** The locals [tu6_calculate_lrz_state] decodes from the draw state. *)
Definition rb_z_test_enable (cmd : tu_cmd_buffer) : bool :=
  truthy (Z.land (rb_depth_cntl (state cmd)) A6XX_RB_DEPTH_CNTL_Z_TEST_ENABLE).
Definition rb_z_write_enable (cmd : tu_cmd_buffer) : bool :=
  truthy (Z.land (rb_depth_cntl (state cmd)) A6XX_RB_DEPTH_CNTL_Z_WRITE_ENABLE).
Definition rb_z_bounds_enable (cmd : tu_cmd_buffer) : bool :=
  truthy (Z.land (rb_depth_cntl (state cmd)) A6XX_RB_DEPTH_CNTL_Z_BOUNDS_ENABLE).
Definition rb_depth_compare_op (cmd : tu_cmd_buffer) : VkCompareOp :=
  Z.shiftr (Z.land (rb_depth_cntl (state cmd)) A6XX_RB_DEPTH_CNTL_ZFUNC__MASK)
           A6XX_RB_DEPTH_CNTL_ZFUNC__SHIFT.
Definition rb_stencil_test_enable (cmd : tu_cmd_buffer) : bool :=
  truthy (Z.land (rb_stencil_cntl (state cmd))
                 A6XX_RB_STENCIL_CONTROL_STENCIL_ENABLE).
Definition rb_stencil_front_compare_op (cmd : tu_cmd_buffer) : VkCompareOp :=
  Z.shiftr (Z.land (rb_stencil_cntl (state cmd))
                   A6XX_RB_STENCIL_CONTROL_FUNC__MASK)
           A6XX_RB_STENCIL_CONTROL_FUNC__SHIFT.
Definition rb_stencil_back_compare_op (cmd : tu_cmd_buffer) : VkCompareOp :=
  Z.shiftr (Z.land (rb_stencil_cntl (state cmd))
                   A6XX_RB_STENCIL_CONTROL_FUNC_BF__MASK)
           A6XX_RB_STENCIL_CONTROL_FUNC_BF__SHIFT.

(** [pipeline->lrz.force_disable_mask & TU_LRZ_FORCE_DISABLE_LRZ] *)
Definition force_disable_lrz (cmd : tu_cmd_buffer) : bool :=
  truthy (Z.land (lrz_force_disable_mask (pipeline (state cmd)))
                 TU_LRZ_FORCE_DISABLE_LRZ).

(** Returns whether LRZ is allowed and the control word, which the C function
    updates through its pointer argument. *)
Definition tu6_stencil_op_lrz_allowed (gras_lrz_cntl : A6XX_GRAS_LRZ_CNTL)
                                      (func : VkCompareOp)
                                      (stencil_write : bool)
  : bool * A6XX_GRAS_LRZ_CNTL :=
  if func =? VK_COMPARE_OP_ALWAYS then
    if stencil_write then (false, gras_lrz_cntl) else (true, gras_lrz_cntl)
  else if func =? VK_COMPARE_OP_NEVER then
    (true, set_lrz_write gras_lrz_cntl false)
  else
    let gras_lrz_cntl := set_lrz_write gras_lrz_cntl false in
    if stencil_write then (false, gras_lrz_cntl) else (true, gras_lrz_cntl).

(** The loop over the colour attachments (lines 693-708), from entry [i]:
    [true] when it reaches the [break], that is when some used attachment has
    a component write mask other than the full mask of its format. *)
Fixpoint color_write_mask_partial (cmd : tu_cmd_buffer)
                                  (atts : list Z) (i : nat) : bool :=
  match atts with
  | [] => false
  | a :: rest =>
      if a =? VK_ATTACHMENT_UNUSED then
        color_write_mask_partial cmd rest (S i)
      else
        let format := format (pass_attachment cmd (Z.to_nat a)) in
        let mask := MASK (vk_format_get_nr_components format) in
        if negb (Z.shiftr
                   (Z.land (nth i (rb_mrt_control (state cmd)) 0)
                           A6XX_RB_MRT_CONTROL_COMPONENT_ENABLE__MASK)
                   A6XX_RB_MRT_CONTROL_COMPONENT_ENABLE__SHIFT =? mask)
        then true
        else color_write_mask_partial cmd rest (S i)
  end.

(** Lines 677-724: dynamic logic op, blend, colour write mask and colour
    write enable each switch LRZ write off. *)
Definition lrz_write_blend_rules (cmd : tu_cmd_buffer)
                                 (gras_lrz_cntl : A6XX_GRAS_LRZ_CNTL)
  : A6XX_GRAS_LRZ_CNTL :=
  let st := state cmd in
  let dynamic b := truthy (Z.land (dynamic_state_mask (pipeline st)) (BIT b)) in
  let gras_lrz_cntl :=
    if dynamic TU_DYNAMIC_STATE_LOGIC_OP
       && logic_op_enabled st && rop_reads_dst st
    then set_lrz_write gras_lrz_cntl false else gras_lrz_cntl in
  let gras_lrz_cntl :=
    if dynamic TU_DYNAMIC_STATE_BLEND_ENABLE && blend_enable st
    then set_lrz_write gras_lrz_cntl false else gras_lrz_cntl in
  let gras_lrz_cntl :=
    if dynamic TU_DYNAMIC_STATE_BLEND then
      if color_write_mask_partial cmd (color_attachments (subpass st)) 0
      then set_lrz_write gras_lrz_cntl false else gras_lrz_cntl
    else gras_lrz_cntl in
  if dynamic TU_DYNAMIC_STATE_COLOR_WRITE_ENABLE
     && negb (Z.land (color_write_enable st) (MASK (color_count (subpass st)))
              =? MASK (blend_num_rts (pipeline st)))
  then set_lrz_write gras_lrz_cntl false else gras_lrz_cntl.

(** The [switch (depth_compare_op)] of lines 755-795. It assigns
    [lrz_direction], fields of the control word, [disable_lrz] and
    [temporary_disable_lrz]; [None] is the [unreachable] default. *)
Definition depth_compare_op_switch (depth_compare_op : VkCompareOp)
                                   (z_write_enable : bool)
                                   (gras_lrz_cntl : A6XX_GRAS_LRZ_CNTL)
                                   (disable_lrz temporary_disable_lrz : bool)
  : option (tu_lrz_direction * A6XX_GRAS_LRZ_CNTL * bool * bool) :=
  let lrz_direction := TU_LRZ_UNKNOWN in
  if (depth_compare_op =? VK_COMPARE_OP_ALWAYS)
     || (depth_compare_op =? VK_COMPARE_OP_NOT_EQUAL) then
    if z_write_enable
    then Some (lrz_direction, set_dir gras_lrz_cntl LRZ_DIR_INVALID,
               true, temporary_disable_lrz)
    else Some (lrz_direction, gras_lrz_cntl, disable_lrz, true)
  else if (depth_compare_op =? VK_COMPARE_OP_EQUAL)
          || (depth_compare_op =? VK_COMPARE_OP_NEVER) then
    Some (lrz_direction, gras_lrz_cntl, disable_lrz, true)
  else if (depth_compare_op =? VK_COMPARE_OP_GREATER)
          || (depth_compare_op =? VK_COMPARE_OP_GREATER_OR_EQUAL) then
    Some (TU_LRZ_GREATER, set_dir (set_greater gras_lrz_cntl true) LRZ_DIR_GE,
          disable_lrz, temporary_disable_lrz)
  else if (depth_compare_op =? VK_COMPARE_OP_LESS)
          || (depth_compare_op =? VK_COMPARE_OP_LESS_OR_EQUAL) then
    Some (TU_LRZ_LESS, set_dir (set_greater gras_lrz_cntl false) LRZ_DIR_LE,
          disable_lrz, temporary_disable_lrz)
  else None.

(** Lines 736-744: fragment-shader effects (writes to gl_FragDepth, early
    fragment tests). The rule reads the recorded direction and assigns one of
    the two flags. *)
Definition fs_rule (cmd : tu_cmd_buffer)
                   (disable_lrz temporary_disable_lrz : bool) : bool * bool :=
  if force_disable_lrz cmd then
    if negb (tu_lrz_direction_eqb (prev_direction (cmd_lrz cmd)) TU_LRZ_UNKNOWN)
       || negb (gpu_dir_tracking (cmd_lrz cmd))
    then (disable_lrz, true)
    else (true, temporary_disable_lrz)
  else (disable_lrz, temporary_disable_lrz).

(** Lines 802-812: the direction of this draw against the recorded one. *)
Definition direction_change_rule (cmd : tu_cmd_buffer)
                                 (lrz_direction : tu_lrz_direction)
                                 (disable_lrz temporary_disable_lrz : bool)
  : bool * bool :=
  if negb (tu_lrz_direction_eqb (prev_direction (cmd_lrz cmd)) TU_LRZ_UNKNOWN)
     && negb (tu_lrz_direction_eqb lrz_direction TU_LRZ_UNKNOWN)
     && negb (tu_lrz_direction_eqb (prev_direction (cmd_lrz cmd)) lrz_direction)
  then
    if rb_z_write_enable cmd
    then (true, temporary_disable_lrz)
    else (disable_lrz, true)
  else (disable_lrz, temporary_disable_lrz).

(** Lines 829-859: the stencil test. [lrz_allowed && f(...)] calls [f] only
    while [lrz_allowed] holds. *)
Definition stencil_rule (cmd : tu_cmd_buffer)
                        (gras_lrz_cntl : A6XX_GRAS_LRZ_CNTL)
                        (disable_lrz temporary_disable_lrz : bool)
  : A6XX_GRAS_LRZ_CNTL * bool * bool :=
  let stencil_test_enable := rb_stencil_test_enable cmd in
  if negb disable_lrz && stencil_test_enable then
    let stencil_front_compare_op := rb_stencil_front_compare_op cmd in
    let stencil_back_compare_op := rb_stencil_back_compare_op cmd in
    let lrz_allowed := true in
    let '(lrz_allowed, gras_lrz_cntl) :=
      if lrz_allowed
      then tu6_stencil_op_lrz_allowed gras_lrz_cntl stencil_front_compare_op
                                      (stencil_front_write (state cmd))
      else (false, gras_lrz_cntl) in
    let '(lrz_allowed, gras_lrz_cntl) :=
      if lrz_allowed
      then tu6_stencil_op_lrz_allowed gras_lrz_cntl stencil_back_compare_op
                                      (stencil_back_write (state cmd))
      else (false, gras_lrz_cntl) in
    if negb lrz_allowed then
      if rb_z_write_enable cmd
      then (gras_lrz_cntl, true, temporary_disable_lrz)
      else (gras_lrz_cntl, disable_lrz, true)
    else (gras_lrz_cntl, disable_lrz, temporary_disable_lrz)
  else (gras_lrz_cntl, disable_lrz, temporary_disable_lrz).

(** Returns the control word of the draw and the command buffer with
    [cmd->state.lrz] as the call leaves it. [a] is the depth/stencil
    attachment index of the subpass. The body follows the C function from top
    to bottom; the rules above are its middle part. *)
Definition tu6_calculate_lrz_state (cmd : tu_cmd_buffer) (a : Z)
  : option (A6XX_GRAS_LRZ_CNTL * tu_cmd_buffer) :=
  let z_test_enable := rb_z_test_enable cmd in
  let z_write_enable := rb_z_write_enable cmd in
  let z_bounds_enable := rb_z_bounds_enable cmd in
  let depth_compare_op := rb_depth_compare_op cmd in
  let lrz := cmd_lrz cmd in
  let gras_lrz_cntl := A6XX_GRAS_LRZ_CNTL_zero in
  if negb (valid lrz) then Some (gras_lrz_cntl, cmd)
  (* If depth test is disabled we shouldn't touch LRZ.
     Same if there is no depth attachment. *)
  else if (a =? VK_ATTACHMENT_UNUSED) || negb z_test_enable
          || truthy (Z.land (debug_flags cmd) TU_DEBUG_NOLRZ)
  then Some (gras_lrz_cntl, cmd)
  else if negb (gpu_dir_tracking lrz)
          && match attachments (state cmd) with None => true | Some _ => false end
  then Some (gras_lrz_cntl, cmd)
  else
    let gras_lrz_cntl :=
      {| enable := true;
         lrz_write :=
           z_write_enable
           && negb (truthy (Z.land (lrz_force_disable_mask (pipeline (state cmd)))
                                   TU_LRZ_FORCE_DISABLE_WRITE));
         greater := false;
         fc_enable := fast_clear lrz;
         z_test_enable := z_write_enable;
         z_bounds_enable := z_bounds_enable;
         dir := LRZ_DIR_0;
         dir_write := gpu_dir_tracking lrz;
         disable_on_wrong_dir := gpu_dir_tracking lrz |} in
    let gras_lrz_cntl := lrz_write_blend_rules cmd gras_lrz_cntl in
    let disable_lrz := false in
    let temporary_disable_lrz := false in
    let '(disable_lrz, temporary_disable_lrz) :=
      fs_rule cmd disable_lrz temporary_disable_lrz in
    match depth_compare_op_switch depth_compare_op z_write_enable
                                  gras_lrz_cntl disable_lrz
                                  temporary_disable_lrz with
    | None => None
    | Some (lrz_direction, gras_lrz_cntl, disable_lrz, temporary_disable_lrz) =>
        let '(disable_lrz, temporary_disable_lrz) :=
          direction_change_rule cmd lrz_direction disable_lrz
                                temporary_disable_lrz in
        (* keep the last KNOWN direction *)
        let lrz :=
          if z_write_enable
             && negb (tu_lrz_direction_eqb lrz_direction TU_LRZ_UNKNOWN)
          then set_prev_direction lrz lrz_direction
          else lrz in
        let '(gras_lrz_cntl, disable_lrz, temporary_disable_lrz) :=
          stencil_rule cmd gras_lrz_cntl disable_lrz temporary_disable_lrz in
        let lrz := if disable_lrz then set_valid lrz false else lrz in
        if disable_lrz && gpu_dir_tracking lrz then
          (* Direction byte on GPU should be set to CUR_DIR_DISABLED,
             for this it's not enough to emit empty GRAS_LRZ_CNTL. *)
          let gras_lrz_cntl := set_enable gras_lrz_cntl true in
          let gras_lrz_cntl := set_dir gras_lrz_cntl LRZ_DIR_INVALID in
          Some (gras_lrz_cntl, set_lrz cmd lrz)
        else
          let gras_lrz_cntl :=
            if temporary_disable_lrz
            then set_enable gras_lrz_cntl false else gras_lrz_cntl in
          let lrz := set_enabled lrz (valid lrz && enable gras_lrz_cntl) in
          let gras_lrz_cntl :=
            if negb (enabled lrz)
            then A6XX_GRAS_LRZ_CNTL_zero else gras_lrz_cntl in
          Some (gras_lrz_cntl, set_lrz cmd lrz)
    end.

(** [tu6_emit_lrz]: one draw. The control word goes to [cs]. *)
Definition tu6_emit_lrz (cmd : tu_cmd_buffer) (cs : tu_cs)
  : option (tu_cmd_buffer * tu_cs) :=
  let a := depth_stencil_attachment (subpass (state cmd)) in
  match tu6_calculate_lrz_state cmd a with
  | None => None
  | Some (gras_lrz_cntl, cmd) =>
      let cs := tu6_write_lrz_reg cmd cs (GRAS_LRZ_CNTL gras_lrz_cntl) in
      Some (cmd, cs ++ [cs_regs_RB_LRZ_CNTL (enable gras_lrz_cntl)])
  end.

End Operations.

(** ** Draws within one render pass *)

Section Pass.
Context {hdr : tu_headers}.

(** Between two draws the application rebinds pipeline and dynamic state;
    none of that touches [cmd->state.lrz]. [bind_draw_state cmd d] is [cmd]
    with the draw state of [d] and its own LRZ state. *)
Definition bind_draw_state (cmd : tu_cmd_buffer) (d : tu_cmd_state)
  : tu_cmd_buffer :=
  set_lrz (mkCmd (debug_flags cmd) (has_lrz_dir_tracking cmd)
                 (lrz_track_quirk cmd) d (cs cmd))
          (cmd_lrz cmd).

(** One draw with draw state [d]: the call [tu6_emit_lrz] makes. *)
Definition draw (cmd : tu_cmd_buffer) (d : tu_cmd_state)
  : option (A6XX_GRAS_LRZ_CNTL * tu_cmd_buffer) :=
  tu6_calculate_lrz_state (bind_draw_state cmd d)
                          (depth_stencil_attachment (subpass d)).

(** A sequence of draws; the control words come out in draw order. *)
Fixpoint draws (cmd : tu_cmd_buffer) (ds : list tu_cmd_state)
  : option (list A6XX_GRAS_LRZ_CNTL * tu_cmd_buffer) :=
  match ds with
  | [] => Some ([], cmd)
  | d :: rest =>
      match draw cmd d with
      | None => None
      | Some (c, cmd) =>
          match draws cmd rest with
          | None => None
          | Some (cntls, cmd) => Some (c :: cntls, cmd)
          end
      end
  end.

(** The command buffers a recording can be in, as far as the LRZ state goes:
    after one of the three begin operations, and from there after any
    rebinding of draw state, any draw, and any mid-pass disable. *)
Inductive lrz_reachable : tu_cmd_buffer -> Prop :=
| reach_begin_renderpass cmd clear_values :
    lrz_reachable (tu_lrz_begin_renderpass cmd clear_values)
| reach_begin_resumed_renderpass cmd clear_values :
    lrz_reachable (tu_lrz_begin_resumed_renderpass cmd clear_values)
| reach_begin_secondary_cmdbuf cmd :
    lrz_reachable (tu_lrz_begin_secondary_cmdbuf cmd)
| reach_bind cmd d :
    lrz_reachable cmd -> lrz_reachable (bind_draw_state cmd d)
| reach_draw cmd a c cmd' :
    lrz_reachable cmd ->
    tu6_calculate_lrz_state cmd a = Some (c, cmd') ->
    lrz_reachable cmd'
| reach_disable cmd :
    lrz_reachable cmd ->
    lrz_reachable (tu_lrz_disable_during_renderpass cmd).

(** [reuse_previous_state] is only set together with [gpu_dir_tracking]. *)
Definition reuse_implies_tracking (l : tu_lrz_state) : Prop :=
  reuse_previous_state l = true -> gpu_dir_tracking l = true.

(** The first early exit aside, the draw is one the decision looks at: there
    is a depth attachment, the depth test is on, LRZ is not switched off by
    the debug flag, and the command buffer either tracks the direction on the
    GPU or has its attachments at hand. *)
Definition lrz_draw_considered (cmd : tu_cmd_buffer) (a : Z) : bool :=
  negb ((a =? VK_ATTACHMENT_UNUSED) || negb (rb_z_test_enable cmd)
        || truthy (Z.land (debug_flags cmd) TU_DEBUG_NOLRZ))
  && negb (negb (gpu_dir_tracking (cmd_lrz cmd))
           && match attachments (state cmd) with
              | None => true
              | Some _ => false
              end).

End Pass.

(** ** A concrete header assignment, for examples

    Register fields sit where the a6xx register database puts them
    (RB_DEPTH_CNTL: bit 0 test enable, bit 1 write enable, bits 2-4 ZFUNC,
    bit 7 bounds enable; RB_STENCIL_CONTROL: bit 0 enable, bits 8-10 FUNC,
    bits 20-22 FUNC_BF; RB_MRT_CONTROL: bits 7-10 COMPONENT_ENABLE). The
    driver's own enumerators are given distinct bits. Every theorem below
    holds for all assignments; this one only serves to compute. *)
Definition a6xx_headers : tu_headers := {|
  A6XX_RB_DEPTH_CNTL_Z_TEST_ENABLE := 0x1;
  A6XX_RB_DEPTH_CNTL_Z_WRITE_ENABLE := 0x2;
  A6XX_RB_DEPTH_CNTL_Z_BOUNDS_ENABLE := 0x80;
  A6XX_RB_DEPTH_CNTL_ZFUNC__MASK := 0x1c;
  A6XX_RB_DEPTH_CNTL_ZFUNC__SHIFT := 2;
  A6XX_RB_STENCIL_CONTROL_STENCIL_ENABLE := 0x1;
  A6XX_RB_STENCIL_CONTROL_FUNC__MASK := 0x700;
  A6XX_RB_STENCIL_CONTROL_FUNC__SHIFT := 8;
  A6XX_RB_STENCIL_CONTROL_FUNC_BF__MASK := 0x700000;
  A6XX_RB_STENCIL_CONTROL_FUNC_BF__SHIFT := 20;
  A6XX_RB_MRT_CONTROL_COMPONENT_ENABLE__MASK := 0x780;
  A6XX_RB_MRT_CONTROL_COMPONENT_ENABLE__SHIFT := 7;
  TU_DEBUG_NOLRZ := 0x100;
  TU_LRZ_FORCE_DISABLE_LRZ := 0x1;
  TU_LRZ_FORCE_DISABLE_WRITE := 0x2;
  TU_DYNAMIC_STATE_LOGIC_OP := 20;
  TU_DYNAMIC_STATE_BLEND_ENABLE := 21;
  TU_DYNAMIC_STATE_BLEND := 14;
  TU_DYNAMIC_STATE_COLOR_WRITE_ENABLE := 22;
  TU_CMD_DIRTY_LRZ := 0x80;
  BIT := fun b => Z.shiftl 1 b mod 2 ^ 32;
  MASK := fun n => (Z.shiftl 1 n - 1) mod 2 ^ 32;
  vk_format_get_nr_components := fun _ => 4;
  vk_format_has_depth :=
    fun f => (124 <=? f) && (f <=? 130) && negb (f =? 127)
|}.

(** *** Sample states *)

Definition sample_image : tu_image :=
  {| iova := 0x100000; lrz_height := 64; lrz_pitch := 128;
     lrz_offset := 0x4000; lrz_fc_offset := 0x8000; lrz_fc_size := 512 |}.

Definition sample_view : tu_image_view :=
  {| image := sample_image; view_GRAS_LRZ_DEPTH_VIEW := 0x10000 |}.

(** One depth attachment (D32_SFLOAT) with the given clear mask and load
    flag. *)
Definition sample_pass (clear_mask : Z) (load : bool) : tu_render_pass :=
  {| pass_attachments := [mkAtt 126 clear_mask load]; subpass_count := 1 |}.

(** Draw state of a primary command buffer with depth attachment 0, no colour
    attachments, nothing dynamic, and the given depth and stencil control
    words. *)
Definition sample_draw (force_disable_mask rb_depth_cntl rb_stencil_cntl : Z)
                       (front_write back_write : bool) : tu_cmd_state :=
  {| pipeline := mkPipeline force_disable_mask 0 0;
     pass := sample_pass 0 true;
     subpass := mkSubpass [] 0;
     attachments := Some [sample_view];
     rb_depth_cntl := rb_depth_cntl;
     rb_stencil_cntl := rb_stencil_cntl;
     rb_mrt_control := [];
     stencil_front_write := front_write;
     stencil_back_write := back_write;
     logic_op_enabled := false;
     rop_reads_dst := false;
     blend_enable := false;
     color_write_enable := 0;
     dirty := 0;
     lrz := tu_lrz_state_zero |}.

(** A command buffer on a device with or without GPU direction tracking,
    with the given state. *)
Definition sample_cmd (has_gpu_tracking : bool) (st : tu_cmd_state)
  : tu_cmd_buffer :=
  {| debug_flags := 0; has_lrz_dir_tracking := has_gpu_tracking;
     lrz_track_quirk := false; state := st; cs := [] |}.

(** A valid tracker on [sample_view] with the given recorded direction. *)
Definition sample_lrz (gpu_tracking : bool) (d : tu_lrz_direction)
  : tu_lrz_state :=
  {| image_view := Some sample_view; depth_clear_value := VkClearValue_zero;
     valid := true; enabled := false; fast_clear := true;
     gpu_dir_tracking := gpu_tracking; reuse_previous_state := false;
     prev_direction := d |}.

(** [rb_depth_cntl] with the test on, the given write enable and compare
    op. *)
Definition sample_depth_cntl (write : bool) (op : VkCompareOp) : Z :=
  Z.lor (Z.lor 0x1 (if write then 0x2 else 0)) (Z.shiftl op 2).

(** A primary command buffer in a pass on [sample_view] with a valid tracker
    of recorded direction [d], about to draw with the given state. *)
Definition cmd_in_pass (gpu_tracking : bool) (d : tu_lrz_direction)
                       (st : tu_cmd_state) : tu_cmd_buffer :=
  set_lrz (sample_cmd gpu_tracking st) (sample_lrz gpu_tracking d).

(** Depth test on, compare op GREATER, depth write on or off. *)
Definition draw_greater (write : bool) : tu_cmd_state :=
  sample_draw 0 (sample_depth_cntl write VK_COMPARE_OP_GREATER) 0 false false.

(** Depth test on, compare op LESS, depth write on or off. *)
Definition draw_less (write : bool) : tu_cmd_state :=
  sample_draw 0 (sample_depth_cntl write VK_COMPARE_OP_LESS) 0 false false.

(** As [draw_less], with TU_LRZ_FORCE_DISABLE_LRZ set in the pipeline. *)
Definition draw_less_fs (write : bool) : tu_cmd_state :=
  sample_draw 1 (sample_depth_cntl write VK_COMPARE_OP_LESS) 0 false false.

(** As [draw_less], with the stencil test on, ALWAYS on both faces and
    stencil write on the front face. *)
Definition draw_less_stencil (write : bool) : tu_cmd_state :=
  sample_draw 0 (sample_depth_cntl write VK_COMPARE_OP_LESS)
              (Z.lor 0x1 (Z.lor (Z.shiftl VK_COMPARE_OP_ALWAYS 8)
                                (Z.shiftl VK_COMPARE_OP_ALWAYS 20)))
              true false.

(** Compare op GREATER and depth write on, but the depth test off. *)
Definition draw_greater_untested : tu_cmd_state :=
  sample_draw 0 (Z.lor 0x2 (Z.shiftl VK_COMPARE_OP_GREATER 2)) 0 false false.

(** A command buffer about to begin a pass whose only attachment is the
    depth image of [sample_view], with the given clear mask and load flag. *)
Definition cmd_before_pass (has_gpu_tracking : bool) (clear_mask : Z)
                           (load : bool) : tu_cmd_buffer :=
  sample_cmd has_gpu_tracking
    {| pipeline := mkPipeline 0 0 0;
       pass := sample_pass clear_mask load;
       subpass := mkSubpass [] 0;
       attachments := Some [sample_view];
       rb_depth_cntl := 0;
       rb_stencil_cntl := 0;
       rb_mrt_control := [];
       stencil_front_write := false;
       stencil_back_write := false;
       logic_op_enabled := false;
       rop_reads_dst := false;
       blend_enable := false;
       color_write_enable := 0;
       dirty := 0;
       lrz := tu_lrz_state_zero |}.

(** ** The rest of tu_lrz.c: end of the tiling pass, sysmem rendering,
    clears outside a render pass *)

(** [&cmd->cs] *)
Definition cmd_cs (cmd : tu_cmd_buffer) : tu_cs := cs cmd.

(** [tu_lrz_tiling_end] emits to [cs], and the depth view to [&cmd->cs]; it
    returns both. [cmd->state.lrz.image_view->image] with [image_view] NULL
    is a failure. [cs] is taken to be a stream of its own. *)
Definition tu_lrz_tiling_end (cmd : tu_cmd_buffer) (cs : tu_cs)
  : option (tu_cmd_buffer * tu_cs) :=
  let lrz := cmd_lrz cmd in
  let emitted :=
    if fast_clear lrz || gpu_dir_tracking lrz then
      match image_view lrz with
      | None => None
      | Some view =>
          let cs := tu6_emit_lrz_buffer cs (Some (image view)) in
          let cmd :=
            if gpu_dir_tracking lrz then
              set_cs cmd
                (tu6_write_lrz_reg cmd (cmd_cs cmd)
                   (GRAS_LRZ_DEPTH_VIEW_dword (view_GRAS_LRZ_DEPTH_VIEW view)))
            else cmd in
          (* Enable flushing of LRZ fast-clear and of direction buffer *)
          let cs := tu6_write_lrz_reg cmd cs
                      (GRAS_LRZ_CNTL
                         (mkCNTL true false false (fast_clear lrz) false false
                                 LRZ_DIR_0 false (gpu_dir_tracking lrz))) in
          Some (cmd, cs)
      end
    else
      Some (cmd, tu6_write_lrz_reg cmd cs (GRAS_LRZ_CNTL A6XX_GRAS_LRZ_CNTL_zero))
  in
  match emitted with
  | None => None
  | Some (cmd, cs) => Some (cmd, tu6_emit_event_write cmd cs LRZ_FLUSH)
  end.

(** [tu_lrz_sysmem_begin]; the fast-clear branch emits to [&cmd->cs]. *)
Definition tu_lrz_sysmem_begin (cmd : tu_cmd_buffer) (cs : tu_cs)
  : tu_cmd_buffer * tu_cs :=
  match image_view (cmd_lrz cmd) with
  | None => (cmd, cs)
  | Some view =>
      let lrz := cmd_lrz cmd in
      if has_lrz_dir_tracking cmd then
        let cs := tu_disable_lrz cmd cs (image view) in
        (* Make sure depth view comparison will fail. *)
        (cmd, tu6_write_lrz_reg cmd cs (GRAS_LRZ_DEPTH_VIEW_dword 0))
      else
        let cs := tu6_emit_lrz_buffer cs (Some (image view)) in
        (* Even though we disable LRZ writes in sysmem mode - there is still
           LRZ test, so LRZ should be cleared. *)
        if fast_clear lrz then
          let own := tu6_write_lrz_reg cmd (cmd_cs cmd)
                       (GRAS_LRZ_CNTL
                          (mkCNTL true false false true false false
                                  LRZ_DIR_0 false false)) in
          let own := tu6_emit_event_write cmd own LRZ_CLEAR in
          let own := tu6_emit_event_write cmd own LRZ_FLUSH in
          (set_cs cmd own, cs)
        else
          (cmd, tu6_clear_lrz cmd cs (image view) (depth_clear_value lrz))
  end.

(** [tu_lrz_sysmem_end]: the flush goes to [&cmd->cs]. *)
Definition tu_lrz_sysmem_end (cmd : tu_cmd_buffer) (cs : tu_cs)
  : tu_cmd_buffer * tu_cs :=
  (set_cs cmd (tu6_emit_event_write cmd (cmd_cs cmd) LRZ_FLUSH), cs).

Record VkImageSubresourceRange := mkRange {
  aspectMask : Z;
  baseMipLevel : Z;
  levelCount : Z;
  baseArrayLayer : Z;
  layerCount : Z
}.

(** [pRanges[i].aspectMask &
     (VK_IMAGE_ASPECT_COLOR_BIT | VK_IMAGE_ASPECT_DEPTH_BIT)] *)
Definition range_clears_depth (r : VkImageSubresourceRange) : bool :=
  truthy (Z.land (aspectMask r)
                 (Z.lor VK_IMAGE_ASPECT_COLOR_BIT VK_IMAGE_ASPECT_DEPTH_BIT)).

(** The loop of [tu_lrz_clear_depth_image] over [pRanges]: the first range
    with the depth (or colour) aspect, NULL if there is none. *)
Fixpoint first_depth_range (pRanges : list VkImageSubresourceRange)
  : option VkImageSubresourceRange :=
  match pRanges with
  | [] => None
  | r :: rest => if range_clears_depth r then Some r else first_depth_range rest
  end.

Section ClearDepthImage.
(** [vk_image_subresource_layer_count] of the Vulkan runtime (vk_image.h),
    not part of the sources. *)
Variable vk_image_subresource_layer_count :
  tu_image -> VkImageSubresourceRange -> Z.

(** Clear LRZ, used for out of renderpass depth clears. [rangeCount] is the
    length of [pRanges]; everything goes to [&cmd->cs]. *)
Definition tu_lrz_clear_depth_image (cmd : tu_cmd_buffer) (img : tu_image)
                                    (pDepthStencil : VkClearValue)
                                    (pRanges : list VkImageSubresourceRange)
  : tu_cmd_buffer :=
  if negb (truthy (Z.of_nat (length pRanges)))
     || negb (truthy (lrz_height img))
     || negb (has_lrz_dir_tracking cmd)
  then cmd
  else
    (* We cannot predict which depth subresource would be used later on,
       so we just pick the first one with depth cleared and clear the LRZ. *)
    match first_depth_range pRanges with
    | None => cmd
    | Some range =>
        let fast_clear :=
          truthy (lrz_fc_size img) && depth_is_0_or_1 pDepthStencil in
        let own := tu6_emit_lrz_buffer (cmd_cs cmd) (Some img) in
        let own := tu6_write_lrz_reg cmd own
                     (GRAS_LRZ_DEPTH_VIEW
                        (baseArrayLayer range)
                        (vk_image_subresource_layer_count img range)
                        (baseMipLevel range)) in
        let own := tu6_write_lrz_reg cmd own
                     (GRAS_LRZ_CNTL
                        (mkCNTL true false false fast_clear false false
                                LRZ_DIR_0 false true)) in
        let own := tu6_emit_event_write cmd own LRZ_CLEAR in
        let own := tu6_emit_event_write cmd own LRZ_FLUSH in
        let own :=
          if negb fast_clear
          then tu6_clear_lrz cmd own img pDepthStencil else own in
        set_cs cmd own
    end.

End ClearDepthImage.

Section PrimaryPass.
Context {hdr : tu_headers}.

(** The command buffers of a primary recording inside a render pass: after
    one of the two render-pass begin operations, and from there after any
    rebinding of draw state, any draw, and any mid-pass disable. *)
Inductive lrz_primary_reachable : tu_cmd_buffer -> Prop :=
| primary_begin_renderpass cmd clear_values :
    lrz_primary_reachable (tu_lrz_begin_renderpass cmd clear_values)
| primary_begin_resumed_renderpass cmd clear_values :
    lrz_primary_reachable (tu_lrz_begin_resumed_renderpass cmd clear_values)
| primary_bind cmd st :
    lrz_primary_reachable cmd ->
    lrz_primary_reachable (bind_draw_state cmd st)
| primary_draw cmd a c cmd' :
    lrz_primary_reachable cmd ->
    tu6_calculate_lrz_state cmd a = Some (c, cmd') ->
    lrz_primary_reachable cmd'
| primary_disable cmd :
    lrz_primary_reachable cmd ->
    lrz_primary_reachable (tu_lrz_disable_during_renderpass cmd).

(** Whether one of the blend rules of lines 677-724 applies to the draw. *)
Definition blend_disables_lrz_write (cmd : tu_cmd_buffer) : bool :=
  let st := state cmd in
  let dynamic b := truthy (Z.land (dynamic_state_mask (pipeline st)) (BIT b)) in
  (dynamic TU_DYNAMIC_STATE_LOGIC_OP && logic_op_enabled st && rop_reads_dst st)
  || (dynamic TU_DYNAMIC_STATE_BLEND_ENABLE && blend_enable st)
  || (dynamic TU_DYNAMIC_STATE_BLEND
      && color_write_mask_partial cmd (color_attachments (subpass st)) 0)
  || (dynamic TU_DYNAMIC_STATE_COLOR_WRITE_ENABLE
      && negb (Z.land (color_write_enable st) (MASK (color_count (subpass st)))
               =? MASK (blend_num_rts (pipeline st)))).

(** [pipeline->lrz.force_disable_mask & TU_LRZ_FORCE_DISABLE_WRITE] *)
Definition force_disable_write (cmd : tu_cmd_buffer) : bool :=
  truthy (Z.land (lrz_force_disable_mask (pipeline (state cmd)))
                 TU_LRZ_FORCE_DISABLE_WRITE).

End PrimaryPass.

Section DrawOutcome.
Context {hdr : tu_headers}.

(** The control word [tu6_calculate_lrz_state] starts from (lines 666-674)
    once the early returns are behind. *)
Definition lrz_cntl_start (cmd : tu_cmd_buffer) : A6XX_GRAS_LRZ_CNTL :=
  {| enable := true;
     lrz_write := rb_z_write_enable cmd && negb (force_disable_write cmd);
     greater := false;
     fc_enable := fast_clear (cmd_lrz cmd);
     z_test_enable := rb_z_write_enable cmd;
     z_bounds_enable := rb_z_bounds_enable cmd;
     dir := LRZ_DIR_0;
     dir_write := gpu_dir_tracking (cmd_lrz cmd);
     disable_on_wrong_dir := gpu_dir_tracking (cmd_lrz cmd) |}.

(** [cmd->state.lrz] as lines 826-827 and 861-877 leave it, given the
    direction of the draw, the two flags and the control word after the
    stencil rule. *)
Definition lrz_state_after (cmd : tu_cmd_buffer) (lrz_direction : tu_lrz_direction)
                           (gras_lrz_cntl : A6XX_GRAS_LRZ_CNTL)
                           (disable_lrz temporary_disable_lrz : bool)
  : tu_lrz_state :=
  let lrz := cmd_lrz cmd in
  let lrz :=
    if rb_z_write_enable cmd
       && negb (tu_lrz_direction_eqb lrz_direction TU_LRZ_UNKNOWN)
    then set_prev_direction lrz lrz_direction else lrz in
  let lrz := if disable_lrz then set_valid lrz false else lrz in
  if disable_lrz && gpu_dir_tracking lrz then lrz
  else
    set_enabled lrz
      (valid lrz
       && enable (if temporary_disable_lrz
                  then set_enable gras_lrz_cntl false else gras_lrz_cntl)).

End DrawOutcome.

(** What a primary pass keeps true of its tracker. *)
Definition primary_tracker_ok (cmd : tu_cmd_buffer) : Prop :=
  let l := cmd_lrz cmd in
  (valid l = true \/ fast_clear l = true \/ gpu_dir_tracking l = true
   \/ reuse_previous_state l = true ->
   image_view l <> None)
  /\ (forall view, image_view l = Some view ->
      truthy (lrz_height (image view)) = true)
  /\ (gpu_dir_tracking l = true -> has_lrz_dir_tracking cmd = true).

(** Whether an entry is one of the two ways tu_lrz.c clears LRZ. *)
Definition is_lrz_clear (e : tu_cs_entry) : bool :=
  match e with
  | cs_event_write LRZ_CLEAR => true
  | cs_clear_lrz _ _ => true
  | _ => false
  end.


(** A control word that switches the LRZ test on for its draw: [enable] set
    and a direction other than invalid. *)
Definition lrz_active (c : A6XX_GRAS_LRZ_CNTL) : Prop :=
  enable c = true /\ dir c <> LRZ_DIR_INVALID.

(** The direction a control word tests in. *)
Definition dir_of_direction (d : tu_lrz_direction) : a6xx_lrz_dir_status :=
  match d with
  | TU_LRZ_UNKNOWN => LRZ_DIR_0
  | TU_LRZ_LESS => LRZ_DIR_LE
  | TU_LRZ_GREATER => LRZ_DIR_GE
  end.

Section SecondaryPass.
Context {hdr : tu_headers}.

(** The command buffers of a secondary recording inside a render pass:
    after [tu_lrz_begin_secondary_cmdbuf], and from there after any
    rebinding of draw state, any draw, and any mid-pass disable. *)
Inductive lrz_secondary_reachable : tu_cmd_buffer -> Prop :=
| secondary_begin cmd :
    lrz_secondary_reachable (tu_lrz_begin_secondary_cmdbuf cmd)
| secondary_bind cmd st :
    lrz_secondary_reachable cmd ->
    lrz_secondary_reachable (bind_draw_state cmd st)
| secondary_draw cmd a c cmd' :
    lrz_secondary_reachable cmd ->
    tu6_calculate_lrz_state cmd a = Some (c, cmd') ->
    lrz_secondary_reachable cmd'
| secondary_disable cmd :
    lrz_secondary_reachable cmd ->
    lrz_secondary_reachable (tu_lrz_disable_during_renderpass cmd).

End SecondaryPass.

(** What a secondary command buffer keeps true of its tracker. *)
Definition secondary_tracker_ok (cmd : tu_cmd_buffer) : Prop :=
  let l := cmd_lrz cmd in
  image_view l = None
  /\ reuse_previous_state l = false
  /\ fast_clear l = gpu_dir_tracking l
  /\ (valid l = true -> gpu_dir_tracking l = true)
  /\ (gpu_dir_tracking l = true -> has_lrz_dir_tracking cmd = true).

(** * Debug options (src/util/u_debug.c)

    A C string is the list of its bytes before the terminating NUL. The
    functions of <string.h> and <ctype.h> that u_debug.c calls are modelled
    on such lists, for the C locale. What u_debug.c prints to the log is
    left out: only the values returned are modelled. *)

Definition cstring := list ascii.

(** A string literal. *)
Definition cstr (s : String.string) : cstring := String.list_ascii_of_string s.
Arguments cstr s%_string.

(** [strcmp(a, b) == 0] *)
Fixpoint cstring_eqb (a b : cstring) : bool :=
  match a, b with
  | [], [] => true
  | x :: a', y :: b' => Ascii.eqb x y && cstring_eqb a' b'
  | _, _ => false
  end.

(** [tolower] *)
Definition tolower (c : ascii) : ascii :=
  let n := nat_of_ascii c in
  if (65 <=? n)%nat && (n <=? 90)%nat then ascii_of_nat (n + 32) else c.

(** [strcasecmp(a, b) == 0] *)
Definition strcasecmp_eq (a b : cstring) : bool :=
  cstring_eqb (map tolower a) (map tolower b).

(** [isalnum]: a digit or a letter. *)
Definition isalnum (c : ascii) : bool :=
  let n := nat_of_ascii c in
  ((48 <=? n) && (n <=? 57) || (65 <=? n) && (n <=? 90)
   || (97 <=? n) && (n <=? 122))%nat.

(** [strchr(reject, c) != NULL], for [c] other than NUL. *)
Definition char_in (reject : cstring) (c : ascii) : bool :=
  existsb (Ascii.eqb c) reject.

(** [strcspn(s, reject)]: the length of the longest prefix of [s] without a
    byte of [reject]. *)
Fixpoint strcspn (s reject : cstring) : nat :=
  match s with
  | [] => O
  | c :: s' => if char_in reject c then O else S (strcspn s' reject)
  end.

(** [strncmp(a, b, n) == 0] *)
Definition strncmp_eq (a b : cstring) (n : nat) : bool :=
  cstring_eqb (firstn n a) (firstn n b).

(** [memcmp(a, b, n) == 0], for [a] and [b] of at least [n] bytes. *)
Definition memcmp_eq (a b : cstring) (n : nat) : bool :=
  cstring_eqb (firstn n a) (firstn n b).

(** [struct debug_named_value] *)
Record debug_named_value := mkNamedValue {
  nv_name : cstring;
  nv_value : Z;
  nv_desc : option cstring
}.

(** [struct debug_control] *)
Record debug_control := mkControl {
  ctl_string : cstring;
  ctl_flag : Z
}.

Section Options.
(** [os_get_option]: the value of an environment variable, NULL if it is
    not set. *)
Variable os_get_option : cstring -> option cstring.

Definition debug_get_bool_option_direct (name : cstring) (dfault : bool)
  : bool :=
  match os_get_option name with
  | None => dfault
  | Some str =>
      if cstring_eqb str (cstr "0") then false
      else if strcasecmp_eq str (cstr "n") then false
      else if strcasecmp_eq str (cstr "no") then false
      else if strcasecmp_eq str (cstr "f") then false
      else if strcasecmp_eq str (cstr "false") then false
      else if cstring_eqb str (cstr "1") then true
      else if strcasecmp_eq str (cstr "y") then true
      else if strcasecmp_eq str (cstr "yes") then true
      else if strcasecmp_eq str (cstr "t") then true
      else if strcasecmp_eq str (cstr "true") then true
      else dfault
  end.

(** [debug_get_bool_option]: the value of [debug_get_bool_option_direct]. *)
Definition debug_get_bool_option (name : cstring) (dfault : bool) : bool :=
  debug_get_bool_option_direct name dfault.

(** [debug_get_option] *)
Definition debug_get_option (name : cstring) (dfault : option cstring)
  : option cstring :=
  match os_get_option name with
  | None => dfault
  | Some result => Some result
  end.

End Options.

(** The [while (1)] loop of [str_has_option]. [start] and [str] are
    pointers into the same string, given by what is left of it from there;
    [str - start] is the difference of the two lengths. *)
Fixpoint str_has_option_loop (name start str : cstring) : bool :=
  let name_len := length name in
  match str with
  | [] =>
      (* !*str *)
      if (length start - length str =? name_len)%nat
         && memcmp_eq start name name_len
      then true
      else false
  | c :: str' =>
      if negb (isalnum c || Ascii.eqb c "_"%char) then
        if (length start - length str =? name_len)%nat
           && memcmp_eq start name name_len
        then true
        else str_has_option_loop name str' str'
      else str_has_option_loop name start str'
  end.

Definition str_has_option (str name : cstring) : bool :=
  match str with
  | [] => false                                   (* Empty string. *)
  | _ =>
      if cstring_eqb str (cstr "all") then true     (* OPTION=all *)
      else str_has_option_loop name str str
  end.

(** The loop of [debug_get_flags_option] over [flags]. *)
Fixpoint debug_get_flags_loop (str : cstring) (flags : list debug_named_value)
                              (result : Z) : Z :=
  match flags with
  | [] => result
  | f :: rest =>
      let result :=
        if str_has_option str (nv_name f)
        then Z.lor result (nv_value f) else result in
      debug_get_flags_loop str rest result
  end.

Definition debug_get_flags_option (os_get_option : cstring -> option cstring)
                                  (name : cstring)
                                  (flags : list debug_named_value)
                                  (dfault : Z) : Z :=
  match os_get_option name with
  | None => dfault
  | Some str =>
      if cstring_eqb str (cstr "help") then dfault
      else debug_get_flags_loop str flags 0
  end.

(** [MAX2] *)
Definition MAX2 (a b : nat) : nat := Nat.max a b.

(** The inner loop of [parse_debug_string] for one control entry:
    [for (; n = strcspn(s, ", "), *s; s += MAX2(1, n))]. Every round moves
    [s] forward, so [fuel] above the length of [s] is never used up. *)
Fixpoint parse_debug_tokens (fuel : nat) (control : debug_control)
                            (s : cstring) (flag : Z) : Z :=
  match fuel with
  | O => flag
  | S fuel' =>
      let n := strcspn s (cstr ", ") in
      match s with
      | [] => flag
      | _ :: _ =>
          let flag :=
            if (length (ctl_string control) =? n)%nat
               && strncmp_eq (ctl_string control) s n
            then Z.lor flag (ctl_flag control) else flag in
          parse_debug_tokens fuel' control (skipn (MAX2 1 n) s) flag
      end
  end.

(** The outer loop of [parse_debug_string]. *)
Fixpoint parse_debug_controls (debug : cstring) (control : list debug_control)
                              (flag : Z) : Z :=
  match control with
  | [] => flag
  | c :: rest =>
      let flag :=
        if cstring_eqb debug (cstr "all") then Z.lor flag (ctl_flag c)
        else parse_debug_tokens (S (length debug)) c debug flag in
      parse_debug_controls debug rest flag
  end.

Definition parse_debug_string (debug : option cstring)
                              (control : list debug_control) : Z :=
  match debug with
  | None => 0
  | Some debug => parse_debug_controls debug control 0
  end.

(** The inner loop of [parse_enable_string] for one control entry. The body
    moves [s] past a leading '+' or '-' before the loop adds [MAX2(1, n)] to
    it; when that puts [s] beyond the terminating NUL the next read is
    outside the string, and the result is [None]. On two 64-bit operands
    [flag & ~f] is [Z.ldiff flag f]. *)
Fixpoint parse_enable_tokens (fuel : nat) (control : debug_control)
                             (s : cstring) (flag : Z) : option Z :=
  match fuel with
  | O => Some flag
  | S fuel' =>
      let n := strcspn s (cstr ", ") in
      match s with
      | [] => Some flag
      | c :: s' =>
          let '(enable, s, n) :=
            if Ascii.eqb c "+"%char then (true, s', (n - 1)%nat)
            else if Ascii.eqb c "-"%char then (false, s', (n - 1)%nat)
            else (true, s, n) in
          let flag :=
            if (length (ctl_string control) =? n)%nat
               && strncmp_eq (ctl_string control) s n
            then if enable then Z.lor flag (ctl_flag control)
                 else Z.ldiff flag (ctl_flag control)
            else flag in
          if (MAX2 1 n <=? length s)%nat
          then parse_enable_tokens fuel' control (skipn (MAX2 1 n) s) flag
          else None
      end
  end.

(** The outer loop of [parse_enable_string]. *)
Fixpoint parse_enable_controls (debug : cstring) (control : list debug_control)
                               (flag : Z) : option Z :=
  match control with
  | [] => Some flag
  | c :: rest =>
      let flag :=
        if cstring_eqb debug (cstr "all") then Some (Z.lor flag (ctl_flag c))
        else parse_enable_tokens (S (length debug)) c debug flag in
      match flag with
      | None => None
      | Some flag => parse_enable_controls debug rest flag
      end
  end.

Definition parse_enable_string (debug : option cstring) (default_value : Z)
                               (control : list debug_control) : option Z :=
  match debug with
  | None => Some default_value
  | Some debug => parse_enable_controls debug control default_value
  end.

(** The loop of [comma_separated_list_contains]. *)
Fixpoint comma_separated_list_loop (fuel : nat) (list s : cstring) : bool :=
  match fuel with
  | O => false
  | S fuel' =>
      let n := strcspn list (cstr ",") in
      match list with
      | [] => false
      | _ :: _ =>
          if (n =? length s)%nat && strncmp_eq list s n then true
          else comma_separated_list_loop fuel' (skipn (MAX2 1 n) list) s
      end
  end.

Definition comma_separated_list_contains (list s : cstring) : bool :=
  comma_separated_list_loop (S (length list)) list s.

(** ** What the parsers are compared with *)

(** The fields of [s] between the bytes that satisfy [delim]: one more than
    there are delimiters, empty ones included. *)
Fixpoint fields (delim : ascii -> bool) (s : cstring) : list cstring :=
  match s with
  | [] => [[]]
  | c :: s' =>
      if delim c then [] :: fields delim s'
      else match fields delim s' with
           | f :: fs => (c :: f) :: fs
           | [] => [[c]]
           end
  end.

(** A byte that ends a word of an option string: anything but a letter, a
    digit or an underscore. *)
Definition option_delim (c : ascii) : bool :=
  negb (isalnum c || Ascii.eqb c "_"%char).

(** The tokens the [strcspn] loops visit: the non-empty fields, and the
    empty token once there is a delimiter. *)
Definition has_token (delims : cstring) (s name : cstring) : bool :=
  match name with
  | [] => existsb (char_in delims) s
  | _ => existsb (cstring_eqb name) (fields (char_in delims) s)
  end.

(** The union of the flags of a table. *)
Definition all_flags (control : list debug_control) : Z :=
  fold_right (fun c acc => Z.lor (ctl_flag c) acc) 0 control.

(** ** What [parse_enable_string] is compared with *)

Definition is_sign (c : ascii) : bool :=
  Ascii.eqb c "+"%char || Ascii.eqb c "-"%char.

(** No field of [s] starts with a sign. *)
Definition sign_free (s : cstring) : bool :=
  forallb (fun t => match t with
                    | c :: _ => negb (is_sign c)
                    | [] => true
                    end)
          (fields (char_in (cstr ", ")) s).

(** The last field of [s] is a sign on its own. *)
Definition ends_in_lone_sign (s : cstring) : bool :=
  match last (fields (char_in (cstr ", ")) s) [] with
  | [c] => is_sign c
  | _ => false
  end.

(** What a field asks for the flag called [name]: [Some true] to set it,
    [Some false] to clear it, [None] when the field names something else. *)
Definition token_request (name token : cstring) : option bool :=
  match token with
  | [] => None
  | c :: rest =>
      if Ascii.eqb c "+"%char
      then if cstring_eqb name rest then Some true else None
      else if Ascii.eqb c "-"%char
      then if cstring_eqb name rest then Some false else None
      else if cstring_eqb name token then Some true else None
  end.

(** The request of the last field that names the flag. *)
Definition last_request (name : cstring) (tokens : list cstring)
  : option bool :=
  fold_left (fun acc t => match token_request name t with
                          | Some b => Some b
                          | None => acc
                          end) tokens None.

Definition apply_request (r : option bool) (flag f : Z) : Z :=
  match r with
  | None => flag
  | Some true => Z.lor flag f
  | Some false => Z.ldiff flag f
  end.

(** ** Dumping values

    [unsigned long] and [size_t] are taken to be 64 bits wide. *)

(** A hexadecimal digit as [%lx] prints it. *)
Definition hex_digit (d : Z) : ascii :=
  if d <? 10 then ascii_of_nat (48 + Z.to_nat d)
  else ascii_of_nat (87 + Z.to_nat d).

(** The significant hexadecimal digits of [v], none for 0. *)
Fixpoint hex_digits (fuel : nat) (v : Z) : cstring :=
  match fuel with
  | O => []
  | S fuel' =>
      if v =? 0 then []
      else hex_digits fuel' (v / 16) ++ [hex_digit (v mod 16)]
  end.

(** [snprintf(rest, size, "0x%08lx", value)]: at least eight digits, padded
    with zeros, cut to [size - 1] bytes. An [unsigned long] has at most 16
    hexadecimal digits. *)
Definition snprintf_0x08lx (size : nat) (value : Z) : cstring :=
  let digits := hex_digits 16 value in
  firstn (size - 1)
         (cstr "0x" ++ repeat "0"%char (8 - length digits) ++ digits).

(** [debug_dump_enum] *)
Fixpoint debug_dump_enum (names : list debug_named_value) (value : Z)
  : cstring :=
  match names with
  | [] => snprintf_0x08lx 64 value
  | n :: rest =>
      if nv_value n =? value then nv_name n
      else debug_dump_enum rest value
  end.

(** A difference of two [size_t]. *)
Definition size_sub (a b : Z) : Z := (a - b) mod 2 ^ 64.

(** [sizeof(output) - strlen(output) - 1] for [static char output[4096]]. *)
Definition output_room (output : cstring) : Z :=
  size_sub (size_sub 4096 (Z.of_nat (length output))) 1.

(** [strncat(dst, src, n)]: at most [n] bytes of [src] after [dst]. *)
Definition strncat (dst src : cstring) (n : Z) : cstring :=
  dst ++ firstn (Z.to_nat n) src.

(** [output[sizeof(output) - 1] = '\0'] *)
Definition terminate_output (output : cstring) : cstring :=
  firstn 4095 output.

(** The loop of [debug_dump_flags] over [names], on [output], [first] and
    [value]. *)
Fixpoint debug_dump_flags_loop (names : list debug_named_value)
                               (output : cstring) (first : bool) (value : Z)
  : cstring * bool * Z :=
  match names with
  | [] => (output, first, value)
  | n :: rest =>
      if Z.land (nv_value n) value =? nv_value n then
        let output :=
          if negb first then strncat output (cstr "|") (output_room output)
          else output in
        let first := false in
        let output := strncat output (nv_name n) (output_room output) in
        let output := terminate_output output in
        let value := Z.ldiff value (nv_value n) in
        debug_dump_flags_loop rest output first value
      else debug_dump_flags_loop rest output first value
  end.

Definition debug_dump_flags (names : list debug_named_value) (value : Z)
  : cstring :=
  let '(output, first, value) := debug_dump_flags_loop names [] true value in
  let '(output, first) :=
    if negb (value =? 0) then
      let output :=
        if negb first then strncat output (cstr "|") (output_room output)
        else output in
      let rest := snprintf_0x08lx 256 value in
      let output := strncat output rest (output_room output) in
      (terminate_output output, false)
    else (output, first) in
  if first then cstr "0" else output.

(** ** What the dumps are compared with *)

(** A name that [str_has_option] can find as a word and that is none of
    the strings with a meaning of their own. *)
Definition plain_name (name : cstring) : bool :=
  negb (existsb option_delim name)
  && negb (cstring_eqb name [])
  && negb (cstring_eqb name (cstr "all"))
  && negb (cstring_eqb name (cstr "help"))
  && negb (cstring_eqb name (cstr "0")).

Fixpoint distinct_names (names : list debug_named_value) : bool :=
  match names with
  | [] => true
  | n :: rest =>
      negb (existsb (fun m => cstring_eqb (nv_name n) (nv_name m)) rest)
      && distinct_names rest
  end.

(** No two entries of the table share a bit. *)
Fixpoint disjoint_values (names : list debug_named_value) : bool :=
  match names with
  | [] => true
  | n :: rest =>
      forallb (fun m => Z.land (nv_value n) (nv_value m) =? 0) rest
      && disjoint_values rest
  end.

(** The bytes all the names take when joined by a separator and ended by a
    NUL. *)
Definition names_size (names : list debug_named_value) : nat :=
  fold_right (fun n acc => S (length (nv_name n)) + acc)%nat O names.

(** The union of the values of a table. *)
Definition union_values (names : list debug_named_value) : Z :=
  fold_right (fun n acc => Z.lor (nv_value n) acc) 0 names.

(** The entries [debug_dump_flags] names for [value], in the order of the
    table, and what is left of [value] for the hexadecimal remainder. *)
Fixpoint dump_selected (names : list debug_named_value) (value : Z)
  : list debug_named_value :=
  match names with
  | [] => []
  | n :: rest =>
      if Z.land (nv_value n) value =? nv_value n
      then n :: dump_selected rest (Z.ldiff value (nv_value n))
      else dump_selected rest value
  end.

Fixpoint dump_remainder (names : list debug_named_value) (value : Z) : Z :=
  match names with
  | [] => value
  | n :: rest =>
      if Z.land (nv_value n) value =? nv_value n
      then dump_remainder rest (Z.ldiff value (nv_value n))
      else dump_remainder rest value
  end.

(** ** Sample tables *)

Definition sample_controls : list debug_control :=
  [mkControl (cstr "foo") 1; mkControl (cstr "bar") 2;
   mkControl (cstr "baz") 4].

Definition sample_flags : list debug_named_value :=
  [mkNamedValue (cstr "foo") 1 None;
   mkNamedValue (cstr "bar") 2 (Some (cstr "the bar"));
   mkNamedValue (cstr "baz") 12 None].

(** An environment with the single variable MESA_DEBUG. *)
Definition sample_env (value : cstring) : cstring -> option cstring :=
  fun name =>
    if cstring_eqb name (cstr "MESA_DEBUG") then Some value else None.

(** * Properties *)

Section Properties.
Context {hdr : tu_headers}.

(** ** Shape of a call of [tu6_calculate_lrz_state] *)

Lemma cmd_lrz_set_lrz cmd l : cmd_lrz (set_lrz cmd l) = l.
Proof. reflexivity. Qed.

Lemma cmd_lrz_bind_draw_state cmd d :
  cmd_lrz (bind_draw_state cmd d) = cmd_lrz cmd.
Proof. reflexivity. Qed.

(** The three early returns: the control word is zero and [cmd] is handed
    back as it came. *)
Lemma calculate_early_exit cmd a :
  valid (cmd_lrz cmd) = false \/ lrz_draw_considered cmd a = false ->
  tu6_calculate_lrz_state cmd a = Some (A6XX_GRAS_LRZ_CNTL_zero, cmd).
Proof.
  unfold tu6_calculate_lrz_state, lrz_draw_considered.
  intros [Hv | Hc].
  - rewrite Hv. reflexivity.
  - destruct (valid (cmd_lrz cmd)); [cbn [negb] | reflexivity].
    apply andb_false_iff in Hc as [Hc | Hc].
    + apply negb_false_iff in Hc. rewrite Hc. reflexivity.
    + apply negb_false_iff in Hc. rewrite Hc.
      destruct (_ || _ || _); reflexivity.
Qed.

(** Opens a call in hypothesis [H] past its three early returns, given that
    the tracker is valid ([Hv]) and the draw is considered ([Hc]). *)
Ltac open_calculate H Hv Hc :=
  unfold tu6_calculate_lrz_state in H;
  unfold lrz_draw_considered in Hc;
  rewrite Hv in H; cbn [negb] in H;
  let Hc1 := fresh "Hgate" in
  let Hc2 := fresh "Hgate" in
  apply andb_true_iff in Hc as [Hc1 Hc2];
  apply negb_true_iff in Hc1; apply negb_true_iff in Hc2;
  rewrite Hc1, Hc2 in H.

Lemma lrz_write_blend_rules_fields cmd c :
  enable (lrz_write_blend_rules cmd c) = enable c
  /\ dir (lrz_write_blend_rules cmd c) = dir c
  /\ disable_on_wrong_dir (lrz_write_blend_rules cmd c) = disable_on_wrong_dir c.
Proof.
  unfold lrz_write_blend_rules.
  repeat match goal with
         | |- context [if ?b then _ else _] => destruct b
         end; cbn; auto.
Qed.

Lemma fs_rule_eq cmd :
  fs_rule cmd false false =
  (force_disable_lrz cmd
   && tu_lrz_direction_eqb (prev_direction (cmd_lrz cmd)) TU_LRZ_UNKNOWN
   && gpu_dir_tracking (cmd_lrz cmd),
   force_disable_lrz cmd
   && (negb (tu_lrz_direction_eqb (prev_direction (cmd_lrz cmd)) TU_LRZ_UNKNOWN)
       || negb (gpu_dir_tracking (cmd_lrz cmd)))).
Proof.
  unfold fs_rule.
  destruct (force_disable_lrz cmd),
           (tu_lrz_direction_eqb (prev_direction (cmd_lrz cmd)) TU_LRZ_UNKNOWN),
           (gpu_dir_tracking (cmd_lrz cmd)); reflexivity.
Qed.

Lemma is_VkCompareOp_cases op :
  is_VkCompareOp op ->
  op = VK_COMPARE_OP_NEVER \/ op = VK_COMPARE_OP_LESS
  \/ op = VK_COMPARE_OP_EQUAL \/ op = VK_COMPARE_OP_LESS_OR_EQUAL
  \/ op = VK_COMPARE_OP_GREATER \/ op = VK_COMPARE_OP_NOT_EQUAL
  \/ op = VK_COMPARE_OP_GREATER_OR_EQUAL \/ op = VK_COMPARE_OP_ALWAYS.
Proof.
  unfold is_VkCompareOp, VK_COMPARE_OP_NEVER, VK_COMPARE_OP_LESS,
    VK_COMPARE_OP_EQUAL, VK_COMPARE_OP_LESS_OR_EQUAL, VK_COMPARE_OP_GREATER,
    VK_COMPARE_OP_NOT_EQUAL, VK_COMPARE_OP_GREATER_OR_EQUAL,
    VK_COMPARE_OP_ALWAYS.
  lia.
Qed.

(** The switch has a case for each enumerator. *)
Lemma depth_compare_op_switch_total op zw c d t :
  is_VkCompareOp op -> exists r, depth_compare_op_switch op zw c d t = Some r.
Proof.
  intros Hop. apply is_VkCompareOp_cases in Hop.
  unfold depth_compare_op_switch.
  repeat destruct Hop as [Hop | Hop]; subst op; cbn;
    destruct zw; eexists; reflexivity.
Qed.

(** What the switch leaves alone and what it can only raise. *)
Lemma depth_compare_op_switch_inv op zw c d t dirn c' d' t' :
  depth_compare_op_switch op zw c d t = Some (dirn, c', d', t') ->
  enable c' = enable c
  /\ disable_on_wrong_dir c' = disable_on_wrong_dir c
  /\ (d = true -> d' = true)
  /\ (t = true -> t' = true)
  /\ (zw = false -> d' = d)
  /\ (dirn = TU_LRZ_GREATER ->
      op = VK_COMPARE_OP_GREATER \/ op = VK_COMPARE_OP_GREATER_OR_EQUAL)
  /\ (dirn = TU_LRZ_LESS ->
      op = VK_COMPARE_OP_LESS \/ op = VK_COMPARE_OP_LESS_OR_EQUAL).
Proof.
  unfold depth_compare_op_switch. intros H.
  destruct ((op =? VK_COMPARE_OP_ALWAYS) || (op =? VK_COMPARE_OP_NOT_EQUAL)).
  { destruct zw; inversion H; subst; cbn;
      repeat split; auto; discriminate. }
  destruct ((op =? VK_COMPARE_OP_EQUAL) || (op =? VK_COMPARE_OP_NEVER)).
  { inversion H; subst; repeat split; auto; discriminate. }
  destruct ((op =? VK_COMPARE_OP_GREATER)
            || (op =? VK_COMPARE_OP_GREATER_OR_EQUAL)) eqn:Hg.
  { inversion H; subst; cbn; repeat split; auto; try discriminate.
    intros _. apply orb_true_iff in Hg as [Hg | Hg];
      apply Z.eqb_eq in Hg; auto. }
  destruct ((op =? VK_COMPARE_OP_LESS)
            || (op =? VK_COMPARE_OP_LESS_OR_EQUAL)) eqn:Hl.
  { inversion H; subst; cbn; repeat split; auto; try discriminate.
    intros _. apply orb_true_iff in Hl as [Hl | Hl];
      apply Z.eqb_eq in Hl; auto. }
  discriminate.
Qed.

Lemma direction_change_rule_inv cmd dirn d t d' t' :
  direction_change_rule cmd dirn d t = (d', t') ->
  (d = true -> d' = true)
  /\ (t = true -> t' = true)
  /\ (rb_z_write_enable cmd = false -> d' = d).
Proof.
  unfold direction_change_rule. intros H.
  destruct (_ && _ && _); [destruct (rb_z_write_enable cmd) |];
    inversion H; subst; repeat split; auto; discriminate.
Qed.

Lemma tu6_stencil_op_lrz_allowed_fields c func w :
  enable (snd (tu6_stencil_op_lrz_allowed c func w)) = enable c
  /\ disable_on_wrong_dir (snd (tu6_stencil_op_lrz_allowed c func w))
     = disable_on_wrong_dir c.
Proof.
  unfold tu6_stencil_op_lrz_allowed.
  destruct (func =? VK_COMPARE_OP_ALWAYS), (func =? VK_COMPARE_OP_NEVER), w;
    cbn; auto.
Qed.

Lemma stencil_rule_inv cmd c d t c' d' t' :
  stencil_rule cmd c d t = (c', d', t') ->
  enable c' = enable c
  /\ disable_on_wrong_dir c' = disable_on_wrong_dir c
  /\ (d = true -> d' = true)
  /\ (t = true -> t' = true)
  /\ (rb_z_write_enable cmd = false -> d' = d).
Proof.
  unfold stencil_rule. intros H.
  destruct (negb d && rb_stencil_test_enable cmd).
  2:{ inversion H; subst; repeat split; auto. }
  cbn iota in H.
  pose proof (tu6_stencil_op_lrz_allowed_fields c
                (rb_stencil_front_compare_op cmd)
                (stencil_front_write (state cmd))) as [Hf1 Hf2].
  destruct (tu6_stencil_op_lrz_allowed c _ _) as [al1 c1]. cbn [snd] in *.
  destruct al1.
  - pose proof (tu6_stencil_op_lrz_allowed_fields c1
                  (rb_stencil_back_compare_op cmd)
                  (stencil_back_write (state cmd))) as [Hb1 Hb2].
    destruct (tu6_stencil_op_lrz_allowed c1 _ _) as [al2 c2]. cbn [snd] in *.
    destruct al2, (rb_z_write_enable cmd); cbn in H; inversion H; subst;
      repeat split; auto; congruence.
  - destruct (rb_z_write_enable cmd); cbn in H; inversion H; subst;
      repeat split; auto; congruence.
Qed.

(** A call that gets past the early returns, rule by rule: what each rule
    handed on, the LRZ state the call leaves, and the control word it
    returns. *)
Lemma calculate_considered_inv cmd a c cmd' :
  valid (cmd_lrz cmd) = true ->
  lrz_draw_considered cmd a = true ->
  tu6_calculate_lrz_state cmd a = Some (c, cmd') ->
  exists c0 d0 t0 dirn c1 d1 t1 d2 t2 c3 d3 t3,
    enable c0 = true
    /\ disable_on_wrong_dir c0 = gpu_dir_tracking (cmd_lrz cmd)
    /\ fs_rule cmd false false = (d0, t0)
    /\ depth_compare_op_switch (rb_depth_compare_op cmd)
         (rb_z_write_enable cmd) c0 d0 t0 = Some (dirn, c1, d1, t1)
    /\ direction_change_rule cmd dirn d1 t1 = (d2, t2)
    /\ stencil_rule cmd c1 d2 t2 = (c3, d3, t3)
    /\ valid (cmd_lrz cmd') = negb d3
    /\ prev_direction (cmd_lrz cmd') =
       (if rb_z_write_enable cmd && negb (tu_lrz_direction_eqb dirn TU_LRZ_UNKNOWN)
        then dirn else prev_direction (cmd_lrz cmd))
    /\ gpu_dir_tracking (cmd_lrz cmd') = gpu_dir_tracking (cmd_lrz cmd)
    /\ reuse_previous_state (cmd_lrz cmd') = reuse_previous_state (cmd_lrz cmd)
    /\ c = (if d3 && gpu_dir_tracking (cmd_lrz cmd)
            then set_dir (set_enable c3 true) LRZ_DIR_INVALID
            else if d3 || t3 || negb (enable c3)
                 then A6XX_GRAS_LRZ_CNTL_zero else c3).
Proof.
  intros Hv Hc H.
  open_calculate H Hv Hc.
  match type of H with
  | context [lrz_write_blend_rules cmd ?c] =>
      pose proof (lrz_write_blend_rules_fields cmd c) as (He0 & _ & Hw0);
      cbn [enable disable_on_wrong_dir] in He0, Hw0;
      set (c0 := lrz_write_blend_rules cmd c) in *
  end.
  destruct (fs_rule cmd false false) as [d0 t0] eqn:Hfs.
  destruct (depth_compare_op_switch _ _ c0 d0 t0)
    as [[[[dirn c1] d1] t1] |] eqn:Hsw; [| discriminate].
  destruct (direction_change_rule cmd dirn d1 t1) as [d2 t2] eqn:Hdc.
  destruct (stencil_rule cmd c1 d2 t2) as [[c3 d3] t3] eqn:Hst.
  exists c0, d0, t0, dirn, c1, d1, t1, d2, t2, c3, d3, t3.
  repeat match goal with |- _ /\ _ => split; [assumption || reflexivity |] end.
  destruct (rb_z_write_enable cmd && negb (tu_lrz_direction_eqb dirn TU_LRZ_UNKNOWN));
    destruct d3, (gpu_dir_tracking (cmd_lrz cmd)) eqn:Hg;
    cbn in H; try rewrite Hg in H; cbn in H;
    try rewrite Hv in H; cbn in H;
    destruct t3; cbn in H;
    try (destruct (enable c3); cbn in H);
    inversion H; subst; cbn; try rewrite Hv; auto 12.
Qed.

(** With one of the eight compare ops in the depth control word the call
    returns. *)
Lemma calculate_total cmd a :
  is_VkCompareOp (rb_depth_compare_op cmd) ->
  exists c cmd', tu6_calculate_lrz_state cmd a = Some (c, cmd').
Proof.
  intros Hop.
  destruct (valid (cmd_lrz cmd)) eqn:Hv.
  2:{ do 2 eexists. apply calculate_early_exit. auto. }
  destruct (lrz_draw_considered cmd a) eqn:Hc.
  2:{ do 2 eexists. apply calculate_early_exit. auto. }
  unfold tu6_calculate_lrz_state.
  unfold lrz_draw_considered in Hc. rewrite Hv. cbn [negb].
  apply andb_true_iff in Hc as [Hc1 Hc2].
  apply negb_true_iff in Hc1; apply negb_true_iff in Hc2.
  rewrite Hc1, Hc2.
  destruct (fs_rule cmd false false) as [d0 t0].
  match goal with
  | |- context [depth_compare_op_switch ?op ?zw ?c d0 t0] =>
      destruct (depth_compare_op_switch_total op zw c d0 t0 Hop)
        as [[[[dirn c1] d1] t1] Hsw]; rewrite Hsw
  end.
  destruct (direction_change_rule cmd dirn d1 t1) as [d2 t2].
  destruct (stencil_rule cmd c1 d2 t2) as [[c3 d3] t3].
  match goal with
  | |- context [if ?b then _ else _] => destruct b
  end; do 2 eexists; reflexivity.
Qed.

(** ** Sequences of draws *)

Lemma draw_invalid cmd d :
  valid (cmd_lrz cmd) = false ->
  draw cmd d = Some (A6XX_GRAS_LRZ_CNTL_zero, bind_draw_state cmd d).
Proof.
  intros Hv. unfold draw. apply calculate_early_exit. left. exact Hv.
Qed.

Lemma draws_invalid ds : forall cmd,
  valid (cmd_lrz cmd) = false ->
  exists cmd',
    draws cmd ds = Some (map (fun _ => A6XX_GRAS_LRZ_CNTL_zero) ds, cmd')
    /\ cmd_lrz cmd' = cmd_lrz cmd.
Proof.
  induction ds as [| d ds IH]; intros cmd Hv.
  - exists cmd. split; reflexivity.
  - cbn [draws map]. rewrite (draw_invalid cmd d Hv).
    destruct (IH (bind_draw_state cmd d)) as (cmd' & Hrun & Hl).
    { rewrite cmd_lrz_bind_draw_state. exact Hv. }
    rewrite Hrun. exists cmd'. split; [reflexivity |].
    rewrite Hl. apply cmd_lrz_bind_draw_state.
Qed.

Lemma draws_app ds1 : forall cmd ds2 cntls1 cmd1,
  draws cmd ds1 = Some (cntls1, cmd1) ->
  draws cmd (ds1 ++ ds2) =
  match draws cmd1 ds2 with
  | None => None
  | Some (cntls2, cmd2) => Some (cntls1 ++ cntls2, cmd2)
  end.
Proof.
  induction ds1 as [| d ds1 IH]; intros cmd ds2 cntls1 cmd1 H.
  - cbn in H. inversion H; subst. cbn.
    destruct (draws cmd1 ds2) as [[cntls2 cmd2] |]; reflexivity.
  - cbn [draws app] in *.
    destruct (draw cmd d) as [[c cmd0] |]; [| discriminate].
    destruct (draws cmd0 ds1) as [[cntls cmd0'] |] eqn:Hrest; [| discriminate].
    inversion H; subst.
    rewrite (IH cmd0 ds2 cntls cmd1 Hrest).
    destruct (draws cmd1 ds2) as [[cntls2 cmd2] |]; reflexivity.
Qed.

(** ** The claims *)

(** C1. Monotonic invalidation. Take any sequence of draws of one pass and
    the tracker it leaves; if that tracker is invalid, then whatever draws
    follow in the same pass, they all run, each gets the zero control word,
    and the tracker they leave is the same, still invalid. A single call of
    the decision on the invalid tracker likewise returns with [valid]
    false: no call takes [valid] from false to true. *)
Theorem monotonic_invalidation cmd0 ds1 ds2 cntls1 cmd1 :
  draws cmd0 ds1 = Some (cntls1, cmd1) ->
  valid (cmd_lrz cmd1) = false ->
  (exists cmd2,
     draws cmd0 (ds1 ++ ds2)
     = Some (cntls1 ++ map (fun _ => A6XX_GRAS_LRZ_CNTL_zero) ds2, cmd2)
     /\ cmd_lrz cmd2 = cmd_lrz cmd1
     /\ valid (cmd_lrz cmd2) = false)
  /\ (forall a, exists c cmd',
        tu6_calculate_lrz_state cmd1 a = Some (c, cmd')
        /\ valid (cmd_lrz cmd') = false).
Proof.
  intros Hrun Hv. split.
  - destruct (draws_invalid ds2 cmd1 Hv) as (cmd2 & Hrun2 & Hl).
    exists cmd2. rewrite (draws_app ds1 cmd0 ds2 cntls1 cmd1 Hrun), Hrun2.
    repeat split; [exact Hl | rewrite Hl; exact Hv].
  - intros a. exists A6XX_GRAS_LRZ_CNTL_zero, cmd1.
    split; [apply calculate_early_exit; left; exact Hv | exact Hv].
Qed.

(** C6. Empty directive on early exit. If the tracker is invalid, or there is
    no depth attachment, or the depth test is off, or the LRZ-off debug flag
    is set, the call returns the all-zero control word and the command
    buffer it was given, tracker included, unchanged. *)
Theorem empty_directive_early_exit cmd a :
  valid (cmd_lrz cmd) = false
  \/ a = VK_ATTACHMENT_UNUSED
  \/ rb_z_test_enable cmd = false
  \/ truthy (Z.land (debug_flags cmd) TU_DEBUG_NOLRZ) = true ->
  tu6_calculate_lrz_state cmd a = Some (A6XX_GRAS_LRZ_CNTL_zero, cmd).
Proof.
  intros H. apply calculate_early_exit.
  destruct H as [H | H]; [left; exact H | right].
  unfold lrz_draw_considered.
  apply andb_false_iff. left. apply negb_false_iff.
  destruct H as [H | [H | H]].
  - subst a. reflexivity.
  - rewrite H. cbn [negb]. rewrite orb_true_r. reflexivity.
  - rewrite H. apply orb_true_r.
Qed.

(** C3. Direction update rule. A call that returns changes the recorded
    direction only if depth write is enabled and the compare op is GREATER,
    GREATER_OR_EQUAL, LESS or LESS_OR_EQUAL; with depth write disabled the
    recorded direction after the call is the one before it. *)
Theorem direction_update_rule cmd a c cmd' :
  tu6_calculate_lrz_state cmd a = Some (c, cmd') ->
  (prev_direction (cmd_lrz cmd') <> prev_direction (cmd_lrz cmd) ->
   rb_z_write_enable cmd = true
   /\ (rb_depth_compare_op cmd = VK_COMPARE_OP_GREATER
       \/ rb_depth_compare_op cmd = VK_COMPARE_OP_GREATER_OR_EQUAL
       \/ rb_depth_compare_op cmd = VK_COMPARE_OP_LESS
       \/ rb_depth_compare_op cmd = VK_COMPARE_OP_LESS_OR_EQUAL))
  /\ (rb_z_write_enable cmd = false ->
      prev_direction (cmd_lrz cmd') = prev_direction (cmd_lrz cmd)).
Proof.
  intros H.
  destruct (valid (cmd_lrz cmd)) eqn:Hv.
  2:{ rewrite calculate_early_exit in H by auto.
      inversion H; subst. split; [congruence | reflexivity]. }
  destruct (lrz_draw_considered cmd a) eqn:Hc.
  2:{ rewrite calculate_early_exit in H by auto.
      inversion H; subst. split; [congruence | reflexivity]. }
  destruct (calculate_considered_inv cmd a c cmd' Hv Hc H)
    as (c0 & d0 & t0 & dirn & c1 & d1 & t1 & d2 & t2 & c3 & d3 & t3
        & _ & _ & _ & Hsw & _ & _ & _ & Hprev & _).
  apply depth_compare_op_switch_inv in Hsw
    as (_ & _ & _ & _ & _ & Hgt & Hlt).
  rewrite Hprev. split.
  - destruct (rb_z_write_enable cmd); [| cbn; congruence].
    destruct dirn; cbn; intros Hne; try congruence;
      (split; [reflexivity |]); intuition.
  - intros Hzw. rewrite Hzw. reflexivity.
Qed.

(** C2. Direction flip. The tracker is valid with recorded direction LESS and
    the draw is one the decision looks at (none of the early returns
    applies), with depth compare op GREATER. Then the call returns; with
    depth write enabled the tracker is invalid afterwards; with depth write
    disabled the tracker is still valid and the control word of the draw has
    [enable] false, being the all-zero word. *)
Theorem direction_flip cmd a :
  valid (cmd_lrz cmd) = true ->
  lrz_draw_considered cmd a = true ->
  prev_direction (cmd_lrz cmd) = TU_LRZ_LESS ->
  rb_depth_compare_op cmd = VK_COMPARE_OP_GREATER ->
  exists c cmd',
    tu6_calculate_lrz_state cmd a = Some (c, cmd')
    /\ (rb_z_write_enable cmd = true -> valid (cmd_lrz cmd') = false)
    /\ (rb_z_write_enable cmd = false ->
        valid (cmd_lrz cmd') = true
        /\ enable c = false
        /\ c = A6XX_GRAS_LRZ_CNTL_zero).
Proof.
  intros Hv Hc Hprev Hop.
  destruct (calculate_total cmd a) as (c & cmd' & H).
  { rewrite Hop. unfold is_VkCompareOp, VK_COMPARE_OP_GREATER. lia. }
  exists c, cmd'. split; [exact H |].
  destruct (calculate_considered_inv cmd a c cmd' Hv Hc H)
    as (c0 & d0 & t0 & dirn & c1 & d1 & t1 & d2 & t2 & c3 & d3 & t3
        & _ & _ & Hfs & Hsw & Hdc & Hst & Hvalid & _ & _ & _ & Hcntl).
  rewrite fs_rule_eq, Hprev in Hfs. cbn in Hfs.
  rewrite andb_false_r in Hfs. inversion Hfs; subst d0 t0; clear Hfs.
  rewrite Hop in Hsw. cbn in Hsw. inversion Hsw; subst dirn c1 d1 t1; clear Hsw.
  unfold direction_change_rule in Hdc. rewrite Hprev in Hdc. cbn in Hdc.
  apply stencil_rule_inv in Hst as (_ & _ & Hd & Ht & Hzw).
  rewrite Hvalid, Hcntl. split.
  - intros Hw. rewrite Hw in Hdc. inversion Hdc; subst d2 t2.
    rewrite Hd; reflexivity.
  - intros Hw. rewrite Hw in Hdc. inversion Hdc; subst d2 t2.
    rewrite (Hzw Hw), (Ht eq_refl). cbn. auto.
Qed.

(** C7. Explicit invalidation under GPU direction tracking. Whenever a call
    takes a tracker with GPU direction tracking from valid to invalid, the
    control word it returns is not the empty one: [enable] is true, [dir] is
    LRZ_DIR_INVALID and [disable_on_wrong_dir] is true. *)
Theorem explicit_invalidation_directive cmd a c cmd' :
  tu6_calculate_lrz_state cmd a = Some (c, cmd') ->
  valid (cmd_lrz cmd) = true ->
  gpu_dir_tracking (cmd_lrz cmd) = true ->
  valid (cmd_lrz cmd') = false ->
  enable c = true
  /\ dir c = LRZ_DIR_INVALID
  /\ disable_on_wrong_dir c = true.
Proof.
  intros H Hv Hg Hv'.
  destruct (lrz_draw_considered cmd a) eqn:Hc.
  2:{ rewrite calculate_early_exit in H by auto.
      inversion H; subst. congruence. }
  destruct (calculate_considered_inv cmd a c cmd' Hv Hc H)
    as (c0 & d0 & t0 & dirn & c1 & d1 & t1 & d2 & t2 & c3 & d3 & t3
        & _ & Hw0 & _ & Hsw & _ & Hst & Hvalid & _ & _ & _ & Hcntl).
  rewrite Hvalid in Hv'. apply negb_false_iff in Hv'. subst d3.
  rewrite Hg in Hcntl. cbn in Hcntl. subst c. cbn.
  apply depth_compare_op_switch_inv in Hsw as (_ & Hw1 & _).
  apply stencil_rule_inv in Hst as (_ & Hw3 & _).
  repeat split. congruence.
Qed.

(** What each of the three later rules does to [disable_lrz]. *)
Lemma depth_compare_op_switch_exact op zw c d t dirn c' d' t' :
  is_VkCompareOp op ->
  depth_compare_op_switch op zw c d t = Some (dirn, c', d', t') ->
  d' = d || zw && ((op =? VK_COMPARE_OP_ALWAYS)
                   || (op =? VK_COMPARE_OP_NOT_EQUAL))
  /\ dirn = (if (op =? VK_COMPARE_OP_GREATER)
                || (op =? VK_COMPARE_OP_GREATER_OR_EQUAL)
             then TU_LRZ_GREATER
             else if (op =? VK_COMPARE_OP_LESS)
                     || (op =? VK_COMPARE_OP_LESS_OR_EQUAL)
                  then TU_LRZ_LESS else TU_LRZ_UNKNOWN).
Proof.
  intros Hop H. apply is_VkCompareOp_cases in Hop.
  unfold depth_compare_op_switch in H.
  repeat destruct Hop as [Hop | Hop]; subst op; cbn in H |- *;
    destruct zw; inversion H; subst; cbn;
    rewrite ?orb_false_r, ?orb_true_r; auto.
Qed.

Lemma direction_change_rule_exact cmd dirn d t d' t' :
  direction_change_rule cmd dirn d t = (d', t') ->
  d' = d || rb_z_write_enable cmd
            && (negb (tu_lrz_direction_eqb (prev_direction (cmd_lrz cmd))
                                           TU_LRZ_UNKNOWN)
                && negb (tu_lrz_direction_eqb dirn TU_LRZ_UNKNOWN)
                && negb (tu_lrz_direction_eqb (prev_direction (cmd_lrz cmd))
                                              dirn)).
Proof.
  unfold direction_change_rule. intros H.
  destruct (_ && _ && _); destruct (rb_z_write_enable cmd);
    inversion H; subst; cbn; rewrite ?orb_false_r, ?orb_true_r; reflexivity.
Qed.

Lemma stencil_rule_exact cmd c d t c' d' t' :
  stencil_rule cmd c d t = (c', d', t') ->
  d' = d || rb_z_write_enable cmd
            && (rb_stencil_test_enable cmd
                && (stencil_front_write (state cmd)
                    && negb (rb_stencil_front_compare_op cmd
                             =? VK_COMPARE_OP_NEVER)
                    || stencil_back_write (state cmd)
                       && negb (rb_stencil_back_compare_op cmd
                                =? VK_COMPARE_OP_NEVER))).
Proof.
  unfold stencil_rule, tu6_stencil_op_lrz_allowed. intros H.
  destruct d; cbn [negb andb] in H; [inversion H; reflexivity |].
  destruct (rb_stencil_test_enable cmd); cbn [andb orb] in H |- *;
    [| inversion H; subst; rewrite andb_false_r; reflexivity].
  destruct (rb_stencil_front_compare_op cmd =? VK_COMPARE_OP_ALWAYS) eqn:Hfa,
           (rb_stencil_front_compare_op cmd =? VK_COMPARE_OP_NEVER) eqn:Hfn,
           (stencil_front_write (state cmd)),
           (rb_stencil_back_compare_op cmd =? VK_COMPARE_OP_ALWAYS) eqn:Hba,
           (rb_stencil_back_compare_op cmd =? VK_COMPARE_OP_NEVER) eqn:Hbn,
           (stencil_back_write (state cmd)),
           (rb_z_write_enable cmd);
    cbn in H; inversion H; subst; cbn; try reflexivity; exfalso;
    repeat match goal with
           | E : (_ =? _) = true |- _ => apply Z.eqb_eq in E
           end;
    try (rewrite Hfa in Hfn; discriminate Hfn);
    try (rewrite Hba in Hbn; discriminate Hbn).
Qed.

(** A draw's direction is opposite to the recorded one. *)
Lemma opposite_direction_iff op prev :
  is_VkCompareOp op ->
  negb (tu_lrz_direction_eqb prev TU_LRZ_UNKNOWN)
  && negb (tu_lrz_direction_eqb
             (if (op =? VK_COMPARE_OP_GREATER)
                 || (op =? VK_COMPARE_OP_GREATER_OR_EQUAL)
              then TU_LRZ_GREATER
              else if (op =? VK_COMPARE_OP_LESS)
                      || (op =? VK_COMPARE_OP_LESS_OR_EQUAL)
                   then TU_LRZ_LESS else TU_LRZ_UNKNOWN) TU_LRZ_UNKNOWN)
  && negb (tu_lrz_direction_eqb prev
             (if (op =? VK_COMPARE_OP_GREATER)
                 || (op =? VK_COMPARE_OP_GREATER_OR_EQUAL)
              then TU_LRZ_GREATER
              else if (op =? VK_COMPARE_OP_LESS)
                      || (op =? VK_COMPARE_OP_LESS_OR_EQUAL)
                   then TU_LRZ_LESS else TU_LRZ_UNKNOWN)) = true
  <-> (prev = TU_LRZ_LESS
       /\ (op = VK_COMPARE_OP_GREATER \/ op = VK_COMPARE_OP_GREATER_OR_EQUAL))
      \/ (prev = TU_LRZ_GREATER
          /\ (op = VK_COMPARE_OP_LESS \/ op = VK_COMPARE_OP_LESS_OR_EQUAL)).
Proof.
  intros Hop. apply is_VkCompareOp_cases in Hop.
  repeat destruct Hop as [Hop | Hop]; subst op; destruct prev; cbn;
    (split;
     [ intros H; try discriminate H; auto
     | intros [[H1 [H2 | H2]] | [H1 [H2 | H2]]];
       try discriminate H1; try discriminate H2; reflexivity ]).
Qed.

(** C5, as the code has it. The tracker is valid, the draw is one the
    decision looks at, its pipeline sets TU_LRZ_FORCE_DISABLE_LRZ and its
    compare op is one of the eight. Then the call returns, and
    - if the recorded direction is known, or the tracker has no GPU direction
      tracking, the rule asks for a temporary disable only (it raises
      [temporary_disable_lrz] and not [disable_lrz]). The tracker is invalid
      afterwards exactly when one of the later rules invalidates it, each of
      which needs depth write: the compare op is ALWAYS or NOT_EQUAL, the
      direction of the compare op is opposite to the recorded one, or the
      stencil test is on and a face with stencil write compares with
      something other than NEVER. Whenever the tracker stays valid, and
      whenever it has no GPU direction tracking, the control word of the draw
      is the all-zero one; when a tracker with GPU direction tracking is
      invalidated the word is the explicit invalidation;
    - if the recorded direction is unknown and the tracker has GPU direction
      tracking, the tracker is invalid afterwards. *)
Theorem fs_side_effect_rule cmd a :
  valid (cmd_lrz cmd) = true ->
  lrz_draw_considered cmd a = true ->
  force_disable_lrz cmd = true ->
  is_VkCompareOp (rb_depth_compare_op cmd) ->
  exists c cmd',
    tu6_calculate_lrz_state cmd a = Some (c, cmd')
    /\ (prev_direction (cmd_lrz cmd) <> TU_LRZ_UNKNOWN
        \/ gpu_dir_tracking (cmd_lrz cmd) = false ->
        fs_rule cmd false false = (false, true)
        /\ (valid (cmd_lrz cmd') = false <->
            rb_z_write_enable cmd = true
            /\ (rb_depth_compare_op cmd = VK_COMPARE_OP_ALWAYS
                \/ rb_depth_compare_op cmd = VK_COMPARE_OP_NOT_EQUAL
                \/ (prev_direction (cmd_lrz cmd) = TU_LRZ_LESS
                    /\ (rb_depth_compare_op cmd = VK_COMPARE_OP_GREATER
                        \/ rb_depth_compare_op cmd
                           = VK_COMPARE_OP_GREATER_OR_EQUAL))
                \/ (prev_direction (cmd_lrz cmd) = TU_LRZ_GREATER
                    /\ (rb_depth_compare_op cmd = VK_COMPARE_OP_LESS
                        \/ rb_depth_compare_op cmd
                           = VK_COMPARE_OP_LESS_OR_EQUAL))
                \/ (rb_stencil_test_enable cmd = true
                    /\ ((stencil_front_write (state cmd) = true
                         /\ rb_stencil_front_compare_op cmd
                            <> VK_COMPARE_OP_NEVER)
                        \/ (stencil_back_write (state cmd) = true
                            /\ rb_stencil_back_compare_op cmd
                               <> VK_COMPARE_OP_NEVER)))))
        /\ (rb_z_write_enable cmd = false -> valid (cmd_lrz cmd') = true)
        /\ (valid (cmd_lrz cmd') = true
            \/ gpu_dir_tracking (cmd_lrz cmd) = false ->
            c = A6XX_GRAS_LRZ_CNTL_zero)
        /\ (valid (cmd_lrz cmd') = false ->
            gpu_dir_tracking (cmd_lrz cmd) = true ->
            enable c = true /\ dir c = LRZ_DIR_INVALID))
    /\ (prev_direction (cmd_lrz cmd) = TU_LRZ_UNKNOWN ->
        gpu_dir_tracking (cmd_lrz cmd) = true ->
        valid (cmd_lrz cmd') = false).
Proof.
  intros Hv Hc Hfs_on Hop.
  destruct (calculate_total cmd a Hop) as (c & cmd' & H).
  exists c, cmd'. split; [exact H |].
  destruct (calculate_considered_inv cmd a c cmd' Hv Hc H)
    as (c0 & d0 & t0 & dirn & c1 & d1 & t1 & d2 & t2 & c3 & d3 & t3
        & _ & _ & Hfs & Hsw & Hdc & Hst & Hvalid & _ & _ & _ & Hcntl).
  pose proof Hfs as Hfs'.
  rewrite fs_rule_eq, Hfs_on in Hfs. cbn [andb] in Hfs.
  pose proof (depth_compare_op_switch_exact _ _ _ _ _ _ _ _ _ Hop Hsw)
    as [Hx1 Hdirn].
  pose proof (direction_change_rule_exact _ _ _ _ _ _ Hdc) as Hx2.
  pose proof (stencil_rule_exact _ _ _ _ _ _ _ Hst) as Hx3.
  apply depth_compare_op_switch_inv in Hsw as (_ & _ & Hd1 & Ht1 & Hz1 & _).
  apply direction_change_rule_inv in Hdc as (Hd2 & Ht2 & Hz2).
  apply stencil_rule_inv in Hst as (_ & _ & Hd3 & Ht3 & Hz3).
  rewrite Hvalid, Hcntl. split.
  - intros Htemp.
    assert (d0 = false /\ t0 = true) as [-> ->].
    { destruct Htemp as [Hk | Hg].
      - destruct (prev_direction (cmd_lrz cmd)); [congruence | |];
          cbn in Hfs; inversion Hfs; auto.
      - rewrite Hg in Hfs. rewrite andb_false_r, orb_true_r in Hfs.
        inversion Hfs; auto. }
    rewrite (Ht3 (Ht2 (Ht1 eq_refl))).
    split; [exact Hfs' |]. split; [| split; [| split]].
    + rewrite negb_false_iff, Hx3, Hx2, Hx1, Hdirn. cbn [orb].
      destruct (rb_z_write_enable cmd); cbn [andb orb].
      2:{ split; [discriminate | intros [Hw _]; discriminate Hw]. }
      rewrite !orb_true_iff, (opposite_direction_iff _ _ Hop).
      rewrite !andb_true_iff, !orb_true_iff, !andb_true_iff,
        !negb_true_iff, !Z.eqb_eq, !Z.eqb_neq.
      tauto.
    + intros Hw. rewrite (Hz3 Hw), (Hz2 Hw), (Hz1 Hw). reflexivity.
    + intros [Hd | Hg].
      * apply negb_true_iff in Hd. rewrite Hd. reflexivity.
      * rewrite Hg, andb_false_r, orb_true_r. reflexivity.
    + intros Hd Hg. apply negb_false_iff in Hd. rewrite Hd, Hg. cbn.
      split; reflexivity.
  - intros Hu Hg. rewrite Hu, Hg in Hfs. cbn in Hfs.
    inversion Hfs; subst d0 t0.
    rewrite (Hd3 (Hd2 (Hd1 eq_refl))). reflexivity.
Qed.

(** A face with compare op ALWAYS and stencil write enabled: the stencil rule
    hands on one of the two flags raised. *)
Lemma stencil_rule_blocked cmd c d t c' d' t' :
  stencil_rule cmd c d t = (c', d', t') ->
  rb_stencil_test_enable cmd = true ->
  (rb_stencil_front_compare_op cmd = VK_COMPARE_OP_ALWAYS
   /\ stencil_front_write (state cmd) = true)
  \/ (rb_stencil_back_compare_op cmd = VK_COMPARE_OP_ALWAYS
      /\ stencil_back_write (state cmd) = true) ->
  d' = true \/ t' = true.
Proof.
  unfold stencil_rule. intros H Hen Hface. rewrite Hen in H.
  destruct d; cbn [negb andb] in H.
  { inversion H; auto. }
  destruct Hface as [[Hop Hw] | [Hop Hw]].
  - rewrite Hop, Hw in H. cbn in H.
    destruct (rb_z_write_enable cmd); inversion H; auto.
  - destruct (tu6_stencil_op_lrz_allowed c _ _) as [al1 c1].
    rewrite Hop, Hw in H. cbn in H.
    destruct al1; cbn in H;
      destruct (rb_z_write_enable cmd); inversion H; auto.
Qed.

(** C8, as the code has it. The draw has the stencil test enabled and a face
    with compare op ALWAYS and stencil write enabled. Then the control word
    has [enable] true exactly when the call takes a tracker with GPU
    direction tracking from valid to invalid, and then its [dir] is
    LRZ_DIR_INVALID: the explicit invalidation word. In every other case
    [enable] is false; in particular when depth write is disabled and the
    pipeline does not set TU_LRZ_FORCE_DISABLE_LRZ. *)
Theorem stencil_write_directive cmd a c cmd' :
  tu6_calculate_lrz_state cmd a = Some (c, cmd') ->
  rb_stencil_test_enable cmd = true ->
  (rb_stencil_front_compare_op cmd = VK_COMPARE_OP_ALWAYS
   /\ stencil_front_write (state cmd) = true)
  \/ (rb_stencil_back_compare_op cmd = VK_COMPARE_OP_ALWAYS
      /\ stencil_back_write (state cmd) = true) ->
  (enable c = true <->
   valid (cmd_lrz cmd) = true
   /\ gpu_dir_tracking (cmd_lrz cmd) = true
   /\ valid (cmd_lrz cmd') = false)
  /\ (enable c = true -> dir c = LRZ_DIR_INVALID)
  /\ (rb_z_write_enable cmd = false -> force_disable_lrz cmd = false ->
      enable c = false).
Proof.
  intros H Hen Hface.
  assert (Hexit : valid (cmd_lrz cmd) = false
                  \/ lrz_draw_considered cmd a = false ->
                  c = A6XX_GRAS_LRZ_CNTL_zero /\ cmd' = cmd).
  { intros Hx. rewrite calculate_early_exit in H by exact Hx.
    inversion H; auto. }
  destruct (valid (cmd_lrz cmd)) eqn:Hv.
  2:{ destruct Hexit as [-> ->]; [auto |]. cbn.
      repeat split; try discriminate. intros (Hf & _); discriminate. }
  destruct (lrz_draw_considered cmd a) eqn:Hc.
  2:{ destruct Hexit as [-> ->]; [auto |]. cbn.
      repeat split; try discriminate. intros (_ & _ & Hf); congruence. }
  clear Hexit.
  destruct (calculate_considered_inv cmd a c cmd' Hv Hc H)
    as (c0 & d0 & t0 & dirn & c1 & d1 & t1 & d2 & t2 & c3 & d3 & t3
        & _ & _ & Hfs & Hsw & Hdc & Hst & Hvalid & _ & _ & _ & Hcntl).
  pose proof (stencil_rule_blocked _ _ _ _ _ _ _ Hst Hen Hface) as Hraised.
  apply depth_compare_op_switch_inv in Hsw as (_ & _ & _ & _ & Hz1 & _).
  apply direction_change_rule_inv in Hdc as (_ & _ & Hz2).
  apply stencil_rule_inv in Hst as (_ & _ & _ & _ & Hz3).
  rewrite Hvalid, Hcntl.
  assert (Hor : d3 || t3 = true)
    by (destruct Hraised as [-> | ->]; [reflexivity | apply orb_true_r]).
  rewrite Hor. cbn [orb].
  split; [split | split].
  - destruct d3, (gpu_dir_tracking (cmd_lrz cmd)); cbn; intros He;
      auto; discriminate.
  - intros (_ & -> & Hd). apply negb_false_iff in Hd. subst d3. reflexivity.
  - destruct (d3 && gpu_dir_tracking (cmd_lrz cmd)); cbn; congruence.
  - intros Hw Hfs_off.
    rewrite fs_rule_eq, Hfs_off in Hfs. cbn in Hfs. inversion Hfs; subst d0 t0.
    rewrite (Hz3 Hw), (Hz2 Hw), (Hz1 Hw). reflexivity.
Qed.

(** ** Initialisation *)

Lemma first_lrz_attachment_set_lrz cmd l n : forall a,
  first_lrz_attachment (set_lrz cmd l) n a = first_lrz_attachment cmd n a.
Proof.
  induction n as [| n IH]; intros a; cbn [first_lrz_attachment].
  - reflexivity.
  - change (state_attachment (set_lrz cmd l) a) with (state_attachment cmd a).
    rewrite IH. reflexivity.
Qed.

(** When the loop stops before the end, it stops at an image with an LRZ
    buffer. *)
Lemma first_lrz_attachment_found cmd n : forall a,
  first_lrz_attachment cmd n a <> (a + n)%nat ->
  truthy (lrz_height
            (image (state_attachment cmd (first_lrz_attachment cmd n a))))
  = true.
Proof.
  induction n as [| n IH]; intros a Hne; cbn [first_lrz_attachment] in *.
  - exfalso. apply Hne. lia.
  - destruct (truthy (lrz_height (image (state_attachment cmd a)))) eqn:Hh.
    + exact Hh.
    + apply IH. intros Heq. apply Hne. rewrite Heq. lia.
Qed.

Lemma tu_lrz_init_state_reuse cmd att view :
  reuse_previous_state (cmd_lrz cmd) = false ->
  reuse_implies_tracking (cmd_lrz (tu_lrz_init_state cmd att view)).
Proof.
  unfold tu_lrz_init_state, reuse_implies_tracking. intros H0.
  destruct (truthy (lrz_height (image view))),
           (has_lrz_dir_tracking cmd), (att_clears_depth att), (load att);
    cbn; congruence.
Qed.

Lemma tu_lrz_begin_resumed_renderpass_reuse cmd clear_values :
  reuse_implies_tracking
    (cmd_lrz (tu_lrz_begin_resumed_renderpass cmd clear_values)).
Proof.
  unfold tu_lrz_begin_resumed_renderpass.
  destruct (negb (Nat.eqb _ _)); [| cbn; discriminate].
  match goal with
  | |- context [tu_lrz_init_state ?c ?att ?v] =>
      pose proof (tu_lrz_init_state_reuse c att v eq_refl) as Hinit;
      set (cmd1 := tu_lrz_init_state c att v) in *
  end.
  destruct (att_clears_depth _); exact Hinit.
Qed.

Lemma tu_lrz_begin_renderpass_reuse cmd clear_values :
  reuse_implies_tracking (cmd_lrz (tu_lrz_begin_renderpass cmd clear_values)).
Proof.
  unfold tu_lrz_begin_renderpass.
  destruct (_ && _ && _); [cbn; discriminate |].
  pose proof (tu_lrz_begin_resumed_renderpass_reuse cmd clear_values) as Hr.
  destruct (negb (valid _)); exact Hr.
Qed.

Lemma tu_lrz_begin_secondary_cmdbuf_reuse cmd :
  reuse_implies_tracking (cmd_lrz (tu_lrz_begin_secondary_cmdbuf cmd)).
Proof.
  unfold tu_lrz_begin_secondary_cmdbuf, tu_lrz_init_secondary,
    reuse_implies_tracking.
  repeat match goal with
         | |- context [if ?b then _ else _] => destruct b
         end; cbn; discriminate.
Qed.

Lemma cmd_lrz_disable_during_renderpass cmd :
  cmd_lrz (tu_lrz_disable_during_renderpass cmd)
  = set_valid (cmd_lrz cmd) false.
Proof.
  unfold tu_lrz_disable_during_renderpass.
  destruct (gpu_dir_tracking _); reflexivity.
Qed.

(** C9. Reuse precondition. In every command buffer a recording can be in
    (after any of the three begin operations, and after any further
    rebinding, draw or mid-pass disable) [reuse_previous_state] is true only
    if [gpu_dir_tracking] is: reuse without GPU direction tracking is not
    reachable. *)
Theorem reuse_requires_gpu_tracking cmd :
  lrz_reachable cmd ->
  reuse_previous_state (cmd_lrz cmd) = true ->
  gpu_dir_tracking (cmd_lrz cmd) = true.
Proof.
  intros Hr. change (reuse_implies_tracking (cmd_lrz cmd)).
  induction Hr as [cmd cv | cmd cv | cmd | cmd d Hr IH
                   | cmd a c cmd' Hr IH Hcall | cmd Hr IH].
  - apply tu_lrz_begin_renderpass_reuse.
  - apply tu_lrz_begin_resumed_renderpass_reuse.
  - apply tu_lrz_begin_secondary_cmdbuf_reuse.
  - exact IH.
  - destruct (valid (cmd_lrz cmd)) eqn:Hv.
    2:{ rewrite calculate_early_exit in Hcall by auto.
        inversion Hcall; subst. exact IH. }
    destruct (lrz_draw_considered cmd a) eqn:Hc.
    2:{ rewrite calculate_early_exit in Hcall by auto.
        inversion Hcall; subst. exact IH. }
    destruct (calculate_considered_inv cmd a c cmd' Hv Hc Hcall)
      as (c0 & d0 & t0 & dirn & c1 & d1 & t1 & d2 & t2 & c3 & d3 & t3
          & _ & _ & _ & _ & _ & _ & _ & _ & Hg & Hreuse & _).
    unfold reuse_implies_tracking in *. rewrite Hg, Hreuse. exact IH.
  - rewrite cmd_lrz_disable_during_renderpass. exact IH.
Qed.

(** C4, as the code has it. Let [a] be the first attachment whose image has
    an LRZ buffer. After [tu_lrz_begin_resumed_renderpass], [fast_clear] is
    true if and only if there is such an attachment, it is cleared in this
    pass or it is loaded on a device with GPU direction tracking, its image
    has a fast-clear buffer, and, when it is cleared, the clear depth is
    equal to 0.0 or to 1.0. After [tu_lrz_begin_renderpass] the same holds,
    provided the pass is not one with several subpasses and several LRZ
    images on such a device, for which [fast_clear] is false. *)
Theorem fast_clear_eligibility cmd clear_values :
  let count := attachment_count (pass (state cmd)) in
  let a := first_lrz_attachment cmd count 0 in
  let att := pass_attachment cmd a in
  let img := image (state_attachment cmd a) in
  let clear := nth a clear_values VkClearValue_zero in
  let eligible :=
    a <> count
    /\ (att_clears_depth att = true
        \/ (has_lrz_dir_tracking cmd = true /\ load att = true))
    /\ 0 < lrz_fc_size img
    /\ (att_clears_depth att = true -> depth_is_0_or_1 clear = true) in
  (fast_clear (cmd_lrz (tu_lrz_begin_resumed_renderpass cmd clear_values))
   = true <-> eligible)
  /\ (fast_clear (cmd_lrz (tu_lrz_begin_renderpass cmd clear_values)) = true
      <-> has_lrz_dir_tracking cmd
          && (1 <? subpass_count (pass (state cmd)))
          && (1 <? count_lrz_images cmd count 0) = false
          /\ eligible).
Proof.
  intros count a att img clear eligible.
  assert (Hres : fast_clear
                   (cmd_lrz (tu_lrz_begin_resumed_renderpass cmd clear_values))
                 = true <-> eligible).
  { unfold tu_lrz_begin_resumed_renderpass.
    rewrite first_lrz_attachment_set_lrz.
    change (attachment_count (pass (state (set_lrz cmd tu_lrz_state_zero))))
      with count.
    fold a.
    change (pass_attachment (set_lrz cmd tu_lrz_state_zero) a) with att.
    change (state_attachment (set_lrz cmd tu_lrz_state_zero) a)
      with (state_attachment cmd a).
    unfold eligible.
    destruct (Nat.eqb a count) eqn:Heq; cbn [negb].
    - apply Nat.eqb_eq in Heq. cbn. split; [discriminate | tauto].
    - apply Nat.eqb_neq in Heq.
      pose proof (first_lrz_attachment_found cmd count 0) as Hfound.
      fold a in Hfound. specialize (Hfound Heq).
      unfold tu_lrz_init_state. rewrite Hfound. cbn [negb]. fold img.
      change (has_lrz_dir_tracking (set_lrz cmd tu_lrz_state_zero))
        with (has_lrz_dir_tracking cmd).
      fold clear.
      destruct (has_lrz_dir_tracking cmd), (att_clears_depth att), (load att),
               (depth_is_0_or_1 clear);
        cbn; rewrite ?andb_true_r, ?andb_false_r;
        rewrite ?Z.ltb_lt; intuition discriminate. }
  split; [exact Hres |].
  unfold tu_lrz_begin_renderpass. fold count.
  destruct (_ && _ && _).
  - cbn. split; [discriminate | intros [Hf _]; discriminate].
  - destruct (negb (valid _)); cbn [cmd_lrz set_cs state];
      fold (cmd_lrz (tu_lrz_begin_resumed_renderpass cmd clear_values));
      rewrite Hres; tauto.
Qed.

(** ** Start of the tiling pass *)

(** A pass whose LRZ attachment is neither cleared nor loaded, on a device
    with GPU direction tracking: [tu_lrz_init_state] records the view and
    returns before it sets [valid] or [gpu_dir_tracking]. *)
Lemma tu_lrz_init_state_unloaded cmd att view :
  truthy (lrz_height (image view)) = true ->
  has_lrz_dir_tracking cmd = true ->
  att_clears_depth att = false ->
  load att = false ->
  cmd_lrz (tu_lrz_init_state cmd att view)
  = set_image_view (cmd_lrz cmd) (Some view).
Proof.
  intros Hh Hg Hc Hl. unfold tu_lrz_init_state.
  rewrite Hh, Hg, Hc, Hl. reflexivity.
Qed.

(** With a view recorded, no reuse, [valid] false and [gpu_dir_tracking]
    true, the tiling pass starts with the disable sequence and no clear. *)
Lemma tu_lrz_tiling_begin_invalid_tracked cmd cs view :
  image_view (cmd_lrz cmd) = Some view ->
  reuse_previous_state (cmd_lrz cmd) = false ->
  valid (cmd_lrz cmd) = false ->
  gpu_dir_tracking (cmd_lrz cmd) = true ->
  tu_lrz_tiling_begin cmd cs =
  tu6_write_lrz_reg cmd
    (tu6_disable_lrz_via_depth_view cmd
       (tu6_emit_lrz_buffer cs (Some (image view))))
    (GRAS_LRZ_DEPTH_VIEW_dword 0).
Proof.
  intros Hview Hr Hv Hg. unfold tu_lrz_tiling_begin.
  rewrite Hview, Hr, Hv, Hg. cbn [negb andb].
  destruct (fast_clear (cmd_lrz cmd)); reflexivity.
Qed.

(** With a view recorded and every flag of the tracker false, the tiling
    pass starts with a full clear of the LRZ buffer, to the zero clear value
    when none was recorded. *)
Lemma tu_lrz_tiling_begin_untracked cmd cs view :
  image_view (cmd_lrz cmd) = Some view ->
  reuse_previous_state (cmd_lrz cmd) = false ->
  valid (cmd_lrz cmd) = false ->
  gpu_dir_tracking (cmd_lrz cmd) = false ->
  fast_clear (cmd_lrz cmd) = false ->
  tu_lrz_tiling_begin cmd cs =
  let cs := tu6_emit_lrz_buffer cs (Some (image view)) in
  let cs := tu6_clear_lrz cmd cs (image view)
                          (depth_clear_value (cmd_lrz cmd)) in
  if truthy (lrz_fc_size (image view))
  then tu6_dirty_lrz_fc cmd cs (image view) else cs.
Proof.
  intros Hview Hr Hv Hg Hf. unfold tu_lrz_tiling_begin.
  rewrite Hview, Hr, Hv, Hg, Hf. reflexivity.
Qed.

End Properties.

(** * Concrete runs *)

Section Examples.
#[local] Existing Instance a6xx_headers.

(** In the concrete register layout the ZFUNC field is three bits wide, so
    the [unreachable] default is never taken: the call returns on every
    command buffer. *)
Lemma a6xx_depth_compare_op_range cmd :
  is_VkCompareOp (rb_depth_compare_op cmd).
Proof.
  unfold is_VkCompareOp, rb_depth_compare_op.
  change A6XX_RB_DEPTH_CNTL_ZFUNC__MASK with 28.
  change A6XX_RB_DEPTH_CNTL_ZFUNC__SHIFT with 2.
  rewrite Z.shiftr_land.
  change (Z.shiftr 28 2) with (Z.ones 3).
  rewrite Z.land_ones by lia.
  pose proof (Z.mod_pos_bound (Z.shiftr (rb_depth_cntl (state cmd)) 2) (2 ^ 3)).
  lia.
Qed.

Lemma a6xx_calculate_total cmd a :
  exists c cmd', tu6_calculate_lrz_state cmd a = Some (c, cmd').
Proof. apply calculate_total, a6xx_depth_compare_op_range. Qed.

(** C1 at a concrete pass: a direction flip with depth write invalidates the
    tracker, and the draw after it finds it invalid. *)
Lemma monotonic_invalidation_witness :
  exists cntls1 cmd1,
    draws (cmd_in_pass true TU_LRZ_LESS (draw_greater true))
          [draw_greater true] = Some (cntls1, cmd1)
    /\ valid (cmd_lrz cmd1) = false
    /\ ((exists cmd2,
           draws (cmd_in_pass true TU_LRZ_LESS (draw_greater true))
                 ([draw_greater true] ++ [draw_less true])
           = Some (cntls1 ++ map (fun _ => A6XX_GRAS_LRZ_CNTL_zero)
                                 [draw_less true], cmd2)
           /\ cmd_lrz cmd2 = cmd_lrz cmd1
           /\ valid (cmd_lrz cmd2) = false)
        /\ (forall a, exists c cmd',
              tu6_calculate_lrz_state cmd1 a = Some (c, cmd')
              /\ valid (cmd_lrz cmd') = false)).
Proof.
  eassert (H : draws (cmd_in_pass true TU_LRZ_LESS (draw_greater true))
                     [draw_greater true] = Some (_, _)) by reflexivity.
  do 2 eexists. split; [exact H |]. split; [reflexivity |].
  apply (monotonic_invalidation _ _ _ _ _ H). reflexivity.
Defined.

(** C6 at a draw with the depth test off. *)
Lemma empty_directive_early_exit_witness :
  rb_z_test_enable (cmd_in_pass true TU_LRZ_LESS draw_greater_untested) = false
  /\ tu6_calculate_lrz_state
       (cmd_in_pass true TU_LRZ_LESS draw_greater_untested) 0
     = Some (A6XX_GRAS_LRZ_CNTL_zero,
             cmd_in_pass true TU_LRZ_LESS draw_greater_untested).
Proof.
  split; [reflexivity |].
  apply empty_directive_early_exit. right. right. left. reflexivity.
Defined.

(** C3 at a draw with compare op GREATER on a tracker with direction LESS,
    depth write off. *)
Lemma direction_update_rule_witness :
  exists c cmd',
    tu6_calculate_lrz_state
      (cmd_in_pass true TU_LRZ_LESS (draw_greater false)) 0 = Some (c, cmd')
    /\ (prev_direction (cmd_lrz cmd') <> TU_LRZ_LESS ->
        rb_z_write_enable (cmd_in_pass true TU_LRZ_LESS (draw_greater false))
        = true
        /\ (rb_depth_compare_op
              (cmd_in_pass true TU_LRZ_LESS (draw_greater false))
            = VK_COMPARE_OP_GREATER
            \/ rb_depth_compare_op
                 (cmd_in_pass true TU_LRZ_LESS (draw_greater false))
               = VK_COMPARE_OP_GREATER_OR_EQUAL
            \/ rb_depth_compare_op
                 (cmd_in_pass true TU_LRZ_LESS (draw_greater false))
               = VK_COMPARE_OP_LESS
            \/ rb_depth_compare_op
                 (cmd_in_pass true TU_LRZ_LESS (draw_greater false))
               = VK_COMPARE_OP_LESS_OR_EQUAL))
    /\ (rb_z_write_enable (cmd_in_pass true TU_LRZ_LESS (draw_greater false))
        = false ->
        prev_direction (cmd_lrz cmd') = TU_LRZ_LESS).
Proof.
  eassert (H : tu6_calculate_lrz_state
                 (cmd_in_pass true TU_LRZ_LESS (draw_greater false)) 0
               = Some (_, _)) by reflexivity.
  do 2 eexists. split; [exact H |].
  apply (direction_update_rule _ _ _ _ H).
Defined.

(** C2 at a draw with compare op GREATER and depth write on. *)
Lemma direction_flip_witness :
  valid (cmd_lrz (cmd_in_pass true TU_LRZ_LESS (draw_greater true))) = true
  /\ lrz_draw_considered (cmd_in_pass true TU_LRZ_LESS (draw_greater true)) 0
     = true
  /\ exists c cmd',
       tu6_calculate_lrz_state
         (cmd_in_pass true TU_LRZ_LESS (draw_greater true)) 0 = Some (c, cmd')
       /\ (rb_z_write_enable (cmd_in_pass true TU_LRZ_LESS (draw_greater true))
           = true -> valid (cmd_lrz cmd') = false)
       /\ (rb_z_write_enable (cmd_in_pass true TU_LRZ_LESS (draw_greater true))
           = false ->
           valid (cmd_lrz cmd') = true
           /\ enable c = false
           /\ c = A6XX_GRAS_LRZ_CNTL_zero).
Proof.
  split; [reflexivity |]. split; [reflexivity |].
  apply direction_flip; reflexivity.
Defined.

(** C7 at the same draw. *)
Lemma explicit_invalidation_directive_witness :
  exists c cmd',
    tu6_calculate_lrz_state
      (cmd_in_pass true TU_LRZ_LESS (draw_greater true)) 0 = Some (c, cmd')
    /\ valid (cmd_lrz cmd') = false
    /\ enable c = true
    /\ dir c = LRZ_DIR_INVALID
    /\ disable_on_wrong_dir c = true.
Proof.
  eassert (H : tu6_calculate_lrz_state
                 (cmd_in_pass true TU_LRZ_LESS (draw_greater true)) 0
               = Some (_, _)) by reflexivity.
  do 2 eexists. split; [exact H |]. split; [reflexivity |].
  apply (explicit_invalidation_directive _ _ _ _ H); reflexivity.
Defined.

(** C9 at a pass that loads its depth attachment on a device with GPU
    direction tracking: the tracker reuses the previous state. *)
Lemma reuse_requires_gpu_tracking_witness :
  lrz_reachable (tu_lrz_begin_renderpass (cmd_before_pass true 0 true) [])
  /\ reuse_previous_state
       (cmd_lrz (tu_lrz_begin_renderpass (cmd_before_pass true 0 true) []))
     = true
  /\ gpu_dir_tracking
       (cmd_lrz (tu_lrz_begin_renderpass (cmd_before_pass true 0 true) []))
     = true.
Proof.
  refine ((fun Hr He => conj Hr (conj He
             (reuse_requires_gpu_tracking _ Hr He))) _ _).
  - apply reach_begin_renderpass.
  - reflexivity.
Defined.

(** A pass that clears its depth attachment to 1.0 starts with fast clear
    on; one that clears it to 0.5 starts with fast clear off. *)
Lemma fast_clear_on_clear_to_one :
  fast_clear
    (cmd_lrz (tu_lrz_begin_renderpass
                (cmd_before_pass true VK_IMAGE_ASPECT_DEPTH_BIT false)
                [mkVkClearValue 1%float 0]))
  = true.
Proof. reflexivity. Qed.

Lemma fast_clear_off_clear_to_half :
  fast_clear
    (cmd_lrz (tu_lrz_begin_renderpass
                (cmd_before_pass true VK_IMAGE_ASPECT_DEPTH_BIT false)
                [mkVkClearValue 0.5%float 0]))
  = false.
Proof. reflexivity. Qed.

(** C4 as stated fails: on a device without GPU direction tracking, a pass
    that loads its depth attachment and does not clear it leaves
    [fast_clear] false, although the image has a fast-clear buffer and no
    clear value is there to rule it out. *)
Lemma fast_clear_eligibility_counterexample :
  0 < lrz_fc_size (image (state_attachment (cmd_before_pass false 0 true) 0))
  /\ att_clears_depth (pass_attachment (cmd_before_pass false 0 true) 0)
     = false
  /\ fast_clear
       (cmd_lrz (tu_lrz_begin_renderpass (cmd_before_pass false 0 true) []))
     = false.
Proof. repeat split. Qed.

(** C5 as stated fails: the pipeline sets TU_LRZ_FORCE_DISABLE_LRZ and the
    recorded direction is unknown, but the tracker has no GPU direction
    tracking; the tracker is still valid after the draw. *)
Lemma fs_side_effect_rule_counterexample :
  force_disable_lrz (cmd_in_pass false TU_LRZ_UNKNOWN (draw_less_fs true))
  = true
  /\ prev_direction
       (cmd_lrz (cmd_in_pass false TU_LRZ_UNKNOWN (draw_less_fs true)))
     = TU_LRZ_UNKNOWN
  /\ valid (cmd_lrz (cmd_in_pass false TU_LRZ_UNKNOWN (draw_less_fs true)))
     = true
  /\ lrz_draw_considered
       (cmd_in_pass false TU_LRZ_UNKNOWN (draw_less_fs true)) 0 = true
  /\ exists c cmd',
       tu6_calculate_lrz_state
         (cmd_in_pass false TU_LRZ_UNKNOWN (draw_less_fs true)) 0
       = Some (c, cmd')
       /\ valid (cmd_lrz cmd') = true.
Proof.
  repeat split. do 2 eexists. split; reflexivity.
Qed.

(** C5 as amended, at a draw with depth write and compare op LESS on a
    tracker with GPU direction tracking and recorded direction LESS: none of
    the later rules invalidates, the tracker stays valid and the control
    word is the all-zero one. *)
Lemma fs_side_effect_rule_witness :
  valid (cmd_lrz (cmd_in_pass true TU_LRZ_LESS (draw_less_fs true))) = true
  /\ lrz_draw_considered (cmd_in_pass true TU_LRZ_LESS (draw_less_fs true)) 0
     = true
  /\ force_disable_lrz (cmd_in_pass true TU_LRZ_LESS (draw_less_fs true))
     = true
  /\ is_VkCompareOp
       (rb_depth_compare_op (cmd_in_pass true TU_LRZ_LESS (draw_less_fs true)))
  /\ rb_z_write_enable (cmd_in_pass true TU_LRZ_LESS (draw_less_fs true))
     = true
  /\ exists c cmd',
       tu6_calculate_lrz_state
         (cmd_in_pass true TU_LRZ_LESS (draw_less_fs true)) 0 = Some (c, cmd')
       /\ valid (cmd_lrz cmd') = true
       /\ c = A6XX_GRAS_LRZ_CNTL_zero.
Proof.
  assert (Hop : is_VkCompareOp
                  (rb_depth_compare_op
                     (cmd_in_pass true TU_LRZ_LESS (draw_less_fs true))))
    by (cbv; split; discriminate).
  assert (Hv : valid (cmd_lrz (cmd_in_pass true TU_LRZ_LESS
                                           (draw_less_fs true))) = true)
    by reflexivity.
  assert (Hc : lrz_draw_considered
                 (cmd_in_pass true TU_LRZ_LESS (draw_less_fs true)) 0 = true)
    by reflexivity.
  assert (Hfs : force_disable_lrz
                  (cmd_in_pass true TU_LRZ_LESS (draw_less_fs true)) = true)
    by reflexivity.
  split; [exact Hv |]. split; [exact Hc |]. split; [exact Hfs |].
  split; [exact Hop |]. split; [reflexivity |].
  destruct (fs_side_effect_rule
              (cmd_in_pass true TU_LRZ_LESS (draw_less_fs true)) 0
              Hv Hc Hfs Hop)
    as (c & cmd' & Hcall & Htemp & _).
  exists c, cmd'. split; [exact Hcall |].
  destruct Htemp as (_ & Hinv & _ & Hzero & _); [left; discriminate |].
  assert (Hvalid : valid (cmd_lrz cmd') = true).
  { destruct (valid (cmd_lrz cmd')); [reflexivity |].
    exfalso.
    destruct (proj1 Hinv eq_refl)
      as (_ & [E | [E | [[_ [E | E]] | [[E _] | [E _]]]]]);
      vm_compute in E; discriminate E. }
  split; [exact Hvalid | apply Hzero; left; exact Hvalid].
Defined.

(** C8 as stated fails: stencil test on, front face ALWAYS with stencil write
    on, depth write on, GPU direction tracking: the draw invalidates the
    tracker and its control word has [enable] true. *)
Lemma stencil_write_directive_counterexample :
  rb_stencil_test_enable (cmd_in_pass true TU_LRZ_LESS (draw_less_stencil true))
  = true
  /\ rb_stencil_front_compare_op
       (cmd_in_pass true TU_LRZ_LESS (draw_less_stencil true))
     = VK_COMPARE_OP_ALWAYS
  /\ stencil_front_write
       (state (cmd_in_pass true TU_LRZ_LESS (draw_less_stencil true))) = true
  /\ exists c cmd',
       tu6_calculate_lrz_state
         (cmd_in_pass true TU_LRZ_LESS (draw_less_stencil true)) 0
       = Some (c, cmd')
       /\ enable c = true.
Proof.
  repeat split. do 2 eexists. split; reflexivity.
Qed.

(** C8 as amended, at the same stencil state without depth write. *)
Lemma stencil_write_directive_witness :
  exists c cmd',
    tu6_calculate_lrz_state
      (cmd_in_pass true TU_LRZ_LESS (draw_less_stencil false)) 0
    = Some (c, cmd')
    /\ (enable c = true <->
        true = true /\ true = true /\ valid (cmd_lrz cmd') = false)
    /\ (enable c = true -> dir c = LRZ_DIR_INVALID)
    /\ (rb_z_write_enable
          (cmd_in_pass true TU_LRZ_LESS (draw_less_stencil false)) = false ->
        force_disable_lrz
          (cmd_in_pass true TU_LRZ_LESS (draw_less_stencil false)) = false ->
        enable c = false).
Proof.
  eassert (H : tu6_calculate_lrz_state
                 (cmd_in_pass true TU_LRZ_LESS (draw_less_stencil false)) 0
               = Some (_, _)) by reflexivity.
  do 2 eexists. split; [exact H |].
  apply (stencil_write_directive _ _ _ _ H eq_refl).
  left. split; reflexivity.
Defined.

(** C10 at a concrete pass. The depth attachment is neither cleared nor
    loaded and the device has GPU direction tracking. After
    [tu_lrz_begin_renderpass] the view is recorded and [valid] is false, but
    [gpu_dir_tracking] of the tracker is false as well. The tiling pass then
    starts with the buffer registers, a full clear of the LRZ buffer to the
    zero clear value and the dirtying of the fast-clear buffer; this is not
    the disable sequence of [tu6_disable_lrz_via_depth_view]. *)
Lemma unloaded_attachment_tiling_begin_clears :
  has_lrz_dir_tracking
    (tu_lrz_begin_renderpass (cmd_before_pass true 0 false) []) = true
  /\ image_view
       (cmd_lrz (tu_lrz_begin_renderpass (cmd_before_pass true 0 false) []))
     = Some sample_view
  /\ valid
       (cmd_lrz (tu_lrz_begin_renderpass (cmd_before_pass true 0 false) []))
     = false
  /\ gpu_dir_tracking
       (cmd_lrz (tu_lrz_begin_renderpass (cmd_before_pass true 0 false) []))
     = false
  /\ tu_lrz_tiling_begin
       (tu_lrz_begin_renderpass (cmd_before_pass true 0 false) []) []
     = [cs_regs_GRAS_LRZ_BUFFER 0x104000 128 0x108000;
        cs_clear_lrz sample_image VkClearValue_zero;
        cs_dirty_lrz_fc sample_image]
  /\ tu_lrz_tiling_begin
       (tu_lrz_begin_renderpass (cmd_before_pass true 0 false) []) []
     <> tu6_write_lrz_reg
          (tu_lrz_begin_renderpass (cmd_before_pass true 0 false) [])
          (tu6_disable_lrz_via_depth_view
             (tu_lrz_begin_renderpass (cmd_before_pass true 0 false) [])
             (tu6_emit_lrz_buffer [] (Some sample_image)))
          (GRAS_LRZ_DEPTH_VIEW_dword 0).
Proof.
  repeat split. cbv. discriminate.
Qed.

(** The sibling path: had the same tracker been invalidated by a draw, with
    [gpu_dir_tracking] set, the tiling pass would start with the disable
    sequence. *)
Lemma invalidated_tracker_tiling_begin_disables :
  tu_lrz_tiling_begin
    (set_lrz (cmd_before_pass true 0 true)
             (set_valid (sample_lrz true TU_LRZ_LESS) false)) []
  = [cs_regs_GRAS_LRZ_BUFFER 0x104000 128 0x108000;
     cs_pkt4 (GRAS_LRZ_DEPTH_VIEW 2047 2047 15);
     cs_pkt4 (GRAS_LRZ_CNTL
                (mkCNTL true false false false false false LRZ_DIR_0
                        false true));
     cs_event_write LRZ_CLEAR;
     cs_event_write LRZ_FLUSH;
     cs_pkt4 (GRAS_LRZ_DEPTH_VIEW_dword 0)].
Proof. reflexivity. Qed.

End Examples.

(** * Further properties of tu_lrz.c *)

Section Directive.
Context {hdr : tu_headers}.

(** ** What the rules do to the control word *)

Lemma set_lrz_write_same c : set_lrz_write c (lrz_write c) = c.
Proof. destruct c; reflexivity. Qed.

(** The blend rules only ever clear [lrz_write]. *)
Lemma lrz_write_blend_rules_eq cmd c :
  lrz_write_blend_rules cmd c
  = set_lrz_write c (lrz_write c && negb (blend_disables_lrz_write cmd)).
Proof.
  unfold lrz_write_blend_rules, blend_disables_lrz_write.
  destruct c as [en w g fc zt zb di dw dd].
  repeat match goal with
         | |- context [truthy ?x] =>
             destruct (truthy x); cbn [andb orb negb]
         end;
    repeat match goal with
           | |- context [if ?b then _ else _] =>
               destruct b; cbn [andb orb negb set_lrz_write lrz_write enable
                                greater fc_enable z_test_enable z_bounds_enable
                                dir dir_write disable_on_wrong_dir]
           end;
    rewrite ?andb_true_r, ?andb_false_r; reflexivity.
Qed.

(** A switch that raises neither flag saw a compare op with a direction. *)
Lemma depth_compare_op_switch_quiet op zw c d t dirn c1 :
  depth_compare_op_switch op zw c d t = Some (dirn, c1, false, false) ->
  d = false /\ t = false
  /\ ((dirn = TU_LRZ_GREATER
       /\ c1 = set_dir (set_greater c true) LRZ_DIR_GE
       /\ (op = VK_COMPARE_OP_GREATER \/ op = VK_COMPARE_OP_GREATER_OR_EQUAL))
      \/ (dirn = TU_LRZ_LESS
          /\ c1 = set_dir (set_greater c false) LRZ_DIR_LE
          /\ (op = VK_COMPARE_OP_LESS \/ op = VK_COMPARE_OP_LESS_OR_EQUAL))).
Proof.
  unfold depth_compare_op_switch. intros H.
  destruct ((op =? VK_COMPARE_OP_ALWAYS) || (op =? VK_COMPARE_OP_NOT_EQUAL)).
  { destruct zw; discriminate. }
  destruct ((op =? VK_COMPARE_OP_EQUAL) || (op =? VK_COMPARE_OP_NEVER)).
  { discriminate. }
  destruct ((op =? VK_COMPARE_OP_GREATER)
            || (op =? VK_COMPARE_OP_GREATER_OR_EQUAL)) eqn:Hg.
  { inversion H; subst. repeat split. left. repeat split.
    apply orb_true_iff in Hg as [Hg | Hg]; apply Z.eqb_eq in Hg; auto. }
  destruct ((op =? VK_COMPARE_OP_LESS)
            || (op =? VK_COMPARE_OP_LESS_OR_EQUAL)) eqn:Hl.
  { inversion H; subst. repeat split. right. repeat split.
    apply orb_true_iff in Hl as [Hl | Hl]; apply Z.eqb_eq in Hl; auto. }
  discriminate.
Qed.

Lemma tu_lrz_direction_eqb_eq x y :
  tu_lrz_direction_eqb x y = true <-> x = y.
Proof. destruct x, y; cbn; split; congruence. Qed.

(** A direction check that raises neither flag found the recorded direction
    unknown or equal to that of the draw. *)
Lemma direction_change_rule_quiet cmd dirn d t :
  direction_change_rule cmd dirn d t = (false, false) ->
  d = false /\ t = false
  /\ (prev_direction (cmd_lrz cmd) = TU_LRZ_UNKNOWN
      \/ dirn = TU_LRZ_UNKNOWN
      \/ prev_direction (cmd_lrz cmd) = dirn).
Proof.
  unfold direction_change_rule. intros H.
  destruct (prev_direction (cmd_lrz cmd)), dirn; cbn in H;
    try (destruct (rb_z_write_enable cmd); discriminate);
    inversion H; auto.
Qed.

(** A stencil rule that raises neither flag changed at most [lrz_write],
    and left it set only if the stencil test is off or both faces compare
    with ALWAYS and write nothing. *)
Lemma stencil_rule_quiet cmd c d t c3 :
  stencil_rule cmd c d t = (c3, false, false) ->
  d = false /\ t = false
  /\ (exists w, c3 = set_lrz_write c w
                /\ (w = true ->
                    lrz_write c = true
                    /\ (rb_stencil_test_enable cmd = true ->
                        rb_stencil_front_compare_op cmd = VK_COMPARE_OP_ALWAYS
                        /\ stencil_front_write (state cmd) = false
                        /\ rb_stencil_back_compare_op cmd = VK_COMPARE_OP_ALWAYS
                        /\ stencil_back_write (state cmd) = false))).
Proof.
  unfold stencil_rule, tu6_stencil_op_lrz_allowed. intros H.
  destruct d; cbn [negb andb] in H.
  { inversion H. }
  destruct (rb_stencil_test_enable cmd).
  2:{ inversion H; subst. repeat split. exists (lrz_write c3).
      rewrite set_lrz_write_same. split; [reflexivity |].
      intros Hw. split; [exact Hw | discriminate]. }
  destruct (rb_stencil_front_compare_op cmd =? VK_COMPARE_OP_ALWAYS) eqn:Hfa;
    destruct (rb_stencil_front_compare_op cmd =? VK_COMPARE_OP_NEVER) eqn:Hfn;
    destruct (stencil_front_write (state cmd));
    destruct (rb_stencil_back_compare_op cmd =? VK_COMPARE_OP_ALWAYS) eqn:Hba;
    destruct (rb_stencil_back_compare_op cmd =? VK_COMPARE_OP_NEVER) eqn:Hbn;
    destruct (stencil_back_write (state cmd));
    destruct (rb_z_write_enable cmd);
    cbn in H; inversion H; subst; repeat split;
    try (exists false; split; [reflexivity | discriminate]).
  all: exists (lrz_write c3); rewrite set_lrz_write_same;
    (split; [reflexivity |]); intros Hw; (split; [exact Hw |]); intros _;
    apply Z.eqb_eq in Hfa; apply Z.eqb_eq in Hba; auto.
Qed.

(** ** One call, start to end *)

(** A call past the early returns, with the command buffer it leaves written
    out. *)
Lemma calculate_considered_run cmd a c cmd' :
  valid (cmd_lrz cmd) = true ->
  lrz_draw_considered cmd a = true ->
  tu6_calculate_lrz_state cmd a = Some (c, cmd') ->
  exists d0 t0 dirn c1 d1 t1 d2 t2 c3 d3 t3,
    fs_rule cmd false false = (d0, t0)
    /\ depth_compare_op_switch (rb_depth_compare_op cmd)
         (rb_z_write_enable cmd)
         (lrz_write_blend_rules cmd (lrz_cntl_start cmd)) d0 t0
       = Some (dirn, c1, d1, t1)
    /\ direction_change_rule cmd dirn d1 t1 = (d2, t2)
    /\ stencil_rule cmd c1 d2 t2 = (c3, d3, t3)
    /\ cmd' = set_lrz cmd (lrz_state_after cmd dirn c3 d3 t3)
    /\ c = (if d3 && gpu_dir_tracking (cmd_lrz cmd)
            then set_dir (set_enable c3 true) LRZ_DIR_INVALID
            else if d3 || t3 || negb (enable c3)
                 then A6XX_GRAS_LRZ_CNTL_zero else c3).
Proof.
  intros Hv Hc H.
  unfold tu6_calculate_lrz_state in H. unfold lrz_draw_considered in Hc.
  rewrite Hv in H. cbn [negb] in H.
  apply andb_true_iff in Hc as [Hc1 Hc2].
  apply negb_true_iff in Hc1; apply negb_true_iff in Hc2.
  rewrite Hc1, Hc2 in H.
  fold (force_disable_write cmd) in H.
  fold (lrz_cntl_start cmd) in H.
  destruct (fs_rule cmd false false) as [d0 t0] eqn:Hfs.
  destruct (depth_compare_op_switch _ _ _ d0 t0)
    as [[[[dirn c1] d1] t1] |] eqn:Hsw; [| discriminate].
  destruct (direction_change_rule cmd dirn d1 t1) as [d2 t2] eqn:Hdc.
  destruct (stencil_rule cmd c1 d2 t2) as [[c3 d3] t3] eqn:Hst.
  exists d0, t0, dirn, c1, d1, t1, d2, t2, c3, d3, t3.
  repeat match goal with |- _ /\ _ => split; [assumption || reflexivity |] end.
  unfold lrz_state_after.
  destruct (rb_z_write_enable cmd && negb (tu_lrz_direction_eqb dirn TU_LRZ_UNKNOWN));
    destruct d3, (gpu_dir_tracking (cmd_lrz cmd)) eqn:Hg;
    cbn in H |- *; try rewrite Hg in H |- *; cbn in H |- *;
    try rewrite Hv in H |- *; cbn in H |- *;
    destruct t3; cbn in H |- *;
    try (destruct (enable c3); cbn in H |- *);
    inversion H; subst; auto.
Qed.

Lemma a6xx_lrz_dir_status_eq_dec (x y : a6xx_lrz_dir_status) :
  {x = y} + {x <> y}.
Proof. decide equality. Defined.

Lemma calculate_exit_cases cmd a c cmd' :
  tu6_calculate_lrz_state cmd a = Some (c, cmd') ->
  (c = A6XX_GRAS_LRZ_CNTL_zero /\ cmd' = cmd)
  \/ (valid (cmd_lrz cmd) = true /\ lrz_draw_considered cmd a = true).
Proof.
  intros H.
  destruct (valid (cmd_lrz cmd)) eqn:Hv.
  2:{ rewrite calculate_early_exit in H by auto. inversion H; auto. }
  destruct (lrz_draw_considered cmd a) eqn:Hc.
  2:{ rewrite calculate_early_exit in H by auto. inversion H; auto. }
  auto.
Qed.

(** An enabled control word other than the explicit invalidation: every rule
    stayed quiet, and the word is the starting word with the direction of the
    compare op and possibly [lrz_write] cleared. *)
Lemma calculate_active_run cmd a c cmd' :
  tu6_calculate_lrz_state cmd a = Some (c, cmd') ->
  lrz_active c ->
  valid (cmd_lrz cmd) = true
  /\ exists dirn w,
       (dirn = TU_LRZ_LESS
        /\ (rb_depth_compare_op cmd = VK_COMPARE_OP_LESS
            \/ rb_depth_compare_op cmd = VK_COMPARE_OP_LESS_OR_EQUAL)
        \/ dirn = TU_LRZ_GREATER
           /\ (rb_depth_compare_op cmd = VK_COMPARE_OP_GREATER
               \/ rb_depth_compare_op cmd = VK_COMPARE_OP_GREATER_OR_EQUAL))
       /\ (prev_direction (cmd_lrz cmd) = TU_LRZ_UNKNOWN
           \/ prev_direction (cmd_lrz cmd) = dirn)
       /\ c = set_lrz_write
                (set_dir (set_greater (lrz_cntl_start cmd)
                            (tu_lrz_direction_eqb dirn TU_LRZ_GREATER))
                         (dir_of_direction dirn)) w
       /\ (w = true ->
           lrz_write (lrz_cntl_start cmd) = true
           /\ blend_disables_lrz_write cmd = false
           /\ (rb_stencil_test_enable cmd = true ->
               rb_stencil_front_compare_op cmd = VK_COMPARE_OP_ALWAYS
               /\ stencil_front_write (state cmd) = false
               /\ rb_stencil_back_compare_op cmd = VK_COMPARE_OP_ALWAYS
               /\ stencil_back_write (state cmd) = false))
       /\ cmd' = set_lrz cmd
                   (set_enabled
                      (if rb_z_write_enable cmd
                       then set_prev_direction (cmd_lrz cmd) dirn
                       else cmd_lrz cmd) true).
Proof.
  intros H [Hen Hdir].
  destruct (calculate_exit_cases _ _ _ _ H) as [[-> _] | [Hv Hc]].
  { discriminate. }
  split; [exact Hv |].
  destruct (calculate_considered_run cmd a c cmd' Hv Hc H)
    as (d0 & t0 & dirn & c1 & d1 & t1 & d2 & t2 & c3 & d3 & t3
        & Hfs & Hsw & Hdc & Hst & Hcmd & Hcntl).
  assert (d3 = false /\ t3 = false) as [-> ->].
  { destruct d3, (gpu_dir_tracking (cmd_lrz cmd)), t3; cbn in Hcntl;
      subst c; cbn in *; try discriminate; try congruence;
      destruct (enable c3); cbn in *; auto; discriminate. }
  cbn in Hcntl.
  apply stencil_rule_quiet in Hst as (-> & -> & w & Hc3 & Hw).
  apply direction_change_rule_quiet in Hdc as (-> & -> & Hprev).
  apply depth_compare_op_switch_quiet in Hsw as (-> & -> & Hsw).
  rewrite lrz_write_blend_rules_eq in Hsw.
  assert (Hen3 : enable c3 = true).
  { destruct (enable c3) eqn:E; [reflexivity |].
    cbn in Hcntl. subst c. discriminate. }
  rewrite Hen3 in Hcntl. cbn in Hcntl. subst c.
  assert (Hknown : dirn <> TU_LRZ_UNKNOWN)
    by (destruct Hsw as [(-> & _) | (-> & _)]; discriminate).
  exists dirn, w. split.
  { destruct Hsw as [(-> & _ & Hop) | (-> & _ & Hop)]; auto. }
  split.
  { destruct Hprev as [Hp | [Hp | Hp]]; auto. contradiction. }
  split.
  { destruct Hsw as [(-> & -> & _) | (-> & -> & _)]; subst c3; reflexivity. }
  split.
  { intros ->. destruct (Hw eq_refl) as [Hw1 Hst].
    destruct Hsw as [(_ & -> & _) | (_ & -> & _)]; cbn in Hw1;
      apply andb_true_iff in Hw1 as [Hw0 Hb]; apply negb_true_iff in Hb;
      auto. }
  subst cmd'. unfold lrz_state_after. cbn [andb].
  rewrite Hen3.
  assert (Heq : tu_lrz_direction_eqb dirn TU_LRZ_UNKNOWN = false)
    by (destruct dirn; [contradiction | reflexivity | reflexivity]).
  rewrite Heq. cbn [negb]. rewrite andb_true_r.
  destruct (rb_z_write_enable cmd); cbn; rewrite Hv; reflexivity.
Qed.

(** ** The control words a draw can get *)

(** X1. Every control word the decision returns is of one of three kinds:
    the all-zero word; the explicit invalidation word, returned only when a
    tracker with GPU direction tracking goes from valid to invalid; or an
    enabled word. With an enabled word the tracker is valid afterwards and
    marked enabled, the word carries the tracker's fast-clear and tracking
    flags and the draw's depth-write and bounds flags, and its direction is
    that of the compare op (LE for LESS / LESS_OR_EQUAL, GE with [greater]
    for GREATER / GREATER_OR_EQUAL) and does not contradict the direction
    recorded before the draw. *)
Theorem control_word_cases cmd a c cmd' :
  tu6_calculate_lrz_state cmd a = Some (c, cmd') ->
  c = A6XX_GRAS_LRZ_CNTL_zero
  \/ (valid (cmd_lrz cmd) = true
      /\ gpu_dir_tracking (cmd_lrz cmd) = true
      /\ valid (cmd_lrz cmd') = false
      /\ enable c = true /\ dir c = LRZ_DIR_INVALID
      /\ disable_on_wrong_dir c = true)
  \/ (valid (cmd_lrz cmd') = true
      /\ enabled (cmd_lrz cmd') = true
      /\ enable c = true
      /\ fc_enable c = fast_clear (cmd_lrz cmd)
      /\ dir_write c = gpu_dir_tracking (cmd_lrz cmd)
      /\ disable_on_wrong_dir c = gpu_dir_tracking (cmd_lrz cmd)
      /\ z_test_enable c = rb_z_write_enable cmd
      /\ z_bounds_enable c = rb_z_bounds_enable cmd
      /\ ((dir c = LRZ_DIR_LE /\ greater c = false
           /\ (rb_depth_compare_op cmd = VK_COMPARE_OP_LESS
               \/ rb_depth_compare_op cmd = VK_COMPARE_OP_LESS_OR_EQUAL)
           /\ prev_direction (cmd_lrz cmd) <> TU_LRZ_GREATER)
          \/ (dir c = LRZ_DIR_GE /\ greater c = true
              /\ (rb_depth_compare_op cmd = VK_COMPARE_OP_GREATER
                  \/ rb_depth_compare_op cmd = VK_COMPARE_OP_GREATER_OR_EQUAL)
              /\ prev_direction (cmd_lrz cmd) <> TU_LRZ_LESS))).
Proof.
  intros H.
  destruct (enable c) eqn:Hen.
  2:{ left.
      destruct (calculate_exit_cases _ _ _ _ H) as [[-> _] | [Hv Hc]];
        [reflexivity |].
      destruct (calculate_considered_run cmd a c cmd' Hv Hc H)
        as (d0 & t0 & dirn & c1 & d1 & t1 & d2 & t2 & c3 & d3 & t3
            & _ & _ & _ & _ & _ & Hcntl).
      destruct (d3 && gpu_dir_tracking (cmd_lrz cmd));
        [subst c; discriminate |].
      destruct (d3 || t3 || negb (enable c3)) eqn:Hy; [exact Hcntl |].
      apply orb_false_iff in Hy as [_ Hy]. apply negb_false_iff in Hy.
      congruence. }
  destruct (a6xx_lrz_dir_status_eq_dec (dir c) LRZ_DIR_INVALID) as [Hd | Hd].
  - right. left.
    destruct (calculate_exit_cases _ _ _ _ H) as [[-> _] | [Hv Hc]];
      [discriminate |].
    destruct (calculate_considered_inv cmd a c cmd' Hv Hc H)
      as (c0 & d0 & t0 & dirn & c1 & d1 & t1 & d2 & t2 & c3 & d3 & t3
          & He0 & Hw0 & _ & Hsw & Hdc & Hst & Hvalid & _ & _ & _ & Hcntl).
    destruct (d3 && gpu_dir_tracking (cmd_lrz cmd)) eqn:Hx.
    + apply andb_true_iff in Hx as [-> Hg].
      apply depth_compare_op_switch_inv in Hsw as (_ & Hw1 & _).
      apply stencil_rule_inv in Hst as (_ & Hw3 & _).
      subst c. cbn. rewrite Hvalid. repeat split; auto. congruence.
    + exfalso.
      destruct (d3 || t3 || negb (enable c3)) eqn:Hy;
        [subst c; discriminate |].
      apply orb_false_iff in Hy as [Hy _]. apply orb_false_iff in Hy as [-> ->].
      subst c3.
      apply stencil_rule_quiet in Hst as (-> & -> & w & -> & _).
      apply direction_change_rule_quiet in Hdc as (-> & -> & _).
      apply depth_compare_op_switch_quiet in Hsw as (_ & _ & Hsw).
      destruct Hsw as [(_ & -> & _) | (_ & -> & _)]; discriminate.
  - right. right.
    destruct (calculate_active_run cmd a c cmd' H (conj Hen Hd))
      as (Hv & dirn & w & Hop & Hprev & -> & _ & ->).
    cbn.
    split; [destruct (rb_z_write_enable cmd); exact Hv |].
    do 7 (split; [reflexivity |]).
    destruct Hop as [(-> & Hop) | (-> & Hop)]; [left | right]; cbn;
      (split; [reflexivity |]); (split; [reflexivity |]);
      (split; [exact Hop |]);
      destruct Hprev as [-> | ->]; discriminate.
Qed.

Lemma depth_compare_op_switch_lrz_write op zw c d t dirn c1 d1 t1 :
  depth_compare_op_switch op zw c d t = Some (dirn, c1, d1, t1) ->
  lrz_write c1 = lrz_write c.
Proof.
  unfold depth_compare_op_switch. intros H.
  repeat match type of H with
         | context [if ?b then _ else _] => destruct b
         end; inversion H; subst; reflexivity.
Qed.

Lemma tu6_stencil_op_lrz_allowed_lrz_write c func w :
  lrz_write (snd (tu6_stencil_op_lrz_allowed c func w)) = true ->
  lrz_write c = true.
Proof.
  unfold tu6_stencil_op_lrz_allowed.
  destruct (func =? VK_COMPARE_OP_ALWAYS), (func =? VK_COMPARE_OP_NEVER), w;
    cbn; auto; discriminate.
Qed.

Lemma stencil_rule_lrz_write cmd c d t c3 d3 t3 :
  stencil_rule cmd c d t = (c3, d3, t3) ->
  lrz_write c3 = true -> lrz_write c = true.
Proof.
  unfold stencil_rule. intros H Hw.
  destruct (negb d && rb_stencil_test_enable cmd).
  2:{ inversion H; subst; exact Hw. }
  cbn iota in H.
  pose proof (tu6_stencil_op_lrz_allowed_lrz_write c
                (rb_stencil_front_compare_op cmd)
                (stencil_front_write (state cmd))) as Hf.
  destruct (tu6_stencil_op_lrz_allowed c _ _) as [al1 c1]. cbn [snd] in Hf.
  destruct al1.
  - pose proof (tu6_stencil_op_lrz_allowed_lrz_write c1
                  (rb_stencil_back_compare_op cmd)
                  (stencil_back_write (state cmd))) as Hb.
    destruct (tu6_stencil_op_lrz_allowed c1 _ _) as [al2 c2]. cbn [snd] in Hb.
    destruct al2, (rb_z_write_enable cmd); cbn in H; inversion H; subst; auto.
  - destruct (rb_z_write_enable cmd); cbn in H; inversion H; subst; auto.
Qed.

(** X2. LRZ write is only ever switched on together with the LRZ test, for a
    draw with depth write enabled whose pipeline does not set
    TU_LRZ_FORCE_DISABLE_WRITE and to which none of the blend rules (dynamic
    logic op reading the destination, dynamic blend enable, partial colour
    write mask, colour write enables) applies. In a word other than the
    explicit invalidation it moreover needs the stencil test off, or both
    faces comparing with ALWAYS and writing nothing. *)
Theorem lrz_write_conditions cmd a c cmd' :
  tu6_calculate_lrz_state cmd a = Some (c, cmd') ->
  lrz_write c = true ->
  enable c = true
  /\ rb_z_write_enable cmd = true
  /\ force_disable_write cmd = false
  /\ blend_disables_lrz_write cmd = false
  /\ (dir c <> LRZ_DIR_INVALID ->
      rb_stencil_test_enable cmd = true ->
      rb_stencil_front_compare_op cmd = VK_COMPARE_OP_ALWAYS
      /\ stencil_front_write (state cmd) = false
      /\ rb_stencil_back_compare_op cmd = VK_COMPARE_OP_ALWAYS
      /\ stencil_back_write (state cmd) = false).
Proof.
  intros H Hw.
  destruct (calculate_exit_cases _ _ _ _ H) as [[-> _] | [Hv Hc]];
    [discriminate |].
  destruct (calculate_considered_run cmd a c cmd' Hv Hc H)
    as (d0 & t0 & dirn & c1 & d1 & t1 & d2 & t2 & c3 & d3 & t3
        & _ & Hsw & _ & Hst & _ & Hcntl).
  assert (Hen : enable c = true /\ lrz_write c3 = true).
  { destruct (d3 && gpu_dir_tracking (cmd_lrz cmd)).
    - subst c. cbn in *. auto.
    - destruct (d3 || t3 || negb (enable c3)) eqn:Hy;
        [subst c; discriminate |].
      apply orb_false_iff in Hy as [_ Hy]. apply negb_false_iff in Hy.
      subst c. auto. }
  destruct Hen as [Hen Hw3].
  pose proof (stencil_rule_lrz_write _ _ _ _ _ _ _ Hst Hw3) as Hw1.
  rewrite (depth_compare_op_switch_lrz_write _ _ _ _ _ _ _ _ _ Hsw) in Hw1.
  rewrite lrz_write_blend_rules_eq in Hw1. cbn in Hw1.
  apply andb_true_iff in Hw1 as [Hw0 Hb]. apply negb_true_iff in Hb.
  apply andb_true_iff in Hw0 as [Hz Hf]. apply negb_true_iff in Hf.
  repeat (split; [assumption |]).
  intros Hdir Hsten.
  destruct (calculate_active_run cmd a c cmd' H (conj Hen Hdir))
    as (_ & dirn' & w & _ & _ & Hc' & Hwst & _).
  rewrite Hc' in Hw. cbn in Hw. subst w.
  destruct (Hwst eq_refl) as (_ & _ & Hs). exact (Hs Hsten).
Qed.

(** ** The recorded direction over a pass *)

(** One call: a recorded direction is never forgotten, and a call that leaves
    the tracker valid leaves a recorded direction as it was. *)
Lemma calculate_keeps_direction cmd a c cmd' :
  tu6_calculate_lrz_state cmd a = Some (c, cmd') ->
  prev_direction (cmd_lrz cmd) <> TU_LRZ_UNKNOWN ->
  prev_direction (cmd_lrz cmd') <> TU_LRZ_UNKNOWN
  /\ (valid (cmd_lrz cmd') = true ->
      prev_direction (cmd_lrz cmd') = prev_direction (cmd_lrz cmd)).
Proof.
  intros H Hk.
  destruct (calculate_exit_cases _ _ _ _ H) as [[_ ->] | [Hv Hc]]; [auto |].
  destruct (calculate_considered_inv cmd a c cmd' Hv Hc H)
    as (c0 & d0 & t0 & dirn & c1 & d1 & t1 & d2 & t2 & c3 & d3 & t3
        & _ & _ & _ & _ & Hdc & Hst & Hvalid & Hprev & _).
  rewrite Hprev, Hvalid. split.
  - destruct (rb_z_write_enable cmd), dirn; cbn; auto; discriminate.
  - intros Hd. apply negb_true_iff in Hd. subst d3.
    apply stencil_rule_inv in Hst as (_ & _ & Hd2 & _).
    destruct d2; [specialize (Hd2 eq_refl); discriminate |].
    unfold direction_change_rule in Hdc.
    destruct (rb_z_write_enable cmd); [| reflexivity].
    destruct (prev_direction (cmd_lrz cmd)), dirn; cbn in *;
      try reflexivity; try contradiction; discriminate.
Qed.

(** One call: an enabled control word has the recorded direction, when one
    is recorded. *)
Lemma calculate_active_direction cmd a c cmd' :
  tu6_calculate_lrz_state cmd a = Some (c, cmd') ->
  lrz_active c ->
  prev_direction (cmd_lrz cmd) <> TU_LRZ_UNKNOWN ->
  dir c = dir_of_direction (prev_direction (cmd_lrz cmd)).
Proof.
  intros H Hact Hk.
  destruct (calculate_active_run cmd a c cmd' H Hact)
    as (_ & dirn & w & _ & Hprev & -> & _).
  destruct Hprev as [Hp | Hp]; [contradiction |].
  rewrite Hp. reflexivity.
Qed.

Lemma calculate_valid_before cmd a c cmd' :
  tu6_calculate_lrz_state cmd a = Some (c, cmd') ->
  valid (cmd_lrz cmd') = true -> valid (cmd_lrz cmd) = true.
Proof.
  intros H Hv'.
  destruct (calculate_exit_cases _ _ _ _ H) as [[_ ->] | [Hv _]]; auto.
Qed.

Lemma draws_cons cmd d ds cntls cmd1 :
  draws cmd (d :: ds) = Some (cntls, cmd1) ->
  exists c cmd0 cntls0,
    tu6_calculate_lrz_state (bind_draw_state cmd d)
                            (depth_stencil_attachment (subpass d))
    = Some (c, cmd0)
    /\ draws cmd0 ds = Some (cntls0, cmd1)
    /\ cntls = c :: cntls0.
Proof.
  cbn [draws]. unfold draw. intros H.
  destruct (tu6_calculate_lrz_state _ _) as [[c cmd0] |]; [| discriminate].
  destruct (draws cmd0 ds) as [[cntls0 cmd2] |] eqn:Hr; [| discriminate].
  inversion H; subst. exists c, cmd0, cntls0. auto.
Qed.

(** A pass that ends with a valid tracker started with one. *)
Lemma draws_valid_before ds : forall cmd cntls cmd1,
  draws cmd ds = Some (cntls, cmd1) ->
  valid (cmd_lrz cmd1) = true -> valid (cmd_lrz cmd) = true.
Proof.
  induction ds as [| d ds IH]; intros cmd cntls cmd1 H Hv1.
  - cbn in H. inversion H; subst. exact Hv1.
  - apply draws_cons in H as (c & cmd0 & cntls0 & Hd & Hrest & _).
    apply calculate_valid_before in Hd; [exact Hd |].
    exact (IH _ _ _ Hrest Hv1).
Qed.

(** A pass in which some draw got an enabled control word started with a
    valid tracker. *)
Lemma draws_active_valid ds : forall cmd cntls cmd1 c,
  draws cmd ds = Some (cntls, cmd1) ->
  In c cntls -> lrz_active c -> valid (cmd_lrz cmd) = true.
Proof.
  induction ds as [| d ds IH]; intros cmd cntls cmd1 c H Hin Hact.
  - cbn in H. inversion H; subst. destruct Hin.
  - apply draws_cons in H as (c0 & cmd0 & cntls0 & Hd & Hrest & ->).
    destruct Hin as [<- | Hin].
    + destruct (calculate_active_run _ _ _ _ Hd Hact) as (Hv & _).
      exact Hv.
    + apply calculate_valid_before in Hd; [exact Hd |].
      exact (IH _ _ _ _ Hrest Hin Hact).
Qed.

(** With a recorded direction at the start, every enabled control word of
    the draws tests in that direction. *)
Lemma draws_active_direction ds : forall cmd cntls cmd1,
  draws cmd ds = Some (cntls, cmd1) ->
  prev_direction (cmd_lrz cmd) <> TU_LRZ_UNKNOWN ->
  forall c, In c cntls -> lrz_active c ->
  dir c = dir_of_direction (prev_direction (cmd_lrz cmd)).
Proof.
  induction ds as [| d ds IH]; intros cmd cntls cmd1 H Hk c Hin Hact.
  - cbn in H. inversion H; subst. destruct Hin.
  - apply draws_cons in H as (c0 & cmd0 & cntls0 & Hd & Hrest & ->).
    destruct (calculate_keeps_direction _ _ _ _ Hd Hk) as [Hk0 Hsame].
    destruct Hin as [<- | Hin].
    + exact (calculate_active_direction _ _ _ _ Hd Hact Hk).
    + rewrite (IH cmd0 cntls0 cmd1 Hrest Hk0 c Hin Hact). f_equal.
      apply Hsame. exact (draws_active_valid _ _ _ _ _ Hrest Hin Hact).
Qed.

(** X3. Over the draws of a pass, a recorded direction is never forgotten;
    as long as the tracker is valid it does not change; and every enabled
    control word (the explicit invalidation aside) tests in that
    direction. *)
Theorem recorded_direction_persists ds : forall cmd cntls cmd1,
  draws cmd ds = Some (cntls, cmd1) ->
  prev_direction (cmd_lrz cmd) <> TU_LRZ_UNKNOWN ->
  prev_direction (cmd_lrz cmd1) <> TU_LRZ_UNKNOWN
  /\ (valid (cmd_lrz cmd1) = true ->
      prev_direction (cmd_lrz cmd1) = prev_direction (cmd_lrz cmd))
  /\ (forall c, In c cntls -> lrz_active c ->
      dir c = dir_of_direction (prev_direction (cmd_lrz cmd))).
Proof.
  induction ds as [| d ds IH]; intros cmd cntls cmd1 H Hk.
  - cbn in H. inversion H; subst. repeat split; auto. intros c [].
  - pose proof (draws_active_direction _ _ _ _ H Hk) as Hdirs.
    apply draws_cons in H as (c0 & cmd0 & cntls0 & Hd & Hrest & ->).
    destruct (calculate_keeps_direction _ _ _ _ Hd Hk) as [Hk0 Hsame].
    destruct (IH cmd0 cntls0 cmd1 Hrest Hk0) as (Hk1 & Hsame1 & _).
    split; [exact Hk1 |]. split; [| exact Hdirs].
    intros Hv1. rewrite (Hsame1 Hv1). apply Hsame.
    exact (draws_valid_before _ _ _ _ Hrest Hv1).
Qed.

(** X4. Once a draw with depth write enabled has got an enabled control
    word, every enabled control word of the draws that follow in the pass has
    the same direction: the LRZ buffer is never tested against in the
    direction opposite to the one it was written in. *)
Theorem direction_locked_by_writing_draw cmd d c cmd1 ds cntls cmd2 :
  draw cmd d = Some (c, cmd1) ->
  lrz_active c ->
  z_test_enable c = true ->
  draws cmd1 ds = Some (cntls, cmd2) ->
  forall c', In c' cntls -> lrz_active c' -> dir c' = dir c.
Proof.
  unfold draw. intros Hd Hact Hz Hrest c' Hin Hact'.
  destruct (calculate_active_run _ _ _ _ Hd Hact)
    as (_ & dirn & w & Hop & _ & Hc & _ & Hcmd1).
  assert (Hzw : rb_z_write_enable (bind_draw_state cmd d) = true)
    by (rewrite Hc in Hz; exact Hz).
  rewrite Hzw in Hcmd1.
  assert (Hp1 : prev_direction (cmd_lrz cmd1) = dirn)
    by (rewrite Hcmd1; reflexivity).
  assert (Hk1 : prev_direction (cmd_lrz cmd1) <> TU_LRZ_UNKNOWN)
    by (rewrite Hp1; destruct Hop as [(-> & _) | (-> & _)]; discriminate).
  rewrite (draws_active_direction ds cmd1 cntls cmd2 Hrest Hk1 c' Hin Hact'),
    Hp1, Hc.
  reflexivity.
Qed.

(** ** Drawing again with the same state *)

Lemma color_write_mask_partial_set_lrz cmd l atts : forall i,
  color_write_mask_partial (set_lrz cmd l) atts i
  = color_write_mask_partial cmd atts i.
Proof.
  induction atts as [| a atts IH]; intros i; cbn [color_write_mask_partial].
  - reflexivity.
  - rewrite !IH. reflexivity.
Qed.

Lemma lrz_write_blend_rules_set_lrz cmd l c :
  lrz_write_blend_rules (set_lrz cmd l) c = lrz_write_blend_rules cmd c.
Proof.
  unfold lrz_write_blend_rules.
  rewrite color_write_mask_partial_set_lrz. reflexivity.
Qed.

(** The converse of [calculate_considered_run]: what the rules hand on
    determines the result. *)
Lemma calculate_considered_eval cmd a d0 t0 dirn c1 d1 t1 d2 t2 c3 d3 t3 :
  valid (cmd_lrz cmd) = true ->
  lrz_draw_considered cmd a = true ->
  fs_rule cmd false false = (d0, t0) ->
  depth_compare_op_switch (rb_depth_compare_op cmd) (rb_z_write_enable cmd)
    (lrz_write_blend_rules cmd (lrz_cntl_start cmd)) d0 t0
  = Some (dirn, c1, d1, t1) ->
  direction_change_rule cmd dirn d1 t1 = (d2, t2) ->
  stencil_rule cmd c1 d2 t2 = (c3, d3, t3) ->
  tu6_calculate_lrz_state cmd a
  = Some (if d3 && gpu_dir_tracking (cmd_lrz cmd)
          then set_dir (set_enable c3 true) LRZ_DIR_INVALID
          else if d3 || t3 || negb (enable c3)
               then A6XX_GRAS_LRZ_CNTL_zero else c3,
          set_lrz cmd (lrz_state_after cmd dirn c3 d3 t3)).
Proof.
  intros Hv Hc Hfs Hsw Hdc Hst.
  unfold tu6_calculate_lrz_state. unfold lrz_draw_considered in Hc.
  rewrite Hv. cbn [negb].
  apply andb_true_iff in Hc as [Hc1 Hc2].
  apply negb_true_iff in Hc1; apply negb_true_iff in Hc2.
  rewrite Hc1, Hc2.
  fold (force_disable_write cmd). fold (lrz_cntl_start cmd).
  rewrite Hfs, Hsw, Hdc, Hst.
  unfold lrz_state_after.
  destruct (rb_z_write_enable cmd && negb (tu_lrz_direction_eqb dirn TU_LRZ_UNKNOWN));
    destruct d3, (gpu_dir_tracking (cmd_lrz cmd)) eqn:Hg;
    cbn; try rewrite Hg; cbn; try rewrite Hv; cbn;
    destruct t3; cbn; try (destruct (enable c3); cbn); reflexivity.
Qed.

Lemma lrz_state_after_fields cmd dirn c3 d3 t3 :
  let l := lrz_state_after cmd dirn c3 d3 t3 in
  gpu_dir_tracking l = gpu_dir_tracking (cmd_lrz cmd)
  /\ fast_clear l = fast_clear (cmd_lrz cmd)
  /\ prev_direction l
     = (if rb_z_write_enable cmd
           && negb (tu_lrz_direction_eqb dirn TU_LRZ_UNKNOWN)
        then dirn else prev_direction (cmd_lrz cmd))
  /\ valid l = valid (cmd_lrz cmd) && negb d3.
Proof.
  unfold lrz_state_after.
  destruct (rb_z_write_enable cmd && negb (tu_lrz_direction_eqb dirn TU_LRZ_UNKNOWN)),
           d3, (gpu_dir_tracking (cmd_lrz cmd)) eqn:Hg;
    cbn; rewrite ?Hg; cbn; rewrite ?andb_true_r, ?andb_false_r; auto.
Qed.

(** X5. Drawing again with the same state is stable. If a call returned a
    control word and left the tracker valid, the same call on the command
    buffer it left returns the same control word and leaves that command
    buffer as it is; if it left the tracker invalid, the second call returns
    the all-zero word. *)
Theorem redraw_is_stable cmd a c cmd' :
  tu6_calculate_lrz_state cmd a = Some (c, cmd') ->
  tu6_calculate_lrz_state cmd' a
  = Some (if valid (cmd_lrz cmd') then c else A6XX_GRAS_LRZ_CNTL_zero, cmd').
Proof.
  intros H.
  destruct (calculate_exit_cases _ _ _ _ H) as [[-> ->] | [Hv Hc]].
  { rewrite H. destruct (valid (cmd_lrz cmd)); reflexivity. }
  destruct (valid (cmd_lrz cmd')) eqn:Hv'.
  2:{ apply calculate_early_exit. auto. }
  destruct (calculate_considered_run cmd a c cmd' Hv Hc H)
    as (d0 & t0 & dirn & c1 & d1 & t1 & d2 & t2 & c3 & d3 & t3
        & Hfs & Hsw & Hdc & Hst & Hcmd & Hcntl).
  pose proof (lrz_state_after_fields cmd dirn c3 d3 t3) as (Hg & Hfc & Hp & Hval).
  cbv zeta in Hg, Hfc, Hp, Hval.
  subst cmd'. rewrite cmd_lrz_set_lrz in Hv'.
  rewrite Hval, Hv in Hv'. cbn in Hv'. apply negb_true_iff in Hv'.
  subst d3. cbn [andb orb] in Hcntl.
  rewrite Hv in Hval. cbn in Hval.
  set (L := lrz_state_after cmd dirn c3 false t3) in *.
  (* the rules before the stencil rule did not ask for invalidation *)
  pose proof (stencil_rule_inv _ _ _ _ _ _ _ Hst) as (_ & _ & Hd2 & _).
  assert (d2 = false)
    by (destruct d2; [discriminate (Hd2 eq_refl) | reflexivity]).
  subst d2.
  pose proof (direction_change_rule_inv _ _ _ _ _ _ Hdc) as (Hd1 & _).
  assert (d1 = false)
    by (destruct d1; [discriminate (Hd1 eq_refl) | reflexivity]).
  subst d1.
  pose proof (depth_compare_op_switch_inv _ _ _ _ _ _ _ _ _ Hsw)
    as (_ & _ & Hd0 & _).
  assert (d0 = false)
    by (destruct d0; [discriminate (Hd0 eq_refl) | reflexivity]).
  subst d0.
  (* the same rules on the command buffer the call left *)
  assert (Hfs' : fs_rule (set_lrz cmd L) false false = (false, t0)).
  { rewrite fs_rule_eq in Hfs |- *. rewrite cmd_lrz_set_lrz, Hg, Hp.
    change (force_disable_lrz (set_lrz cmd L)) with (force_disable_lrz cmd).
    destruct (force_disable_lrz cmd), (gpu_dir_tracking (cmd_lrz cmd)),
             (prev_direction (cmd_lrz cmd)), (rb_z_write_enable cmd), dirn;
      cbn in *; congruence. }
  assert (Hstart : lrz_write_blend_rules (set_lrz cmd L)
                     (lrz_cntl_start (set_lrz cmd L))
                   = lrz_write_blend_rules cmd (lrz_cntl_start cmd)).
  { rewrite lrz_write_blend_rules_set_lrz. f_equal.
    unfold lrz_cntl_start. rewrite cmd_lrz_set_lrz, Hg, Hfc. reflexivity. }
  assert (Hsw' : depth_compare_op_switch (rb_depth_compare_op (set_lrz cmd L))
                   (rb_z_write_enable (set_lrz cmd L))
                   (lrz_write_blend_rules (set_lrz cmd L)
                      (lrz_cntl_start (set_lrz cmd L))) false t0
                 = Some (dirn, c1, false, t1)).
  { rewrite Hstart. exact Hsw. }
  assert (Hdc' : direction_change_rule (set_lrz cmd L) dirn false t1
                 = (false, t2)).
  { unfold direction_change_rule in Hdc |- *. rewrite cmd_lrz_set_lrz, Hp.
    change (rb_z_write_enable (set_lrz cmd L)) with (rb_z_write_enable cmd).
    destruct (rb_z_write_enable cmd), (prev_direction (cmd_lrz cmd)), dirn;
      cbn in *; congruence. }
  assert (Hst' : stencil_rule (set_lrz cmd L) c1 false t2 = (c3, false, t3))
    by exact Hst.
  assert (Hc' : lrz_draw_considered (set_lrz cmd L) a = true).
  { unfold lrz_draw_considered in Hc |- *. rewrite cmd_lrz_set_lrz, Hg.
    exact Hc. }
  assert (Hvl : valid (cmd_lrz (set_lrz cmd L)) = true)
    by (rewrite cmd_lrz_set_lrz; exact Hval).
  rewrite (calculate_considered_eval (set_lrz cmd L) a false t0 dirn c1 false
             t1 false t2 c3 false t3 Hvl Hc' Hfs' Hsw' Hdc' Hst').
  cbn [andb orb]. rewrite <- Hcntl. f_equal. f_equal.
  (* the tracker is left as it is *)
  change (set_lrz (set_lrz cmd L)
            (lrz_state_after (set_lrz cmd L) dirn c3 false t3))
    with (set_lrz cmd (lrz_state_after (set_lrz cmd L) dirn c3 false t3)).
  f_equal.
  unfold lrz_state_after at 1. rewrite cmd_lrz_set_lrz.
  change (rb_z_write_enable (set_lrz cmd L)) with (rb_z_write_enable cmd).
  subst L. unfold lrz_state_after. cbn [andb].
  destruct (rb_z_write_enable cmd && negb (tu_lrz_direction_eqb dirn TU_LRZ_UNKNOWN));
    cbn; rewrite ?Hv; cbn; reflexivity.
Qed.

(** X6. A mid-pass disable ends LRZ for the rest of the pass: after
    [tu_lrz_disable_during_renderpass] every draw runs and gets the all-zero
    control word, and the tracker stays as the disable left it, that is as it
    was before with [valid] cleared. *)
Theorem disable_during_renderpass_ends_lrz cmd ds :
  exists cmd',
    draws (tu_lrz_disable_during_renderpass cmd) ds
    = Some (map (fun _ => A6XX_GRAS_LRZ_CNTL_zero) ds, cmd')
    /\ cmd_lrz cmd' = set_valid (cmd_lrz cmd) false.
Proof.
  destruct (draws_invalid ds (tu_lrz_disable_during_renderpass cmd))
    as (cmd' & Hrun & Hl).
  { rewrite cmd_lrz_disable_during_renderpass. reflexivity. }
  exists cmd'. split; [exact Hrun |].
  rewrite Hl. apply cmd_lrz_disable_during_renderpass.
Qed.

End Directive.

(** ** Primary render passes *)

Section Primary.
Context {hdr : tu_headers}.

Lemma primary_tracker_ok_zero cmd :
  primary_tracker_ok (set_lrz cmd tu_lrz_state_zero).
Proof.
  unfold primary_tracker_ok. cbn. repeat split.
  - intros [H | [H | [H | H]]]; discriminate.
  - discriminate.
  - discriminate.
Qed.

Lemma tu_lrz_init_state_ok cmd att view :
  cmd_lrz cmd = tu_lrz_state_zero ->
  primary_tracker_ok (tu_lrz_init_state cmd att view).
Proof.
  intros Hz. unfold tu_lrz_init_state, primary_tracker_ok.
  destruct (truthy (lrz_height (image view))) eqn:Hh; cbn [negb].
  2:{ rewrite Hz. cbn. repeat split; try discriminate.
      intros [H | [H | [H | H]]]; discriminate. }
  destruct (has_lrz_dir_tracking cmd) eqn:Hg, (att_clears_depth att),
           (load att); cbn; rewrite ?Hz; cbn;
    repeat split; try discriminate; try congruence;
    try (intros [H | [H | [H | H]]]; discriminate).
Qed.

Lemma tu_lrz_begin_resumed_renderpass_ok cmd clear_values :
  primary_tracker_ok (tu_lrz_begin_resumed_renderpass cmd clear_values).
Proof.
  unfold tu_lrz_begin_resumed_renderpass.
  destruct (negb (Nat.eqb _ _)); [| apply primary_tracker_ok_zero].
  match goal with
  | |- context [tu_lrz_init_state ?c ?att ?v] =>
      pose proof (tu_lrz_init_state_ok c att v eq_refl) as Hinit;
      set (cmd1 := tu_lrz_init_state c att v) in *
  end.
  destruct (att_clears_depth _); [| exact Hinit].
  unfold primary_tracker_ok in *. cbn.
  destruct Hinit as (Hview & Hheight & Htrack).
  repeat split; auto.
  intros [H | [H | [H | H]]]; apply Hview; auto.
  apply andb_true_iff in H as [H _]. auto.
Qed.

Lemma disable_lrz_all_fields cmd n : forall a,
  has_lrz_dir_tracking (disable_lrz_all cmd n a) = has_lrz_dir_tracking cmd.
Proof.
  revert cmd. induction n as [| n IH]; intros cmd a; cbn [disable_lrz_all].
  - reflexivity.
  - rewrite IH. reflexivity.
Qed.

Lemma tu_lrz_begin_renderpass_ok cmd clear_values :
  primary_tracker_ok (tu_lrz_begin_renderpass cmd clear_values).
Proof.
  unfold tu_lrz_begin_renderpass.
  destruct (_ && _ && _); [apply primary_tracker_ok_zero |].
  pose proof (tu_lrz_begin_resumed_renderpass_ok cmd clear_values) as Hr.
  destruct (negb (valid _)); exact Hr.
Qed.

Lemma lrz_state_after_view cmd dirn c3 d3 t3 :
  let l := lrz_state_after cmd dirn c3 d3 t3 in
  image_view l = image_view (cmd_lrz cmd)
  /\ reuse_previous_state l = reuse_previous_state (cmd_lrz cmd)
  /\ depth_clear_value l = depth_clear_value (cmd_lrz cmd).
Proof.
  unfold lrz_state_after.
  destruct (rb_z_write_enable cmd && negb (tu_lrz_direction_eqb dirn TU_LRZ_UNKNOWN)),
           d3, (gpu_dir_tracking (cmd_lrz cmd)) eqn:Hg;
    cbn; rewrite ?Hg; cbn; auto.
Qed.

(** The invariant of a primary pass. *)
Lemma lrz_primary_reachable_ok cmd :
  lrz_primary_reachable cmd -> primary_tracker_ok cmd.
Proof.
  intros Hr.
  induction Hr as [cmd cv | cmd cv | cmd d Hr IH
                   | cmd a c cmd' Hr IH Hcall | cmd Hr IH].
  - apply tu_lrz_begin_renderpass_ok.
  - apply tu_lrz_begin_resumed_renderpass_ok.
  - exact IH.
  - destruct (calculate_exit_cases _ _ _ _ Hcall) as [[_ ->] | [Hv Hc]];
      [exact IH |].
    destruct (calculate_considered_run cmd a c cmd' Hv Hc Hcall)
      as (d0 & t0 & dirn & c1 & d1 & t1 & d2 & t2 & c3 & d3 & t3
          & _ & _ & _ & _ & -> & _).
    pose proof (lrz_state_after_fields cmd dirn c3 d3 t3) as (Hg & Hfc & _ & _).
    pose proof (lrz_state_after_view cmd dirn c3 d3 t3) as (Hview & Hreuse & _).
    cbv zeta in *.
    unfold primary_tracker_ok in *. rewrite cmd_lrz_set_lrz.
    rewrite Hg, Hfc, Hview, Hreuse.
    destruct IH as (IH1 & IH2 & IH3).
    split; [| split; assumption].
    intros H. apply IH1.
    destruct H as [H | H]; [left; exact Hv | right; exact H].
  - unfold primary_tracker_ok in *.
    rewrite cmd_lrz_disable_during_renderpass. cbn.
    destruct IH as (IH1 & IH2 & IH3).
    split; [| split; [exact IH2 |]].
    + intros [H | H]; [discriminate | apply IH1; auto].
    + intros Hg. specialize (IH3 Hg).
      unfold tu_lrz_disable_during_renderpass.
      destruct (gpu_dir_tracking _); exact IH3.
Qed.

(** X7. In a primary render pass, after either begin operation and any
    draws, rebindings and mid-pass disables, a tracker that is valid, or has
    fast clear, GPU direction tracking or reuse set, has its image view
    recorded; a recorded view is that of an image with an LRZ buffer; and
    the tracker tracks the direction on the GPU only on a device that can. *)
Theorem primary_tracker_has_view cmd :
  lrz_primary_reachable cmd ->
  (valid (cmd_lrz cmd) = true \/ fast_clear (cmd_lrz cmd) = true
   \/ gpu_dir_tracking (cmd_lrz cmd) = true
   \/ reuse_previous_state (cmd_lrz cmd) = true ->
   image_view (cmd_lrz cmd) <> None)
  /\ (forall view, image_view (cmd_lrz cmd) = Some view ->
      truthy (lrz_height (image view)) = true)
  /\ (gpu_dir_tracking (cmd_lrz cmd) = true -> has_lrz_dir_tracking cmd = true).
Proof.
  intros Hr. exact (lrz_primary_reachable_ok cmd Hr).
Qed.

(** X8. At the end of the tiling pass of a primary render pass
    [tu_lrz_tiling_end] always returns: the image view it reads is there
    whenever it reads it. It leaves the tracker alone, and what it adds to
    [cs] ends in LRZ_FLUSH and contains no clear. *)
Theorem tiling_end_primary cmd cs0 :
  lrz_primary_reachable cmd ->
  exists cmd' emitted,
    tu_lrz_tiling_end cmd cs0
    = Some (cmd', cs0 ++ emitted ++ [cs_event_write LRZ_FLUSH])
    /\ cmd_lrz cmd' = cmd_lrz cmd
    /\ existsb is_lrz_clear emitted = false.
Proof.
  intros Hr.
  destruct (lrz_primary_reachable_ok cmd Hr) as (Hview & _ & _).
  unfold tu_lrz_tiling_end.
  destruct (fast_clear (cmd_lrz cmd) || gpu_dir_tracking (cmd_lrz cmd)) eqn:Hx.
  - destruct (image_view (cmd_lrz cmd)) as [view |] eqn:Hiv.
    2:{ exfalso. apply Hview; [| reflexivity].
        apply orb_true_iff in Hx as [Hx | Hx]; auto. }
    match goal with
    | |- context [tu6_write_lrz_reg ?c (tu6_emit_lrz_buffer cs0 ?i) ?r] =>
        exists c;
        exists (tu6_write_lrz_reg c (tu6_emit_lrz_buffer [] i) r)
    end.
    split; [| split].
    + unfold tu6_emit_event_write, tu6_write_lrz_reg, tu6_emit_lrz_buffer.
      destruct (gpu_dir_tracking (cmd_lrz cmd)), (lrz_track_quirk cmd) eqn:Hq;
        cbn; rewrite ?Hq; cbn; rewrite <- ?app_assoc; reflexivity.
    + destruct (gpu_dir_tracking (cmd_lrz cmd)); reflexivity.
    + unfold tu6_write_lrz_reg, tu6_emit_lrz_buffer.
      destruct (gpu_dir_tracking (cmd_lrz cmd)), (lrz_track_quirk cmd) eqn:Hq;
        cbn; rewrite ?Hq; reflexivity.
  - exists cmd.
    exists (tu6_write_lrz_reg cmd [] (GRAS_LRZ_CNTL A6XX_GRAS_LRZ_CNTL_zero)).
    unfold tu6_emit_event_write, tu6_write_lrz_reg.
    destruct (lrz_track_quirk cmd); cbn; rewrite <- ?app_assoc;
      repeat split.
Qed.

(** ** From render-pass begin to the start of the tiling pass *)

(** The tracker [tu_lrz_begin_resumed_renderpass] leaves when the pass has
    an attachment with an LRZ buffer. *)
Lemma tu_lrz_begin_resumed_renderpass_lrz cmd clear_values :
  let count := attachment_count (pass (state cmd)) in
  let a := first_lrz_attachment cmd count 0 in
  let att := pass_attachment cmd a in
  let view := state_attachment cmd a in
  let clear := nth a clear_values VkClearValue_zero in
  a <> count ->
  cmd_lrz (tu_lrz_begin_resumed_renderpass cmd clear_values)
  = if negb (has_lrz_dir_tracking cmd) && negb (att_clears_depth att)
    then tu_lrz_state_zero
    else if negb (att_clears_depth att) && negb (load att)
         then set_image_view tu_lrz_state_zero (Some view)
         else
           {| image_view := Some view;
              depth_clear_value :=
                if att_clears_depth att then clear else VkClearValue_zero;
              valid := true;
              enabled := false;
              fast_clear :=
                (0 <? lrz_fc_size (image view))
                && (if att_clears_depth att then depth_is_0_or_1 clear else true);
              gpu_dir_tracking := has_lrz_dir_tracking cmd;
              reuse_previous_state := negb (att_clears_depth att);
              prev_direction := TU_LRZ_UNKNOWN |}.
Proof.
  intros count a att view clear Hne.
  unfold tu_lrz_begin_resumed_renderpass.
  rewrite first_lrz_attachment_set_lrz.
  change (attachment_count (pass (state (set_lrz cmd tu_lrz_state_zero))))
    with count.
  fold a.
  change (pass_attachment (set_lrz cmd tu_lrz_state_zero) a) with att.
  change (state_attachment (set_lrz cmd tu_lrz_state_zero) a) with view.
  apply Nat.eqb_neq in Hne. rewrite Hne. cbn [negb].
  pose proof (first_lrz_attachment_found cmd count 0) as Hfound.
  fold a in Hfound. apply Nat.eqb_neq in Hne. specialize (Hfound Hne).
  fold view in Hfound.
  unfold tu_lrz_init_state. rewrite Hfound. cbn [negb].
  change (has_lrz_dir_tracking (set_lrz cmd tu_lrz_state_zero))
    with (has_lrz_dir_tracking cmd).
  fold clear.
  destruct (has_lrz_dir_tracking cmd), (att_clears_depth att), (load att);
    cbn; rewrite ?andb_true_r; reflexivity.
Qed.

(** The start of the tiling pass reads the command buffer only through its
    tracker and [lrz_track_quirk]. *)
Lemma tu_lrz_tiling_begin_ext cmd1 cmd2 cs0 :
  cmd_lrz cmd1 = cmd_lrz cmd2 ->
  lrz_track_quirk cmd1 = lrz_track_quirk cmd2 ->
  tu_lrz_tiling_begin cmd1 cs0 = tu_lrz_tiling_begin cmd2 cs0.
Proof.
  intros Hl Hq.
  unfold tu_lrz_tiling_begin, tu6_disable_lrz_via_depth_view,
    tu6_write_lrz_reg, tu6_clear_lrz, tu6_dirty_lrz_fc, tu6_emit_event_write.
  rewrite Hl, Hq. reflexivity.
Qed.

Lemma tu_lrz_begin_resumed_renderpass_quirk cmd clear_values :
  lrz_track_quirk (tu_lrz_begin_resumed_renderpass cmd clear_values)
  = lrz_track_quirk cmd.
Proof.
  unfold tu_lrz_begin_resumed_renderpass, tu_lrz_init_state.
  repeat match goal with
         | |- context [if ?b then _ else _] => destruct b
         end; reflexivity.
Qed.

(** Outside the case of several subpasses with several LRZ images, the
    tiling pass after [tu_lrz_begin_renderpass] starts as after
    [tu_lrz_begin_resumed_renderpass]. *)
Lemma tu_lrz_tiling_begin_after_begin cmd clear_values cs0 :
  has_lrz_dir_tracking cmd
  && (1 <? subpass_count (pass (state cmd)))
  && (1 <? count_lrz_images cmd (attachment_count (pass (state cmd))) 0)
  = false ->
  tu_lrz_tiling_begin (tu_lrz_begin_renderpass cmd clear_values) cs0
  = tu_lrz_tiling_begin
      (set_lrz cmd (cmd_lrz (tu_lrz_begin_resumed_renderpass cmd clear_values)))
      cs0.
Proof.
  intros Hmulti. apply tu_lrz_tiling_begin_ext.
  - unfold tu_lrz_begin_renderpass. rewrite Hmulti.
    destruct (negb (valid _)); reflexivity.
  - unfold tu_lrz_begin_renderpass. rewrite Hmulti.
    destruct (negb (valid _)); cbn;
      apply tu_lrz_begin_resumed_renderpass_quirk.
Qed.

(** X9. A pass that loads its depth attachment without clearing it, on a
    device with GPU direction tracking, reuses the LRZ contents of the
    previous pass: its tiling pass starts with the buffer registers and the
    depth view of the attachment and nothing else, in particular no clear. *)
Theorem tiling_begin_reuses_loaded_depth cmd clear_values cs0 :
  let count := attachment_count (pass (state cmd)) in
  let a := first_lrz_attachment cmd count 0 in
  let att := pass_attachment cmd a in
  let view := state_attachment cmd a in
  a <> count ->
  has_lrz_dir_tracking cmd = true ->
  (1 <? subpass_count (pass (state cmd))) && (1 <? count_lrz_images cmd count 0)
  = false ->
  att_clears_depth att = false ->
  load att = true ->
  tu_lrz_tiling_begin (tu_lrz_begin_renderpass cmd clear_values) cs0
  = tu6_write_lrz_reg cmd
      (tu6_emit_lrz_buffer cs0 (Some (image view)))
      (GRAS_LRZ_DEPTH_VIEW_dword (view_GRAS_LRZ_DEPTH_VIEW view)).
Proof.
  intros count a att view Hne Hg Hmulti Hclr Hload.
  rewrite tu_lrz_tiling_begin_after_begin
    by (rewrite Hg; exact Hmulti).
  rewrite (tu_lrz_begin_resumed_renderpass_lrz cmd clear_values Hne).
  fold count a att view. rewrite Hg, Hclr, Hload. cbn [negb andb].
  reflexivity.
Qed.


(** ** Sysmem rendering and clears outside a render pass *)

(** X11. Sysmem rendering on a device with GPU direction tracking disables
    LRZ whatever the tracker says: in a primary pass with a recorded image
    view, [tu_lrz_sysmem_begin] emits the buffer registers, the disable
    sequence of [tu6_disable_lrz_via_depth_view] and a zero depth view, and
    leaves the command buffer as it is. *)
Theorem sysmem_begin_disables cmd cs0 view :
  lrz_primary_reachable cmd ->
  has_lrz_dir_tracking cmd = true ->
  image_view (cmd_lrz cmd) = Some view ->
  tu_lrz_sysmem_begin cmd cs0
  = (cmd,
     tu6_write_lrz_reg cmd
       (tu6_disable_lrz_via_depth_view cmd
          (tu6_emit_lrz_buffer cs0 (Some (image view))))
       (GRAS_LRZ_DEPTH_VIEW_dword 0)).
Proof.
  intros Hr Hg Hview.
  destruct (lrz_primary_reachable_ok cmd Hr) as (_ & Hheight & _).
  unfold tu_lrz_sysmem_begin, tu_disable_lrz.
  rewrite Hview, Hg, (Hheight view Hview). reflexivity.
Qed.

End Primary.

Section ClearDepthImageProperties.
Variable vk_image_subresource_layer_count :
  tu_image -> VkImageSubresourceRange -> Z.

Lemma first_depth_range_clears pRanges r :
  first_depth_range pRanges = Some r -> range_clears_depth r = true.
Proof.
  induction pRanges as [| r0 rest IH]; cbn; [discriminate |].
  destruct (range_clears_depth r0) eqn:Hr0; [| exact IH].
  intros H. inversion H; subst. exact Hr0.
Qed.

Lemma first_depth_range_skip pre rest :
  forallb (fun r => negb (range_clears_depth r)) pre = true ->
  first_depth_range (pre ++ rest) = first_depth_range rest.
Proof.
  induction pre as [| r pre IH]; cbn; [reflexivity |].
  intros H. apply andb_true_iff in H as [Hr Hpre].
  apply negb_true_iff in Hr. rewrite Hr. exact (IH Hpre).
Qed.

(** X12. A depth clear outside a render pass looks at one range only, the
    first with the depth or colour aspect: the ranges before it (stencil
    only) and all ranges after it make no difference, and if no range has
    the aspect nothing is emitted. *)
Theorem clear_depth_image_first_range cmd img value pre r rest :
  forallb (fun r => negb (range_clears_depth r)) pre = true ->
  range_clears_depth r = true ->
  tu_lrz_clear_depth_image vk_image_subresource_layer_count cmd img value
    (pre ++ r :: rest)
  = tu_lrz_clear_depth_image vk_image_subresource_layer_count cmd img value [r]
  /\ tu_lrz_clear_depth_image vk_image_subresource_layer_count cmd img value pre
     = cmd.
Proof.
  intros Hpre Hr. unfold tu_lrz_clear_depth_image. split.
  - rewrite (first_depth_range_skip pre (r :: rest) Hpre).
    cbn [first_depth_range]. rewrite Hr.
    replace (truthy (Z.of_nat (length (pre ++ r :: rest)))) with true.
    + reflexivity.
    + symmetry. unfold truthy. apply negb_true_iff, Z.eqb_neq.
      rewrite length_app. cbn [length]. lia.
  - destruct (_ || _ || _); [reflexivity |].
    rewrite <- (app_nil_r pre), (first_depth_range_skip pre [] Hpre).
    reflexivity.
Qed.

End ClearDepthImageProperties.

(** ** Concrete runs of the further properties *)

Section MoreExamples.
#[local] Existing Instance a6xx_headers.

(** Evaluates the call or the pass of the goal, naming its result [c] and
    [cmd'] and keeping the equation as [H]. *)
Ltac run_concrete t c cmd' H :=
  destruct t as [[c cmd'] |] eqn:H;
  [ let Hn := fresh "Hn" in
    pose proof H as Hn; vm_compute in Hn; injection Hn as <- <-
  | vm_compute in H; discriminate H ].

(** X1 at a draw with compare op LESS and depth write on a tracker without
    a recorded direction. *)
Lemma control_word_cases_witness :
  exists c cmd',
    tu6_calculate_lrz_state (cmd_in_pass true TU_LRZ_UNKNOWN (draw_less true)) 0
    = Some (c, cmd')
    /\ enable c = true /\ dir c = LRZ_DIR_LE /\ lrz_write c = true
    /\ prev_direction (cmd_lrz cmd') = TU_LRZ_LESS.
Proof.
  run_concrete (tu6_calculate_lrz_state
                  (cmd_in_pass true TU_LRZ_UNKNOWN (draw_less true)) 0)
               c cmd' H.
  do 2 eexists. split; [reflexivity |].
  destruct (control_word_cases _ _ _ _ H) as [Hz | [Hx | Ha]].
  - discriminate Hz.
  - destruct Hx as (_ & _ & Hv & _). discriminate Hv.
  - repeat split.
Defined.

(** X2 at the same draw. *)
Lemma lrz_write_conditions_witness :
  exists c cmd',
    tu6_calculate_lrz_state (cmd_in_pass true TU_LRZ_UNKNOWN (draw_less true)) 0
    = Some (c, cmd')
    /\ lrz_write c = true
    /\ rb_z_write_enable (cmd_in_pass true TU_LRZ_UNKNOWN (draw_less true))
       = true
    /\ blend_disables_lrz_write
         (cmd_in_pass true TU_LRZ_UNKNOWN (draw_less true)) = false.
Proof.
  run_concrete (tu6_calculate_lrz_state
                  (cmd_in_pass true TU_LRZ_UNKNOWN (draw_less true)) 0)
               c cmd' H.
  do 2 eexists. split; [reflexivity |]. split; [reflexivity |].
  destruct (lrz_write_conditions _ _ _ _ H eq_refl) as (_ & Hz & _ & Hb & _).
  split; [exact Hz | exact Hb].
Defined.

(** X3 at a pass on a tracker with recorded direction LESS: a draw with
    LESS, one with EQUAL, one with LESS again. *)
Lemma recorded_direction_persists_witness :
  exists cntls cmd1,
    draws (cmd_in_pass true TU_LRZ_LESS (draw_less true))
          [draw_less true;
           sample_draw 0 (sample_depth_cntl false VK_COMPARE_OP_EQUAL) 0
                       false false;
           draw_less false]
    = Some (cntls, cmd1)
    /\ prev_direction (cmd_lrz cmd1) = TU_LRZ_LESS
    /\ (forall c, In c cntls -> lrz_active c -> dir c = LRZ_DIR_LE).
Proof.
  run_concrete (draws (cmd_in_pass true TU_LRZ_LESS (draw_less true))
                  [draw_less true;
                   sample_draw 0 (sample_depth_cntl false VK_COMPARE_OP_EQUAL)
                               0 false false;
                   draw_less false])
               cntls cmd1 H.
  do 2 eexists. split; [reflexivity |].
  assert (Hk : prev_direction
                 (cmd_lrz (cmd_in_pass true TU_LRZ_LESS (draw_less true)))
               <> TU_LRZ_UNKNOWN) by discriminate.
  destruct (recorded_direction_persists _ _ _ _ H Hk) as (_ & Hsame & Hdirs).
  split; [exact (Hsame eq_refl) | exact Hdirs].
Defined.

(** X4 at a pass that starts without a recorded direction: the first draw
    writes depth with LESS, a later draw with GREATER and no depth write
    gets the all-zero word. *)
Lemma direction_locked_by_writing_draw_witness :
  exists c cmd1,
    draw (cmd_in_pass true TU_LRZ_UNKNOWN (draw_less true)) (draw_less true)
    = Some (c, cmd1)
    /\ exists cntls cmd2,
         draws cmd1 [draw_greater false; draw_less false] = Some (cntls, cmd2)
         /\ (forall c', In c' cntls -> lrz_active c' -> dir c' = dir c).
Proof.
  run_concrete (draw (cmd_in_pass true TU_LRZ_UNKNOWN (draw_less true))
                     (draw_less true)) c cmd1 H.
  do 2 eexists. split; [reflexivity |].
  match goal with
  | |- context [draws ?cmd1 ?ds] => run_concrete (draws cmd1 ds) cntls cmd2 H2
  end.
  do 2 eexists. split; [reflexivity |].
  eapply direction_locked_by_writing_draw; [exact H | | reflexivity | exact H2].
  split; [reflexivity | discriminate].
Defined.

(** X5 at a draw with compare op LESS and depth write. *)
Lemma redraw_is_stable_witness :
  exists c cmd',
    tu6_calculate_lrz_state (cmd_in_pass true TU_LRZ_UNKNOWN (draw_less true)) 0
    = Some (c, cmd')
    /\ tu6_calculate_lrz_state cmd' 0 = Some (c, cmd').
Proof.
  run_concrete (tu6_calculate_lrz_state
                  (cmd_in_pass true TU_LRZ_UNKNOWN (draw_less true)) 0)
               c cmd' H.
  do 2 eexists. split; [reflexivity |].
  exact (redraw_is_stable _ _ _ _ H).
Defined.

(** X7 and X8 after the begin of a pass that clears its depth attachment to
    1.0 and one draw. *)
Lemma primary_tracker_has_view_witness :
  lrz_primary_reachable
    (tu_lrz_begin_renderpass
       (cmd_before_pass true VK_IMAGE_ASPECT_DEPTH_BIT false)
       [mkVkClearValue 1%float 0])
  /\ image_view
       (cmd_lrz (tu_lrz_begin_renderpass
                   (cmd_before_pass true VK_IMAGE_ASPECT_DEPTH_BIT false)
                   [mkVkClearValue 1%float 0]))
     <> None.
Proof.
  refine ((fun Hr => conj Hr _) (primary_begin_renderpass _ _)).
  destruct (primary_tracker_has_view _ Hr) as (Hview & _).
  apply Hview. left. reflexivity.
Defined.

Lemma tiling_end_primary_witness :
  exists cmd' emitted,
    tu_lrz_tiling_end
      (tu_lrz_begin_renderpass
         (cmd_before_pass true VK_IMAGE_ASPECT_DEPTH_BIT false)
         [mkVkClearValue 1%float 0]) []
    = Some (cmd', [] ++ emitted ++ [cs_event_write LRZ_FLUSH])
    /\ cmd_lrz cmd'
       = cmd_lrz (tu_lrz_begin_renderpass
                    (cmd_before_pass true VK_IMAGE_ASPECT_DEPTH_BIT false)
                    [mkVkClearValue 1%float 0])
    /\ existsb is_lrz_clear emitted = false.
Proof.
  apply tiling_end_primary. apply primary_begin_renderpass.
Defined.

(** In a secondary command buffer the tracker has GPU direction tracking and
    no image view: [tu_lrz_tiling_end], which is not meant for it, fails
    there. *)
Lemma tiling_end_secondary_fails :
  tu_lrz_tiling_end
    (tu_lrz_begin_secondary_cmdbuf (cmd_before_pass true 0 true)) [] = None.
Proof. reflexivity. Qed.

(** X9 at a pass that loads its depth attachment. *)
Lemma tiling_begin_reuses_loaded_depth_witness :
  first_lrz_attachment (cmd_before_pass true 0 true) 1 0 <> 1%nat
  /\ tu_lrz_tiling_begin
       (tu_lrz_begin_renderpass (cmd_before_pass true 0 true) []) []
     = [cs_regs_GRAS_LRZ_BUFFER 0x104000 128 0x108000;
        cs_pkt4 (GRAS_LRZ_DEPTH_VIEW_dword 0x10000)].
Proof.
  assert (Hne : first_lrz_attachment (cmd_before_pass true 0 true) 1 0
                <> 1%nat) by discriminate.
  split; [exact Hne |].
  exact (tiling_begin_reuses_loaded_depth (cmd_before_pass true 0 true) [] []
           Hne eq_refl eq_refl eq_refl eq_refl).
Defined.


(** X11 after the begin of a pass that loads its depth attachment. *)
Lemma sysmem_begin_disables_witness :
  snd (tu_lrz_sysmem_begin
         (tu_lrz_begin_renderpass (cmd_before_pass true 0 true) []) [])
  = [cs_regs_GRAS_LRZ_BUFFER 0x104000 128 0x108000;
     cs_pkt4 (GRAS_LRZ_DEPTH_VIEW 2047 2047 15);
     cs_pkt4 (GRAS_LRZ_CNTL
                (mkCNTL true false false false false false LRZ_DIR_0
                        false true));
     cs_event_write LRZ_CLEAR;
     cs_event_write LRZ_FLUSH;
     cs_pkt4 (GRAS_LRZ_DEPTH_VIEW_dword 0)].
Proof.
  rewrite (sysmem_begin_disables
             (tu_lrz_begin_renderpass (cmd_before_pass true 0 true) []) []
             sample_view (primary_begin_renderpass _ _) eq_refl eq_refl).
  reflexivity.
Defined.

(** X12 at a clear of a stencil range followed by two depth ranges. *)
Lemma clear_depth_image_first_range_witness :
  tu_lrz_clear_depth_image (fun _ r => layerCount r)
    (cmd_before_pass true 0 true) sample_image (mkVkClearValue 1%float 0)
    ([mkRange 4 0 1 0 1] ++ mkRange 2 1 1 2 3 :: [mkRange 2 0 1 0 1])
  = tu_lrz_clear_depth_image (fun _ r => layerCount r)
      (cmd_before_pass true 0 true) sample_image (mkVkClearValue 1%float 0)
      [mkRange 2 1 1 2 3]
  /\ tu_lrz_clear_depth_image (fun _ r => layerCount r)
       (cmd_before_pass true 0 true) sample_image (mkVkClearValue 1%float 0)
       [mkRange 4 0 1 0 1]
     = cmd_before_pass true 0 true.
Proof.
  apply clear_depth_image_first_range; reflexivity.
Defined.

End MoreExamples.

(** * Secondary command buffers *)

Section Secondary.
Context {hdr : tu_headers}.

Lemma tu_lrz_begin_secondary_cmdbuf_ok cmd :
  secondary_tracker_ok (tu_lrz_begin_secondary_cmdbuf cmd).
Proof.
  unfold tu_lrz_begin_secondary_cmdbuf, tu_lrz_init_secondary,
    secondary_tracker_ok.
  destruct (negb (_ =? VK_ATTACHMENT_UNUSED)); cbn;
    [| repeat split; discriminate].
  destruct (has_lrz_dir_tracking cmd) eqn:Hg; cbn;
    [| repeat split; discriminate].
  destruct (truthy _); cbn; [repeat split; discriminate |].
  destruct (vk_format_has_depth _); cbn; repeat split; auto; discriminate.
Qed.

(** X25. In a secondary command buffer, after
    [tu_lrz_begin_secondary_cmdbuf] and any draws, rebindings and mid-pass
    disables, the tracker never has an image view and never asks to reuse
    the previous state; fast clear is assumed exactly when the direction is
    tracked on the GPU; and a valid tracker tracks the direction on the
    GPU, which only happens on a device that can. *)
Theorem secondary_tracker_optimistic cmd :
  lrz_secondary_reachable cmd ->
  image_view (cmd_lrz cmd) = None
  /\ reuse_previous_state (cmd_lrz cmd) = false
  /\ fast_clear (cmd_lrz cmd) = gpu_dir_tracking (cmd_lrz cmd)
  /\ (valid (cmd_lrz cmd) = true -> gpu_dir_tracking (cmd_lrz cmd) = true)
  /\ (gpu_dir_tracking (cmd_lrz cmd) = true ->
      has_lrz_dir_tracking cmd = true).
Proof.
  intros Hr. change (secondary_tracker_ok cmd).
  induction Hr as [cmd | cmd d Hr IH | cmd a c cmd' Hr IH Hcall | cmd Hr IH].
  - apply tu_lrz_begin_secondary_cmdbuf_ok.
  - exact IH.
  - destruct (calculate_exit_cases _ _ _ _ Hcall) as [[_ ->] | [Hv Hc]];
      [exact IH |].
    destruct (calculate_considered_run cmd a c cmd' Hv Hc Hcall)
      as (d0 & t0 & dirn & c1 & d1 & t1 & d2 & t2 & c3 & d3 & t3
          & _ & _ & _ & _ & -> & _).
    pose proof (lrz_state_after_fields cmd dirn c3 d3 t3) as (Hg & Hfc & _ & _).
    pose proof (lrz_state_after_view cmd dirn c3 d3 t3) as (Hview & Hreuse & _).
    cbv zeta in *.
    unfold secondary_tracker_ok in *. rewrite cmd_lrz_set_lrz.
    rewrite Hg, Hfc, Hview, Hreuse.
    destruct IH as (IH1 & IH2 & IH3 & IH4 & IH5).
    repeat split; auto.
  - unfold secondary_tracker_ok in *.
    rewrite cmd_lrz_disable_during_renderpass. cbn.
    destruct IH as (IH1 & IH2 & IH3 & IH4 & IH5).
    repeat split; auto; try discriminate.
    intros Hg. specialize (IH5 Hg).
    unfold tu_lrz_disable_during_renderpass.
    destruct (gpu_dir_tracking _); exact IH5.
Qed.

End Secondary.

Section SecondaryExamples.
#[local] Existing Instance a6xx_headers.

(** X25 at the begin of a secondary command buffer on a device with GPU
    direction tracking and a depth attachment: the tracker is valid and
    assumes fast clear without an image. *)
Lemma secondary_tracker_optimistic_witness :
  lrz_secondary_reachable
    (tu_lrz_begin_secondary_cmdbuf
       (cmd_before_pass true VK_IMAGE_ASPECT_DEPTH_BIT false))
  /\ valid (cmd_lrz (tu_lrz_begin_secondary_cmdbuf
                       (cmd_before_pass true VK_IMAGE_ASPECT_DEPTH_BIT false)))
     = true
  /\ fast_clear (cmd_lrz (tu_lrz_begin_secondary_cmdbuf
                            (cmd_before_pass true VK_IMAGE_ASPECT_DEPTH_BIT
                                             false)))
     = true.
Proof.
  refine ((fun Hr => conj Hr _) (secondary_begin _)).
  destruct (secondary_tracker_optimistic _ Hr) as (_ & _ & Hfc & Hv & _).
  split; [reflexivity |].
  rewrite Hfc. apply Hv. reflexivity.
Defined.

End SecondaryExamples.

(** * Properties of u_debug.c *)

Section DebugOptions.

(** ** Strings *)

Lemma cstring_eqb_eq a : forall b, cstring_eqb a b = true <-> a = b.
Proof.
  induction a as [| x a IH]; intros [| y b]; cbn; split;
    try congruence; try discriminate; auto.
  - intros H. apply andb_true_iff in H as [Hx Ha].
    apply Ascii.eqb_eq in Hx. apply IH in Ha. congruence.
  - intros H. inversion H; subst.
    apply andb_true_iff. split; [apply Ascii.eqb_refl | apply IH; reflexivity].
Qed.

Lemma cstring_eqb_refl a : cstring_eqb a a = true.
Proof. apply cstring_eqb_eq. reflexivity. Qed.

Lemma cstring_eqb_neq a b : cstring_eqb a b = false <-> a <> b.
Proof.
  split.
  - intros H Heq. apply cstring_eqb_eq in Heq. congruence.
  - intros H. destruct (cstring_eqb a b) eqn:E; [| reflexivity].
    apply cstring_eqb_eq in E. contradiction.
Qed.

Lemma existsb_cstring_eqb name l :
  existsb (cstring_eqb name) l = true <-> In name l.
Proof.
  rewrite existsb_exists. split.
  - intros (x & Hin & Heq). apply cstring_eqb_eq in Heq. subst. exact Hin.
  - intros Hin. exists name. split; [exact Hin | apply cstring_eqb_refl].
Qed.

Lemma fields_not_nil delim s : fields delim s <> [].
Proof.
  destruct s as [| c s]; cbn; [discriminate |].
  destruct (delim c); [discriminate |].
  destruct (fields delim s); discriminate.
Qed.

(** [strcspn] cuts the string at its first delimiter. *)
Lemma strcspn_split reject s :
  let n := strcspn s reject in
  (n <= length s)%nat
  /\ forallb (fun c => negb (char_in reject c)) (firstn n s) = true
  /\ (skipn n s = []
      \/ exists d rest, skipn n s = d :: rest /\ char_in reject d = true)
  /\ fields (char_in reject) s
     = match skipn n s with
       | [] => [firstn n s]
       | _ :: rest => firstn n s :: fields (char_in reject) rest
       end.
Proof.
  induction s as [| c s IH]; cbn.
  - repeat split; auto.
  - destruct (char_in reject c) eqn:Hc; cbn.
    + repeat split; try lia. right. eauto.
    + destruct IH as (Hle & Hclean & Hrest & Hfields).
      rewrite Hc. cbn. repeat split; try lia; auto.
      rewrite Hfields. destruct (skipn (strcspn s reject) s); reflexivity.
Qed.

(** The test of the parsing loops: the entry's string against the [n] bytes
    at [s]. *)
Lemma token_test name s n :
  (n <= length s)%nat ->
  (length name =? n)%nat && strncmp_eq name s n = cstring_eqb name (firstn n s).
Proof.
  intros Hn. unfold strncmp_eq.
  destruct (length name =? n)%nat eqn:Hl; cbn.
  - apply Nat.eqb_eq in Hl. subst n. rewrite firstn_all. reflexivity.
  - symmetry. apply cstring_eqb_neq. intros ->.
    apply Nat.eqb_neq in Hl. apply Hl. rewrite length_firstn. lia.
Qed.

(** ** [str_has_option] *)

Lemma str_has_option_loop_spec name str : forall w,
  str_has_option_loop name (w ++ str) str
  = existsb (cstring_eqb name)
            (match fields option_delim str with
             | f :: fs => (w ++ f) :: fs
             | [] => []
             end).
Proof.
  assert (Htest : forall w rest,
             (length (w ++ rest) - length rest =? length name)%nat
             && memcmp_eq (w ++ rest) name (length name)
             = cstring_eqb name w).
  { intros w rest. unfold memcmp_eq. rewrite length_app.
    replace (length w + length rest - length rest)%nat with (length w) by lia.
    destruct (length w =? length name)%nat eqn:Hl; cbn.
    - apply Nat.eqb_eq in Hl. rewrite <- Hl, firstn_app, firstn_all.
      rewrite Nat.sub_diag, firstn_O, app_nil_r.
      rewrite Hl, firstn_all.
      destruct (cstring_eqb w name) eqn:E.
      + apply cstring_eqb_eq in E. subst. symmetry. apply cstring_eqb_refl.
      + symmetry. apply cstring_eqb_neq. apply cstring_eqb_neq in E. congruence.
    - symmetry. apply cstring_eqb_neq. intros ->.
      apply Nat.eqb_neq in Hl. auto. }
  induction str as [| c str IH]; intros w.
  - cbn [str_has_option_loop fields]. rewrite Htest.
    rewrite app_nil_r. cbn. rewrite orb_false_r.
    destruct (cstring_eqb name w); reflexivity.
  - cbn [str_has_option_loop fields].
    fold (option_delim c). destruct (option_delim c).
    + rewrite Htest. rewrite app_nil_r. cbn [existsb].
      destruct (cstring_eqb name w); [reflexivity |]. cbn [orb].
      change (str_has_option_loop name str str)
        with (str_has_option_loop name ([] ++ str) str).
      rewrite (IH []). cbn [app].
      destruct (fields option_delim str) eqn:Hf; reflexivity.
    + replace (w ++ c :: str) with ((w ++ [c]) ++ str)
        by (rewrite <- app_assoc; reflexivity).
      rewrite IH.
      destruct (fields option_delim str) as [| f fs] eqn:Hf.
      * exfalso. exact (fields_not_nil _ _ Hf).
      * rewrite <- app_assoc. reflexivity.
Qed.

Lemma str_has_option_eq str name :
  str_has_option str name
  = match str with
    | [] => false
    | _ :: _ => cstring_eqb str (cstr "all")
                || existsb (cstring_eqb name) (fields option_delim str)
    end.
Proof.
  unfold str_has_option. destruct str as [| c str]; [reflexivity |].
  destruct (cstring_eqb (c :: str) (cstr "all")); [reflexivity |].
  pose proof (str_has_option_loop_spec name (c :: str) []) as Hloop.
  change ([] ++ c :: str) with (c :: str) in Hloop. rewrite Hloop.
  destruct (fields option_delim (c :: str)); reflexivity.
Qed.

(** X13. [str_has_option] finds a name in an option string exactly when the
    string is not empty and either is "all" or has the name as one of its
    words, the words being what lies between the bytes that are not a
    letter, a digit or an underscore (empty words included). *)
Theorem str_has_option_words str name :
  str_has_option str name = true <->
  str <> [] /\ (str = cstr "all" \/ In name (fields option_delim str)).
Proof.
  unfold str_has_option. destruct str as [| c str].
  - split; [discriminate | intros [H _]; contradiction].
  - destruct (cstring_eqb (c :: str) (cstr "all")) eqn:Hall.
    + apply cstring_eqb_eq in Hall. split; auto. intros _. split; auto.
      discriminate.
    + apply cstring_eqb_neq in Hall.
      pose proof (str_has_option_loop_spec name (c :: str) []) as Hloop.
      change ([] ++ c :: str) with (c :: str) in Hloop. rewrite Hloop.
      pose proof (fields_not_nil option_delim (c :: str)) as Hne.
      destruct (fields option_delim (c :: str)) as [| f fs];
        [contradiction |].
      cbn [app].
      rewrite existsb_cstring_eqb. split.
      * intros Hin. split; [discriminate | right; exact Hin].
      * intros [_ [Heq | Hin]]; [contradiction | exact Hin].
Qed.

(** A name with a byte that is not a letter, a digit or an underscore is
    never among the words. *)
Lemma fields_clean delim s :
  Forall (fun f => forallb (fun c => negb (delim c)) f = true) (fields delim s).
Proof.
  induction s as [| c s IH]; cbn.
  - repeat constructor.
  - destruct (delim c) eqn:Hc.
    + constructor; [reflexivity | exact IH].
    + destruct (fields delim s) as [| f fs].
      * repeat constructor. cbn. rewrite Hc. reflexivity.
      * inversion IH; subst. constructor; [| assumption].
        cbn. rewrite Hc. cbn. assumption.
Qed.

(** X14. A flag whose name has a byte other than a letter, a digit or an
    underscore can only be switched on by "all": no other option string
    makes [str_has_option] find it. *)
Theorem str_has_option_unmatchable str name :
  existsb option_delim name = true ->
  str_has_option str name = true -> str = cstr "all".
Proof.
  intros Hbad H. rewrite str_has_option_eq in H.
  destruct str as [| c0 str0] eqn:Hstr; [discriminate |]. rewrite <- Hstr in *.
  apply orb_true_iff in H as [Hall | Hin];
    [apply cstring_eqb_eq; exact Hall |].
  apply existsb_cstring_eqb in Hin.
  exfalso.
  pose proof (fields_clean option_delim str) as Hclean.
  rewrite Forall_forall in Hclean. specialize (Hclean name Hin).
  apply existsb_exists in Hbad as (c & Hc & Hd).
  rewrite forallb_forall in Hclean. specialize (Hclean c Hc).
  rewrite Hd in Hclean. discriminate.
Qed.

(** ** The [strcspn] loops *)

Lemma has_token_nil reject name : has_token reject [] name = false.
Proof. destruct name; reflexivity. Qed.

Lemma has_token_delim reject d s name :
  char_in reject d = true ->
  has_token reject (d :: s) name
  = cstring_eqb name [] || has_token reject s name.
Proof.
  intros Hd. destruct name as [| x name]; cbn.
  - rewrite Hd. reflexivity.
  - rewrite Hd. reflexivity.
Qed.

Lemma has_token_word reject s name :
  (1 <= strcspn s reject)%nat ->
  has_token reject s name
  = cstring_eqb name (firstn (strcspn s reject) s)
    || has_token reject (skipn (strcspn s reject) s) name.
Proof.
  intros Hn.
  destruct (strcspn_split reject s) as (Hle & Hclean & Hrest & Hfields).
  set (n := strcspn s reject) in *.
  assert (Hw : firstn n s <> []).
  { intros Hnil. apply (f_equal (@length ascii)) in Hnil.
    rewrite length_firstn in Hnil. cbn in Hnil. lia. }
  destruct name as [| x name].
  - cbn [has_token].
    rewrite <- (firstn_skipn n s) at 1. rewrite existsb_app.
    replace (existsb (char_in reject) (firstn n s)) with false.
    + destruct (firstn n s); [contradiction | reflexivity].
    + symmetry. apply not_true_is_false. intros Hex.
      apply existsb_exists in Hex as (c & Hc & Hd).
      rewrite forallb_forall in Hclean. specialize (Hclean c Hc).
      rewrite Hd in Hclean. discriminate.
  - cbn [has_token]. rewrite Hfields.
    destruct Hrest as [Hnil | (d & rest & Hcons & Hd)].
    + rewrite Hnil. reflexivity.
    + rewrite Hcons. cbn [fields existsb]. rewrite Hd. reflexivity.
Qed.

Lemma strcspn_head reject c s :
  strcspn (c :: s) reject = O <-> char_in reject c = true.
Proof.
  cbn. destruct (char_in reject c); split; congruence.
Qed.

Lemma Z_lor_absorb a f : Z.lor (Z.lor a f) f = Z.lor a f.
Proof. rewrite <- Z.lor_assoc, Z.lor_diag. reflexivity. Qed.

Lemma parse_debug_tokens_spec control fuel : forall s flag,
  (length s < fuel)%nat ->
  parse_debug_tokens fuel control s flag
  = if has_token (cstr ", ") s (ctl_string control)
    then Z.lor flag (ctl_flag control) else flag.
Proof.
  induction fuel as [| fuel IH]; intros s flag Hfuel; [lia |].
  destruct s as [| c s].
  - cbn [parse_debug_tokens]. rewrite has_token_nil. reflexivity.
  - cbn [parse_debug_tokens].
    destruct (strcspn_split (cstr ", ") (c :: s)) as (Hle & _ & _ & _).
    cbv zeta in Hle. rewrite token_test by exact Hle.
    destruct (strcspn (c :: s) (cstr ", ")) as [| m] eqn:Hn.
    + apply strcspn_head in Hn.
      change (skipn (MAX2 1 0) (c :: s)) with s.
      rewrite IH by (cbn in Hfuel; lia).
      rewrite (has_token_delim _ _ _ _ Hn). cbn [firstn].
      destruct (cstring_eqb (ctl_string control) []); cbn [orb].
      * rewrite Z_lor_absorb.
        destruct (has_token _ s _); reflexivity.
      * reflexivity.
    + assert (Hmax : MAX2 1 (S m) = S m) by (unfold MAX2; lia).
      rewrite Hmax.
      rewrite IH by (rewrite length_skipn; cbn in Hfuel |- *; lia).
      rewrite (has_token_word (cstr ", ") (c :: s)) by lia.
      rewrite Hn.
      destruct (cstring_eqb (ctl_string control) (firstn (S m) (c :: s)));
        cbn [orb].
      * rewrite Z_lor_absorb.
        destruct (has_token _ (skipn (S m) (c :: s)) _); reflexivity.
      * reflexivity.
Qed.

Lemma parse_debug_controls_bits debug control i : forall flag,
  Z.testbit (parse_debug_controls debug control flag) i
  = Z.testbit flag i
    || existsb (fun c => (cstring_eqb debug (cstr "all")
                          || has_token (cstr ", ") debug (ctl_string c))
                         && Z.testbit (ctl_flag c) i) control.
Proof.
  induction control as [| c control IH]; intros flag.
  - cbn. rewrite orb_false_r. reflexivity.
  - cbn [parse_debug_controls existsb]. rewrite IH.
    rewrite parse_debug_tokens_spec by lia.
    destruct (cstring_eqb debug (cstr "all")); cbn [orb andb].
    + rewrite Z.lor_spec, orb_assoc. reflexivity.
    + destruct (has_token _ debug _); cbn [andb].
      * rewrite Z.lor_spec, orb_assoc. reflexivity.
      * reflexivity.
Qed.

(** X15. Bit [i] of the result of [parse_debug_string] is set exactly when
    some entry of the table has that bit in its flag and is named by the
    string: the string is "all", or the entry's string is one of its
    tokens between commas and spaces (an entry with the empty string is
    named as soon as there is a comma or a space). *)
Theorem parse_debug_string_bits debug control i :
  Z.testbit (parse_debug_string (Some debug) control) i = true <->
  exists c, In c control
            /\ (debug = cstr "all"
                \/ has_token (cstr ", ") debug (ctl_string c) = true)
            /\ Z.testbit (ctl_flag c) i = true.
Proof.
  unfold parse_debug_string.
  rewrite parse_debug_controls_bits. rewrite Z.bits_0. cbn [orb].
  rewrite existsb_exists. split.
  - intros (c & Hin & H). exists c.
    apply andb_true_iff in H as [Hsel Hbit].
    apply orb_true_iff in Hsel as [Hall | Htok].
    + apply cstring_eqb_eq in Hall. auto.
    + auto.
  - intros (c & Hin & Hsel & Hbit). exists c. split; [exact Hin |].
    rewrite Hbit, andb_true_r. apply orb_true_iff.
    destruct Hsel as [Hall | Htok].
    + left. apply cstring_eqb_eq. exact Hall.
    + right. exact Htok.
Qed.

Lemma fields_app_delim delim a d b :
  delim d = true ->
  fields delim (a ++ d :: b) = fields delim a ++ fields delim b.
Proof.
  intros Hd. induction a as [| c a IH]; cbn.
  - rewrite Hd. reflexivity.
  - rewrite IH. destruct (delim c); [reflexivity |].
    pose proof (fields_not_nil delim a) as Hne.
    destruct (fields delim a); [contradiction | reflexivity].
Qed.

Lemma has_token_app reject a d b name :
  char_in reject d = true -> name <> [] ->
  has_token reject (a ++ d :: b) name
  = has_token reject a name || has_token reject b name.
Proof.
  intros Hd Hname. destruct name as [| x name]; [contradiction |].
  cbn [has_token]. rewrite (fields_app_delim _ _ _ _ Hd).
  apply existsb_app.
Qed.

Lemma delim_not_in_all a d b :
  char_in (cstr ", ") d = true -> a ++ d :: b <> cstr "all".
Proof.
  intros Hd Heq.
  assert (Hin : In d (cstr "all")) by (rewrite <- Heq; apply in_elt).
  cbn in Hin.
  destruct Hin as [<- | [<- | [<- | []]]]; discriminate.
Qed.

(** X16. [parse_debug_string] of two strings joined by a comma or a space
    is the union of what it gives for each of them, when neither is "all"
    and no entry of the table has the empty string. *)
Theorem parse_debug_string_app a d b control :
  char_in (cstr ", ") d = true ->
  a <> cstr "all" -> b <> cstr "all" ->
  Forall (fun c => ctl_string c <> []) control ->
  parse_debug_string (Some (a ++ d :: b)) control
  = Z.lor (parse_debug_string (Some a) control)
          (parse_debug_string (Some b) control).
Proof.
  intros Hd Ha Hb Hnames. unfold parse_debug_string.
  apply Z.bits_inj'. intros i _.
  rewrite Z.lor_spec, !parse_debug_controls_bits, Z.bits_0. cbn [orb].
  apply cstring_eqb_neq in Ha, Hb.
  rewrite Ha, Hb.
  rewrite (proj2 (cstring_eqb_neq _ _) (delim_not_in_all a d b Hd)).
  cbn [orb].
  induction Hnames as [| c control Hc _ IH]; [reflexivity |].
  cbn [existsb]. rewrite IH, (has_token_app _ _ _ _ _ Hd Hc).
  destruct (has_token _ a _), (has_token _ b _), (Z.testbit (ctl_flag c) i);
    cbn; repeat rewrite ?orb_true_r, ?orb_false_r; try reflexivity;
    destruct (existsb _ control); reflexivity.
Qed.

(** ** [parse_enable_string] *)

Lemma delim_not_sign c : char_in (cstr ", ") c = true -> is_sign c = false.
Proof.
  unfold char_in. cbn. rewrite orb_false_r. intros H.
  apply orb_true_iff in H as [H | H]; apply Ascii.eqb_eq in H; subst;
    reflexivity.
Qed.

Lemma sign_not_delim c : is_sign c = true -> char_in (cstr ", ") c = false.
Proof.
  intros Hs. destruct (char_in (cstr ", ") c) eqn:Hd; [| reflexivity].
  apply delim_not_sign in Hd. congruence.
Qed.

Lemma MAX2_1 n : MAX2 1 n = match n with O => 1%nat | S _ => n end.
Proof. unfold MAX2. destruct n; lia. Qed.

(** One round of the loop at a token without a sign. *)
Lemma parse_enable_tokens_plain fuel control c s flag :
  is_sign c = false ->
  parse_enable_tokens (S fuel) control (c :: s) flag
  = parse_enable_tokens fuel control
      (skipn (MAX2 1 (strcspn (c :: s) (cstr ", "))) (c :: s))
      (if cstring_eqb (ctl_string control)
                      (firstn (strcspn (c :: s) (cstr ", ")) (c :: s))
       then Z.lor flag (ctl_flag control) else flag).
Proof.
  intros Hs. apply orb_false_elim in Hs as [Hp Hm].
  cbn [parse_enable_tokens]. rewrite Hp, Hm.
  destruct (strcspn_split (cstr ", ") (c :: s)) as (Hle & _ & _ & _).
  cbv zeta in Hle. rewrite token_test by exact Hle.
  replace (MAX2 1 (strcspn (c :: s) (cstr ", ")) <=? length (c :: s))%nat
    with true; [reflexivity |].
  symmetry. apply Nat.leb_le. unfold MAX2. cbn [length] in *. lia.
Qed.

(** One round of the loop at a token with a sign. *)
Lemma parse_enable_tokens_signed fuel control c s flag :
  is_sign c = true ->
  parse_enable_tokens (S fuel) control (c :: s) flag
  = match s with
    | [] => None
    | _ :: _ =>
        parse_enable_tokens fuel control
          (skipn (MAX2 1 (strcspn s (cstr ", "))) s)
          (if cstring_eqb (ctl_string control)
                          (firstn (strcspn s (cstr ", ")) s)
           then if Ascii.eqb c "+"%char
                then Z.lor flag (ctl_flag control)
                else Z.ldiff flag (ctl_flag control)
           else flag)
    end.
Proof.
  intros Hs. pose proof (sign_not_delim c Hs) as Hd.
  assert (Hn : strcspn (c :: s) (cstr ", ") = S (strcspn s (cstr ", ")))
    by (cbn [strcspn]; rewrite Hd; reflexivity).
  destruct (strcspn_split (cstr ", ") s) as (Hle & _ & _ & _).
  cbv zeta in Hle.
  assert (Hgo : (MAX2 1 (strcspn s (cstr ", ")) <=? length s)%nat
                = match s with [] => false | _ :: _ => true end).
  { destruct s as [| x s]; [reflexivity |].
    apply Nat.leb_le. unfold MAX2. cbn [length] in *. lia. }
  cbn [parse_enable_tokens]. rewrite Hn. cbn [Nat.sub]. rewrite Nat.sub_0_r.
  unfold is_sign in Hs.
  destruct (Ascii.eqb c "+"%char) eqn:Hp.
  - rewrite token_test by exact Hle. rewrite Hgo.
    destruct s; reflexivity.
  - cbn [orb] in Hs. rewrite Hs.
    rewrite token_test by exact Hle. rewrite Hgo.
    destruct s; reflexivity.
Qed.

(** The fields of a string that starts with a word: the word, then the
    fields after the delimiter that ends it. *)
Lemma fields_next s :
  (1 <= strcspn s (cstr ", "))%nat ->
  exists tl,
    fields (char_in (cstr ", ")) s
    = firstn (strcspn s (cstr ", ")) s :: tl
    /\ fields (char_in (cstr ", ")) (skipn (strcspn s (cstr ", ")) s)
       = [] :: tl
    /\ (tl = [] -> skipn (strcspn s (cstr ", ")) s = []).
Proof.
  intros Hn.
  destruct (strcspn_split (cstr ", ") s) as (_ & _ & Hrest & Hfields).
  cbv zeta in Hrest, Hfields.
  destruct Hrest as [Hnil | (d & rest & Hcons & Hd)].
  - exists []. rewrite Hfields, Hnil. auto.
  - exists (fields (char_in (cstr ", ")) rest).
    rewrite Hfields, Hcons. cbn [fields]. rewrite Hd.
    repeat split. intros Hf. exfalso. exact (fields_not_nil _ _ Hf).
Qed.

Lemma last_cons_fields (w : cstring) s :
  last (w :: fields (char_in (cstr ", ")) s) []
  = last (fields (char_in (cstr ", ")) s) [].
Proof.
  pose proof (fields_not_nil (char_in (cstr ", ")) s) as Hne.
  cbn [last]. destruct (fields _ s); [contradiction | reflexivity].
Qed.

Lemma ends_in_lone_sign_plain c s :
  is_sign c = false ->
  ends_in_lone_sign (skipn (MAX2 1 (strcspn (c :: s) (cstr ", "))) (c :: s))
  = ends_in_lone_sign (c :: s).
Proof.
  intros Hs. unfold ends_in_lone_sign.
  destruct (strcspn (c :: s) (cstr ", ")) as [| m] eqn:Hn.
  - apply strcspn_head in Hn.
    change (skipn (MAX2 1 0) (c :: s)) with s.
    cbn [fields]. rewrite Hn. rewrite last_cons_fields. reflexivity.
  - rewrite MAX2_1.
    destruct (fields_next (c :: s)) as (tl & Hf & Hnext & _);
      [rewrite Hn; lia |].
    rewrite Hn in Hf, Hnext. rewrite Hf, Hnext.
    destruct tl as [| t tl]; [| reflexivity].
    cbn [last firstn]. destruct (firstn m s); [| reflexivity].
    symmetry. exact Hs.
Qed.

Lemma ends_in_lone_sign_signed c x s :
  is_sign c = true ->
  ends_in_lone_sign
    (skipn (MAX2 1 (strcspn (x :: s) (cstr ", "))) (x :: s))
  = ends_in_lone_sign (c :: x :: s).
Proof.
  intros Hs. pose proof (sign_not_delim c Hs) as Hd.
  unfold ends_in_lone_sign.
  destruct (strcspn (x :: s) (cstr ", ")) as [| m] eqn:Hn.
  - apply strcspn_head in Hn.
    change (skipn (MAX2 1 0) (x :: s)) with s.
    cbn [fields]. rewrite Hd, Hn. rewrite last_cons_fields. reflexivity.
  - rewrite MAX2_1.
    assert (Hn' : strcspn (c :: x :: s) (cstr ", ") = S (S m))
      by (cbn [strcspn] in Hn |- *; rewrite Hd, Hn; reflexivity).
    destruct (fields_next (c :: x :: s)) as (tl & Hf & Hnext & _);
      [rewrite Hn'; lia |].
    rewrite Hn' in Hf, Hnext.
    change (skipn (S (S m)) (c :: x :: s)) with (skipn (S m) (x :: s))
      in Hnext.
    rewrite Hf, Hnext.
    destruct tl as [| t tl]; reflexivity.
Qed.

Lemma parse_enable_tokens_none control fuel : forall s flag,
  (length s < fuel)%nat ->
  match parse_enable_tokens fuel control s flag with
  | None => true
  | Some _ => false
  end = ends_in_lone_sign s.
Proof.
  induction fuel as [| fuel IH]; intros s flag Hfuel; [lia |].
  destruct s as [| c s]; [reflexivity |].
  cbn [length] in Hfuel.
  destruct (is_sign c) eqn:Hs.
  - rewrite parse_enable_tokens_signed by exact Hs.
    destruct s as [| x s].
    + unfold ends_in_lone_sign. cbn [fields].
      rewrite (sign_not_delim c Hs). cbn. symmetry. exact Hs.
    + rewrite IH by (rewrite length_skipn; unfold MAX2; cbn [length] in *; lia).
      apply ends_in_lone_sign_signed. exact Hs.
  - rewrite parse_enable_tokens_plain by exact Hs.
    rewrite IH by (rewrite length_skipn; unfold MAX2; cbn [length] in *; lia).
    apply ends_in_lone_sign_plain. exact Hs.
Qed.

Lemma parse_enable_controls_none debug control : forall flag,
  cstring_eqb debug (cstr "all") = false ->
  match parse_enable_controls debug control flag with
  | None => true
  | Some _ => false
  end = match control with
        | [] => false
        | _ :: _ => ends_in_lone_sign debug
        end.
Proof.
  intros flag Hall. revert flag.
  induction control as [| c control IH]; intros flag; [reflexivity |].
  cbn [parse_enable_controls]. rewrite Hall.
  pose proof (parse_enable_tokens_none c (S (length debug)) debug flag
                (Nat.lt_succ_diag_r _)) as Hone.
  destruct (parse_enable_tokens (S (length debug)) c debug flag) as [f |].
  - rewrite IH. destruct control; [exact Hone | reflexivity].
  - exact Hone.
Qed.

(** X17. [parse_enable_string] reads beyond the end of its string exactly
    when the table is not empty, the string is not "all" and its last
    field between commas and spaces is a '+' or a '-' on its own: the loop
    body steps over the sign, and the loop then adds one more to a pointer
    that is already at the terminating NUL. *)
Theorem parse_enable_string_overrun debug default_value control :
  parse_enable_string (Some debug) default_value control = None <->
  control <> [] /\ debug <> cstr "all" /\ ends_in_lone_sign debug = true.
Proof.
  unfold parse_enable_string.
  destruct (cstring_eqb debug (cstr "all")) eqn:Hall.
  - apply cstring_eqb_eq in Hall. split.
    + intros H. exfalso. revert default_value H.
      induction control as [| c control IH]; intros flag H;
        [discriminate |].
      cbn [parse_enable_controls] in H.
      rewrite (proj2 (cstring_eqb_eq _ _) Hall) in H.
      exact (IH _ H).
    + intros (_ & Hne & _). contradiction.
  - pose proof (parse_enable_controls_none debug control default_value Hall)
      as H.
    apply cstring_eqb_neq in Hall. split.
    + intros Hnone. rewrite Hnone in H.
      destruct control; [discriminate |].
      repeat split; [discriminate | exact Hall | symmetry; exact H].
    + intros (Hc & _ & Hends).
      destruct control; [contradiction |].
      rewrite Hends in H.
      destruct (parse_enable_controls debug (d :: control) default_value);
        [discriminate | reflexivity].
Qed.

Lemma sign_free_step c s :
  sign_free (c :: s) = true ->
  is_sign c = false
  /\ sign_free (skipn (MAX2 1 (strcspn (c :: s) (cstr ", "))) (c :: s))
     = true.
Proof.
  unfold sign_free.
  destruct (strcspn (c :: s) (cstr ", ")) as [| m] eqn:Hn.
  - apply strcspn_head in Hn.
    change (skipn (MAX2 1 0) (c :: s)) with s.
    cbn [fields]. rewrite Hn. cbn [forallb]. intros H.
    split; [apply delim_not_sign; exact Hn | exact H].
  - rewrite MAX2_1.
    destruct (fields_next (c :: s)) as (tl & Hf & Hnext & _);
      [rewrite Hn; lia |].
    rewrite Hn in Hf, Hnext. rewrite Hf, Hnext.
    cbn [forallb firstn]. intros H.
    apply andb_true_iff in H as [Hc Htl].
    split; [apply negb_true_iff; exact Hc | exact Htl].
Qed.

Lemma parse_enable_tokens_unsigned control fuel : forall s flag,
  sign_free s = true ->
  parse_enable_tokens fuel control s flag
  = Some (parse_debug_tokens fuel control s flag).
Proof.
  induction fuel as [| fuel IH]; intros s flag Hfree; [reflexivity |].
  destruct s as [| c s]; [reflexivity |].
  destruct (sign_free_step c s Hfree) as [Hs Hnext].
  rewrite parse_enable_tokens_plain by exact Hs.
  rewrite IH by exact Hnext.
  cbn [parse_debug_tokens].
  destruct (strcspn_split (cstr ", ") (c :: s)) as (Hle & _ & _ & _).
  cbv zeta in Hle. rewrite token_test by exact Hle. reflexivity.
Qed.

Lemma parse_debug_controls_flag debug control flag :
  parse_debug_controls debug control flag
  = Z.lor flag (parse_debug_controls debug control 0).
Proof.
  apply Z.bits_inj'. intros i _.
  rewrite Z.lor_spec, !parse_debug_controls_bits, Z.bits_0. reflexivity.
Qed.

(** X18. On a string none of whose fields starts with '+' or '-',
    [parse_enable_string] stays inside the string and returns the default
    value together with the flags [parse_debug_string] gives for the same
    string and table. *)
Theorem parse_enable_string_unsigned debug default_value control :
  sign_free debug = true ->
  parse_enable_string (Some debug) default_value control
  = Some (Z.lor default_value (parse_debug_string (Some debug) control)).
Proof.
  intros Hfree. unfold parse_enable_string, parse_debug_string.
  rewrite <- parse_debug_controls_flag.
  revert default_value.
  induction control as [| c control IH]; intros flag; [reflexivity |].
  cbn [parse_enable_controls parse_debug_controls].
  destruct (cstring_eqb debug (cstr "all")).
  - apply IH.
  - rewrite parse_enable_tokens_unsigned by exact Hfree. apply IH.
Qed.

Lemma Z_lor_ldiff_absorb a f : Z.lor (Z.ldiff a f) f = Z.lor a f.
Proof.
  apply Z.bits_inj'. intros i _.
  rewrite !Z.lor_spec, Z.ldiff_spec.
  destruct (Z.testbit a i), (Z.testbit f i); reflexivity.
Qed.

Lemma Z_ldiff_lor_absorb a f : Z.ldiff (Z.lor a f) f = Z.ldiff a f.
Proof.
  apply Z.bits_inj'. intros i _.
  rewrite !Z.ldiff_spec, Z.lor_spec.
  destruct (Z.testbit a i), (Z.testbit f i); reflexivity.
Qed.

Lemma Z_ldiff_absorb a f : Z.ldiff (Z.ldiff a f) f = Z.ldiff a f.
Proof.
  apply Z.bits_inj'. intros i _.
  rewrite !Z.ldiff_spec.
  destruct (Z.testbit a i), (Z.testbit f i); reflexivity.
Qed.

(** Applying the requests of the fields one after the other comes to
    applying the last one. *)
Lemma apply_requests_last name f tokens : forall acc flag,
  fold_left (fun flag t => apply_request (token_request name t) flag f)
            tokens (apply_request acc flag f)
  = apply_request
      (fold_left (fun acc t => match token_request name t with
                               | Some b => Some b
                               | None => acc
                               end) tokens acc) flag f.
Proof.
  induction tokens as [| t tokens IH]; intros acc flag; [reflexivity |].
  cbn [fold_left]. rewrite <- IH. f_equal.
  destruct (token_request name t) as [[|] |]; [| | reflexivity];
    destruct acc as [[|] |]; cbn [apply_request];
    auto using Z_lor_absorb, Z_lor_ldiff_absorb, Z_ldiff_lor_absorb,
               Z_ldiff_absorb.
Qed.

Lemma fold_fields_delim (step : Z -> cstring -> Z) d s flag :
  char_in (cstr ", ") d = true ->
  fold_left step (fields (char_in (cstr ", ")) (d :: s)) flag
  = fold_left step (fields (char_in (cstr ", ")) s) (step flag []).
Proof. intros Hd. cbn [fields]. rewrite Hd. reflexivity. Qed.

Lemma fold_fields_word (step : Z -> cstring -> Z) s flag :
  (1 <= strcspn s (cstr ", "))%nat ->
  (forall x, step x [] = x) ->
  fold_left step (fields (char_in (cstr ", ")) s) flag
  = fold_left step
      (fields (char_in (cstr ", ")) (skipn (strcspn s (cstr ", ")) s))
      (step flag (firstn (strcspn s (cstr ", ")) s)).
Proof.
  intros Hn Hstep.
  destruct (fields_next s Hn) as (tl & Hf & Hnext & _).
  rewrite Hf, Hnext. cbn [fold_left]. rewrite Hstep. reflexivity.
Qed.

Lemma parse_enable_tokens_requests control fuel :
  ctl_string control <> [] ->
  forall s flag,
  (length s < fuel)%nat ->
  ends_in_lone_sign s = false ->
  parse_enable_tokens fuel control s flag
  = Some (fold_left
            (fun flag t =>
               apply_request (token_request (ctl_string control) t)
                             flag (ctl_flag control))
            (fields (char_in (cstr ", ")) s) flag).
Proof.
  intros Hname.
  assert (Hempty : cstring_eqb (ctl_string control) [] = false)
    by (apply cstring_eqb_neq; exact Hname).
  induction fuel as [| fuel IH]; intros s flag Hfuel Hends; [lia |].
  destruct s as [| c s]; [reflexivity |].
  cbn [length] in Hfuel.
  destruct (is_sign c) eqn:Hs.
  - rewrite parse_enable_tokens_signed by exact Hs.
    pose proof (sign_not_delim c Hs) as Hd.
    destruct s as [| x s].
    + exfalso. unfold ends_in_lone_sign in Hends. cbn [fields] in Hends.
      rewrite Hd in Hends. cbn in Hends. congruence.
    + rewrite <- (ends_in_lone_sign_signed c x s Hs) in Hends.
      rewrite IH;
        [| rewrite length_skipn; unfold MAX2; cbn [length] in *; lia
         | exact Hends].
      f_equal.
      destruct (strcspn (x :: s) (cstr ", ")) as [| m] eqn:Hn.
      * apply strcspn_head in Hn.
        change (skipn (MAX2 1 0) (x :: s)) with s.
        cbn [firstn]. rewrite Hempty.
        cbn [fields]. rewrite Hd, Hn. cbn [fold_left token_request].
        rewrite Hempty. unfold is_sign in Hs.
        destruct (Ascii.eqb c "+"%char); [reflexivity |].
        cbn [orb] in Hs. rewrite Hs. reflexivity.
      * rewrite MAX2_1.
        assert (Hn' : strcspn (c :: x :: s) (cstr ", ") = S (S m))
          by (cbn [strcspn] in Hn |- *; rewrite Hd, Hn; reflexivity).
        rewrite (fold_fields_word _ (c :: x :: s))
          by (try (rewrite Hn'; lia); intros; reflexivity).
        rewrite Hn'.
        change (skipn (S (S m)) (c :: x :: s)) with (skipn (S m) (x :: s)).
        f_equal.
        change (firstn (S (S m)) (c :: x :: s))
          with (c :: firstn (S m) (x :: s)).
        cbn [token_request].
        unfold is_sign in Hs.
        destruct (Ascii.eqb c "+"%char).
        -- destruct (cstring_eqb _ (firstn (S m) (x :: s))); reflexivity.
        -- cbn [orb] in Hs. rewrite Hs.
           destruct (cstring_eqb _ (firstn (S m) (x :: s))); reflexivity.
  - rewrite parse_enable_tokens_plain by exact Hs.
    rewrite <- (ends_in_lone_sign_plain c s Hs) in Hends.
    rewrite IH;
      [| rewrite length_skipn; unfold MAX2; cbn [length] in *; lia
       | exact Hends].
    f_equal.
    destruct (strcspn (c :: s) (cstr ", ")) as [| m] eqn:Hn.
    + apply strcspn_head in Hn.
      change (skipn (MAX2 1 0) (c :: s)) with s.
      cbn [firstn]. rewrite Hempty.
      rewrite (fold_fields_delim _ c s flag Hn). reflexivity.
    + rewrite MAX2_1.
      rewrite (fold_fields_word _ (c :: s))
        by (try (rewrite Hn; lia); intros; reflexivity).
      rewrite Hn. f_equal.
      change (firstn (S m) (c :: s)) with (c :: firstn m s).
      cbn [token_request].
      apply orb_false_elim in Hs as [Hp Hm]. rewrite Hp, Hm.
      destruct (cstring_eqb _ (c :: firstn m s)); reflexivity.
Qed.

(** X19. In [parse_enable_string] the last field that names a flag
    decides: for a string other than "all" that does not end in a sign on
    its own, and a table without an empty string, every entry in turn is
    set when the last field naming it is the bare name or has '+', cleared
    when it has '-', and left as the default (or as earlier entries made
    it) when no field names it. *)
Theorem parse_enable_string_last_wins debug default_value control :
  debug <> cstr "all" ->
  Forall (fun c => ctl_string c <> []) control ->
  ends_in_lone_sign debug = false ->
  parse_enable_string (Some debug) default_value control
  = Some (fold_left
            (fun flag c =>
               apply_request
                 (last_request (ctl_string c)
                               (fields (char_in (cstr ", ")) debug))
                 flag (ctl_flag c))
            control default_value).
Proof.
  intros Hall Hnames Hends. unfold parse_enable_string.
  apply cstring_eqb_neq in Hall.
  revert default_value.
  induction Hnames as [| c control Hc _ IH]; intros flag; [reflexivity |].
  cbn [parse_enable_controls fold_left]. rewrite Hall.
  rewrite (parse_enable_tokens_requests c _ Hc)
    by (try exact Hends; lia).
  rewrite IH. do 2 f_equal.
  exact (apply_requests_last (ctl_string c) (ctl_flag c) _ None flag).
Qed.

(** ** [comma_separated_list_contains] *)

Lemma cstring_eqb_sym a b : cstring_eqb a b = cstring_eqb b a.
Proof.
  destruct (cstring_eqb b a) eqn:E.
  - apply cstring_eqb_eq in E. subst. apply cstring_eqb_refl.
  - apply cstring_eqb_neq. apply cstring_eqb_neq in E. congruence.
Qed.

Lemma comma_separated_list_loop_spec s fuel : forall list,
  (length list < fuel)%nat ->
  comma_separated_list_loop fuel list s = has_token (cstr ",") list s.
Proof.
  induction fuel as [| fuel IH]; intros list Hfuel; [lia |].
  destruct list as [| c list].
  - cbn [comma_separated_list_loop]. rewrite has_token_nil. reflexivity.
  - cbn [comma_separated_list_loop].
    destruct (strcspn_split (cstr ",") (c :: list)) as (Hle & _ & _ & _).
    cbv zeta in Hle.
    unfold strncmp_eq. rewrite Nat.eqb_sym, cstring_eqb_sym.
    fold (strncmp_eq s (c :: list) (strcspn (c :: list) (cstr ","))).
    rewrite token_test by exact Hle.
    cbn [length] in Hfuel.
    destruct (strcspn (c :: list) (cstr ",")) as [| m] eqn:Hn.
    + apply strcspn_head in Hn.
      change (skipn (MAX2 1 0) (c :: list)) with list.
      rewrite (has_token_delim _ _ _ _ Hn). cbn [firstn].
      rewrite IH by lia.
      destruct (cstring_eqb s []); reflexivity.
    + rewrite MAX2_1.
      rewrite (has_token_word (cstr ",") (c :: list)) by lia.
      rewrite Hn.
      rewrite IH by (rewrite length_skipn; cbn [length]; lia).
      destruct (cstring_eqb s (firstn (S m) (c :: list))); reflexivity.
Qed.

(** X20. [comma_separated_list_contains] finds a non-empty string exactly
    when it is one of the fields of the list between commas, and finds the
    empty string exactly when the list has a comma at all. *)
Theorem comma_separated_list_contains_fields list s :
  comma_separated_list_contains list s = true <->
  (s = [] /\ In ","%char list)
  \/ (s <> [] /\ In s (fields (char_in (cstr ",")) list)).
Proof.
  unfold comma_separated_list_contains.
  rewrite comma_separated_list_loop_spec by lia.
  destruct s as [| x s]; cbn [has_token].
  - rewrite existsb_exists. split.
    + intros (c & Hin & Hc). left. split; [reflexivity |].
      unfold char_in in Hc. cbn in Hc. rewrite orb_false_r in Hc.
      apply Ascii.eqb_eq in Hc. subst. exact Hin.
    + intros [[_ Hin] | [Hne _]]; [| contradiction].
      exists ","%char. split; [exact Hin | reflexivity].
  - rewrite existsb_cstring_eqb. split.
    + intros Hin. right. split; [discriminate | exact Hin].
    + intros [[Hnil _] | [_ Hin]]; [discriminate | exact Hin].
Qed.

(** ** [debug_get_flags_option] *)

Lemma debug_get_flags_loop_bits str flags i : forall result,
  Z.testbit (debug_get_flags_loop str flags result) i
  = Z.testbit result i
    || existsb (fun f => str_has_option str (nv_name f)
                         && Z.testbit (nv_value f) i) flags.
Proof.
  induction flags as [| f flags IH]; intros result.
  - cbn. rewrite orb_false_r. reflexivity.
  - cbn [debug_get_flags_loop existsb]. rewrite IH.
    destruct (str_has_option str (nv_name f)); cbn [andb orb].
    + rewrite Z.lor_spec, orb_assoc. reflexivity.
    + reflexivity.
Qed.

(** X21. For an option that is set to something other than "help", bit
    [i] of the result of [debug_get_flags_option] is set exactly when the
    string is not empty and some flag of the table has that bit in its
    value and is named by the string: the string is "all", or the flag's
    name is one of its words. The default value plays no part. *)
Theorem debug_get_flags_option_bits os_get_option name flags dfault str i :
  os_get_option name = Some str ->
  str <> cstr "help" ->
  Z.testbit (debug_get_flags_option os_get_option name flags dfault) i = true
  <->
  exists f, In f flags
            /\ str <> []
            /\ (str = cstr "all" \/ In (nv_name f) (fields option_delim str))
            /\ Z.testbit (nv_value f) i = true.
Proof.
  intros Hget Hhelp. unfold debug_get_flags_option. rewrite Hget.
  rewrite (proj2 (cstring_eqb_neq _ _) Hhelp).
  rewrite debug_get_flags_loop_bits, Z.bits_0. cbn [orb].
  rewrite existsb_exists. split.
  - intros (f & Hin & H). exists f.
    apply andb_true_iff in H as [Hsel Hbit].
    rewrite str_has_option_eq in Hsel.
    destruct str as [| c str]; [discriminate |].
    split; [exact Hin |]. split; [discriminate |]. split; [| exact Hbit].
    apply orb_true_iff in Hsel as [Hall | Hw].
    + left. apply cstring_eqb_eq. exact Hall.
    + right. apply existsb_cstring_eqb. exact Hw.
  - intros (f & Hin & Hne & Hsel & Hbit). exists f.
    split; [exact Hin |]. rewrite Hbit, andb_true_r.
    rewrite str_has_option_eq.
    destruct str as [| c str]; [contradiction |].
    apply orb_true_iff. destruct Hsel as [Hall | Hw].
    + left. apply cstring_eqb_eq. exact Hall.
    + right. apply existsb_cstring_eqb. exact Hw.
Qed.

(** ** [debug_get_bool_option] *)

Lemma tolower_idem c : tolower (tolower c) = tolower c.
Proof. destruct c as [[] [] [] [] [] [] [] []]; reflexivity. Qed.

Lemma eqb_digit_tolower c d :
  (d = "0" \/ d = "1")%char ->
  Ascii.eqb c d = Ascii.eqb (tolower c) d.
Proof.
  intros [-> | ->]; destruct c as [[] [] [] [] [] [] [] []]; reflexivity.
Qed.

Lemma cstring_eqb_digit_tolower s d :
  (d = "0" \/ d = "1")%char ->
  cstring_eqb s [d] = cstring_eqb (map tolower s) [d].
Proof.
  intros Hd. destruct s as [| c s]; [reflexivity |].
  cbn [map cstring_eqb]. rewrite <- (eqb_digit_tolower c d Hd).
  destruct s; reflexivity.
Qed.

(** X22. [debug_get_bool_option] does not look at the case of the letters:
    two values of the option that differ only in case give the same
    answer. *)
Theorem debug_get_bool_option_case env1 env2 name s1 s2 dfault :
  env1 name = Some s1 ->
  env2 name = Some s2 ->
  map tolower s1 = map tolower s2 ->
  debug_get_bool_option env1 name dfault
  = debug_get_bool_option env2 name dfault.
Proof.
  intros H1 H2 Hcase.
  unfold debug_get_bool_option, debug_get_bool_option_direct.
  rewrite H1, H2. unfold strcasecmp_eq.
  change (cstr "0") with ["0"%char]. change (cstr "1") with ["1"%char].
  rewrite (cstring_eqb_digit_tolower s1 "0"), (cstring_eqb_digit_tolower s1 "1"),
    (cstring_eqb_digit_tolower s2 "0"), (cstring_eqb_digit_tolower s2 "1")
    by auto.
  rewrite Hcase. reflexivity.
Qed.

(** ** [debug_dump_enum] and [debug_dump_flags] *)

(** X23. When no two entries of a table have the same value,
    [debug_dump_enum] gives every entry's value that entry's name. *)
Theorem debug_dump_enum_entry names n :
  NoDup (map nv_value names) ->
  In n names ->
  debug_dump_enum names (nv_value n) = nv_name n.
Proof.
  induction names as [| m names IH]; intros Hdup Hin; [contradiction |].
  cbn [debug_dump_enum]. cbn [map] in Hdup. inversion Hdup; subst.
  destruct Hin as [-> | Hin].
  - rewrite Z.eqb_refl. reflexivity.
  - destruct (nv_value m =? nv_value n) eqn:E.
    + apply Z.eqb_eq in E. exfalso. apply H1. rewrite E.
      apply in_map. exact Hin.
    + apply IH; assumption.
Qed.

Lemma output_room_eq output :
  (length output <= 4095)%nat ->
  Z.to_nat (output_room output) = (4095 - length output)%nat.
Proof.
  intros Hlen. unfold output_room, size_sub.
  change (2 ^ 64) with 18446744073709551616.
  rewrite (Z.mod_small (4096 - _)) by lia.
  rewrite Z.mod_small by lia. lia.
Qed.

Lemma strncat_fits dst src :
  (length dst + length src <= 4095)%nat ->
  strncat dst src (output_room dst) = dst ++ src.
Proof.
  intros Hlen. unfold strncat. rewrite output_room_eq by lia.
  rewrite firstn_all2 by lia. reflexivity.
Qed.

Lemma terminate_output_fits output :
  (length output <= 4095)%nat -> terminate_output output = output.
Proof. intros Hlen. apply firstn_all2. exact Hlen. Qed.

Lemma fields_word delim w :
  existsb delim w = false -> fields delim w = [w].
Proof.
  induction w as [| c w IH]; [reflexivity |].
  cbn. intros H. apply orb_false_elim in H as [Hc Hw].
  rewrite Hc, (IH Hw). reflexivity.
Qed.

(** The loop of [debug_dump_flags] when everything fits: the words of the
    output are the names of the selected entries. *)
Lemma debug_dump_flags_loop_fields names :
  forall (output : cstring) (first : bool) (value : Z) (ws : list cstring),
  Forall (fun n => existsb option_delim (nv_name n) = false
                   /\ nv_name n <> []) names ->
  (length output + names_size names <= if first then 4096 else 4095)%nat ->
  (if first then output = [] /\ ws = []
   else ws <> [] /\ fields option_delim output = ws) ->
  exists output' first',
    debug_dump_flags_loop names output first value
    = (output', first', dump_remainder names value)
    /\ (if first'
        then output' = [] /\ ws ++ map nv_name (dump_selected names value) = []
        else ws ++ map nv_name (dump_selected names value) <> []
             /\ fields option_delim output'
                = ws ++ map nv_name (dump_selected names value)).
Proof.
  induction names as [| n names IH]; intros output first value ws Hnames Hlen Hinv.
  - exists output, first. split; [reflexivity |].
    cbn. rewrite app_nil_r. exact Hinv.
  - inversion Hnames as [| ? ? Hn Hrest]; subst.
    destruct Hn as [Hclean Hne].
    cbn [names_size fold_right] in Hlen. fold (names_size names) in Hlen.
    cbn [debug_dump_flags_loop dump_selected dump_remainder].
    destruct (Z.land (nv_value n) value =? nv_value n).
    + destruct first.
      * destruct Hinv as [-> ->]. cbn [negb length] in *.
        rewrite strncat_fits by (cbn [length]; lia). cbn [app].
        rewrite terminate_output_fits by lia.
        destruct (IH (nv_name n) false (Z.ldiff value (nv_value n))
                     [nv_name n] Hrest) as (output' & first' & Hloop & Hinv').
        { lia. }
        { split; [discriminate | apply fields_word; exact Hclean]. }
        exists output', first'. split; [exact Hloop | exact Hinv'].
      * destruct Hinv as [Hws Hfields]. cbn [negb].
        change (cstr "|") with ["|"%char].
        rewrite (strncat_fits output) by (cbn [length]; lia).
        rewrite strncat_fits by (rewrite length_app; cbn [length]; lia).
        rewrite terminate_output_fits
          by (rewrite !length_app; cbn [length]; lia).
        destruct (IH ((output ++ ["|"%char]) ++ nv_name n) false
                     (Z.ldiff value (nv_value n))
                     (ws ++ [nv_name n]) Hrest)
          as (output' & first' & Hloop & Hinv').
        { rewrite !length_app. cbn [length]. lia. }
        { split; [destruct ws; discriminate |].
          rewrite <- app_assoc. cbn [app].
          rewrite fields_app_delim by reflexivity.
          rewrite Hfields, (fields_word _ _ Hclean). reflexivity. }
        exists output', first'. split; [exact Hloop |].
        cbn [map]. rewrite <- app_assoc in Hinv'. exact Hinv'.
    + apply IH; [exact Hrest | destruct first; lia | exact Hinv].
Qed.

Lemma Z_land_lor_same a b : Z.land a (Z.lor a b) = a.
Proof.
  apply Z.bits_inj'. intros i _.
  rewrite Z.land_spec, Z.lor_spec.
  destruct (Z.testbit a i), (Z.testbit b i); reflexivity.
Qed.

Lemma Z_ldiff_lor_disjoint a b :
  Z.land a b = 0 -> Z.ldiff (Z.lor a b) a = b.
Proof.
  intros Hab. apply Z.bits_inj'. intros i _.
  apply (f_equal (fun z => Z.testbit z i)) in Hab.
  rewrite Z.land_spec, Z.bits_0 in Hab.
  rewrite Z.ldiff_spec, Z.lor_spec.
  destruct (Z.testbit a i), (Z.testbit b i); cbn in *; congruence.
Qed.

Lemma land_union_values a sel names :
  forallb (fun m => Z.land a (nv_value m) =? 0) names = true ->
  Z.land a (union_values (filter sel names)) = 0.
Proof.
  induction names as [| m names IH]; cbn [forallb filter]; intros H.
  - apply Z.land_0_r.
  - apply andb_true_iff in H as [Hm Hrest]. apply Z.eqb_eq in Hm.
    destruct (sel m); [| exact (IH Hrest)].
    cbn [union_values fold_right]. fold (union_values (filter sel names)).
    rewrite Z.land_lor_distr_r, Hm, (IH Hrest). reflexivity.
Qed.

(** With entries that share no bit, a union of entries is dumped without
    a remainder, and the entries named make up the value. *)
Lemma dump_disjoint sel names :
  disjoint_values names = true ->
  dump_remainder names (union_values (filter sel names)) = 0
  /\ union_values (dump_selected names (union_values (filter sel names)))
     = union_values (filter sel names).
Proof.
  induction names as [| n names IH]; cbn [disjoint_values]; intros H.
  - split; reflexivity.
  - apply andb_true_iff in H as [Hn Hrest].
    specialize (IH Hrest). destruct IH as [IHr IHs].
    pose proof (land_union_values _ sel _ Hn) as Hdisj.
    cbn [filter]. destruct (sel n).
    + cbn [union_values fold_right]. fold (union_values (filter sel names)).
      cbn [dump_remainder dump_selected].
      rewrite Z_land_lor_same, Z.eqb_refl.
      rewrite (Z_ldiff_lor_disjoint _ _ Hdisj).
      split; [exact IHr |].
      cbn [union_values fold_right].
      fold (union_values
              (dump_selected names (union_values (filter sel names)))).
      rewrite IHs. reflexivity.
    + cbn [dump_remainder dump_selected]. rewrite Hdisj.
      destruct (0 =? nv_value n) eqn:E.
      * apply Z.eqb_eq in E. rewrite <- E, Z.ldiff_0_r.
        split; [exact IHr |].
        cbn [union_values fold_right].
        fold (union_values
                (dump_selected names (union_values (filter sel names)))).
        rewrite IHs, <- E. reflexivity.
      * split; assumption.
Qed.

Lemma union_values_bits names i :
  Z.testbit (union_values names) i
  = existsb (fun n => Z.testbit (nv_value n) i) names.
Proof.
  induction names as [| n names IH]; cbn [union_values fold_right existsb].
  - apply Z.bits_0.
  - fold (union_values names). rewrite Z.lor_spec, IH. reflexivity.
Qed.

Lemma dump_selected_incl names : forall value n,
  In n (dump_selected names value) -> In n names.
Proof.
  induction names as [| m names IH]; intros value n; cbn [dump_selected].
  - auto.
  - destruct (Z.land (nv_value m) value =? nv_value m).
    + intros [-> | Hin]; [left; reflexivity | right; exact (IH _ _ Hin)].
    + intros Hin. right. exact (IH _ _ Hin).
Qed.

Lemma existsb_ext_in {A} (f g : A -> bool) l :
  (forall x, In x l -> f x = g x) -> existsb f l = existsb g l.
Proof.
  induction l as [| x l IH]; intros H; [reflexivity |].
  cbn [existsb]. rewrite (H x) by (left; reflexivity).
  rewrite IH by (intros y Hy; apply H; right; exact Hy). reflexivity.
Qed.

(** With distinct names, looking the names of the selected entries up in
    the table finds the selected entries and no other. *)
Lemma selected_by_name (P : debug_named_value -> bool) names :
  distinct_names names = true ->
  forall value,
  existsb (fun f => existsb (cstring_eqb (nv_name f))
                            (map nv_name (dump_selected names value))
                    && P f) names
  = existsb P (dump_selected names value).
Proof.
  induction names as [| n names IH]; cbn [distinct_names]; intros H value;
    [reflexivity |].
  apply andb_true_iff in H as [Hn Hrest]. apply negb_true_iff in Hn.
  cbn [dump_selected existsb].
  destruct (Z.land (nv_value n) value =? nv_value n).
  - cbn [map existsb]. rewrite cstring_eqb_refl. cbn [orb andb].
    f_equal. rewrite <- (IH Hrest). apply existsb_ext_in.
    intros f Hf.
    replace (cstring_eqb (nv_name f) (nv_name n)) with false;
      [reflexivity |].
    symmetry. rewrite cstring_eqb_sym.
    destruct (cstring_eqb (nv_name n) (nv_name f)) eqn:E; [| reflexivity].
    rewrite <- Hn. symmetry. apply existsb_exists. exists f. auto.
  - replace (existsb (cstring_eqb (nv_name n))
                     (map nv_name (dump_selected names value))) with false.
    + cbn [andb orb]. apply (IH Hrest).
    + symmetry. apply not_true_is_false. intros Hex.
      apply existsb_exists in Hex as (x & Hx & Heq).
      apply in_map_iff in Hx as (m & <- & Hm).
      apply dump_selected_incl in Hm.
      assert (Hdup : existsb (fun m => cstring_eqb (nv_name n) (nv_name m))
                             names = true)
        by (apply existsb_exists; exists m; auto).
      congruence.
Qed.

Lemma str_has_option_fields str name :
  str <> [] -> str <> cstr "all" ->
  str_has_option str name
  = existsb (cstring_eqb name) (fields option_delim str).
Proof.
  intros Hne Hall. rewrite str_has_option_eq.
  destruct str as [| c str]; [contradiction |].
  rewrite (proj2 (cstring_eqb_neq _ _) Hall). reflexivity.
Qed.

(** X24. [debug_get_flags_option] reads back what [debug_dump_flags] wrote:
    for a table of distinct names that are words (other than "all", "help"
    and "0"), whose values share no bit and whose names fit the 4096 bytes
    of the output together, and for a value that is the union of some of
    the entries, setting the option to the dump of the value yields the
    value again, whatever the default. *)
Theorem debug_dump_flags_round_trip os_get_option name names sel dfault value :
  value = union_values (filter sel names) ->
  forallb (fun n => plain_name (nv_name n)) names = true ->
  distinct_names names = true ->
  disjoint_values names = true ->
  (names_size names <= 4096)%nat ->
  os_get_option name = Some (debug_dump_flags names value) ->
  debug_get_flags_option os_get_option name names dfault = value.
Proof.
  intros -> Hplain Hdistinct Hdisjoint Hsize Hget.
  set (value := union_values (filter sel names)) in *.
  destruct (dump_disjoint sel names Hdisjoint) as [Hrem Hsel].
  fold value in Hrem, Hsel.
  assert (Hnames : forall n, In n names ->
            existsb option_delim (nv_name n) = false
            /\ nv_name n <> []
            /\ nv_name n <> cstr "all"
            /\ nv_name n <> cstr "help"
            /\ nv_name n <> cstr "0").
  { intros n Hn. rewrite forallb_forall in Hplain.
    specialize (Hplain n Hn). unfold plain_name in Hplain.
    repeat (apply andb_true_iff in Hplain as [Hplain ?]).
    repeat match goal with
           | H : negb _ = true |- _ => apply negb_true_iff in H
           end.
    repeat split; try (apply cstring_eqb_neq; assumption).
    exact Hplain. }
  destruct (debug_dump_flags_loop_fields names [] true value [])
    as (output & first & Hloop & Hinv).
  { apply Forall_forall. intros n Hn.
    destruct (Hnames n Hn) as (? & ? & _). auto. }
  { cbn [length]. lia. }
  { auto. }
  cbn [app] in Hinv.
  assert (Hdump : debug_dump_flags names value
                  = if first then cstr "0" else output).
  { unfold debug_dump_flags. rewrite Hloop, Hrem. reflexivity. }
  unfold debug_get_flags_option. rewrite Hget, Hdump.
  apply Z.bits_inj'. intros i _.
  transitivity (Z.testbit (union_values (dump_selected names value)) i);
    [| rewrite Hsel; reflexivity].
  rewrite union_values_bits.
  destruct first.
  - destruct Hinv as [_ Hnil].
    apply map_eq_nil in Hnil. rewrite Hnil.
    change (cstring_eqb (cstr "0") (cstr "help")) with false. cbv iota.
    rewrite debug_get_flags_loop_bits, Z.bits_0. cbn [orb existsb].
    apply not_true_is_false. intros Hex.
    apply existsb_exists in Hex as (f & Hf & H).
    apply andb_true_iff in H as [H _].
    rewrite str_has_option_fields in H by discriminate.
    apply existsb_cstring_eqb in H.
    cbn in H. destruct H as [H | []].
    destruct (Hnames f Hf) as (_ & _ & _ & _ & H0).
    apply H0. symmetry. exact H.
  - destruct Hinv as [Hne Hfields].
    assert (Hword : forall w, output = w ->
              fields option_delim w = [w] ->
              exists n, In n names /\ nv_name n = w).
    { intros w -> Hw. rewrite Hw in Hfields.
      destruct (dump_selected names value) as [| n l] eqn:Hl;
        [discriminate |].
      inversion Hfields. exists n. split; [| reflexivity].
      apply (dump_selected_incl names value). rewrite Hl. left. reflexivity. }
    assert (Hout : output <> []).
    { intros Hnil. destruct (Hword [] Hnil eq_refl) as (n & Hn & Hw).
      destruct (Hnames n Hn) as (_ & H & _). contradiction. }
    assert (Hall : output <> cstr "all").
    { intros Heq. destruct (Hword _ Heq eq_refl) as (n & Hn & Hw).
      destruct (Hnames n Hn) as (_ & _ & H & _). contradiction. }
    assert (Hhelp : output <> cstr "help").
    { intros Heq. destruct (Hword _ Heq eq_refl) as (n & Hn & Hw).
      destruct (Hnames n Hn) as (_ & _ & _ & H & _). contradiction. }
    rewrite (proj2 (cstring_eqb_neq _ _) Hhelp).
    rewrite debug_get_flags_loop_bits, Z.bits_0. cbn [orb].
    rewrite <- (selected_by_name (fun n => Z.testbit (nv_value n) i) names
                  Hdistinct value).
    apply existsb_ext_in. intros f _.
    rewrite (str_has_option_fields _ _ Hout Hall), Hfields. reflexivity.
Qed.

End DebugOptions.

(** * Concrete runs of u_debug.c *)

Section DebugExamples.

(** X14 at a flag called "no-lrz". *)
Lemma str_has_option_unmatchable_witness :
  existsb option_delim (cstr "no-lrz") = true
  /\ str_has_option (cstr "all") (cstr "no-lrz") = true
  /\ str_has_option (cstr "no-lrz") (cstr "no-lrz") = false.
Proof.
  split; [reflexivity |]. split; [reflexivity |].
  destruct (str_has_option (cstr "no-lrz") (cstr "no-lrz")) eqn:H;
    [| reflexivity].
  pose proof (str_has_option_unmatchable (cstr "no-lrz") (cstr "no-lrz")
                eq_refl H) as Hall.
  discriminate Hall.
Defined.

(** X16 at "foo,baz". *)
Lemma parse_debug_string_app_witness :
  parse_debug_string (Some (cstr "foo,baz")) sample_controls
  = Z.lor (parse_debug_string (Some (cstr "foo")) sample_controls)
          (parse_debug_string (Some (cstr "baz")) sample_controls).
Proof.
  apply (parse_debug_string_app (cstr "foo") ","%char (cstr "baz")
                                sample_controls).
  - reflexivity.
  - discriminate.
  - discriminate.
  - repeat constructor; discriminate.
Defined.

(** "all" is not a token like the others: after a comma it names nothing. *)
Example parse_debug_string_all_token :
  parse_debug_string (Some (cstr "all")) sample_controls = 7
  /\ parse_debug_string (Some (cstr "all,foo")) sample_controls = 1.
Proof. split; reflexivity. Qed.

(** X17 at work: a string that ends in a sign on its own. *)
Example parse_enable_string_trailing_sign :
  parse_enable_string (Some (cstr "foo,+")) 0 sample_controls = None
  /\ parse_enable_string (Some (cstr "-")) 0 sample_controls = None
  /\ parse_enable_string (Some (cstr "+,foo")) 0 sample_controls = Some 1.
Proof. repeat split; reflexivity. Qed.

(** X18 at "foo baz" with default 2. *)
Lemma parse_enable_string_unsigned_witness :
  sign_free (cstr "foo baz") = true
  /\ parse_enable_string (Some (cstr "foo baz")) 2 sample_controls = Some 7.
Proof.
  split; [reflexivity |].
  exact (parse_enable_string_unsigned (cstr "foo baz") 2 sample_controls
           eq_refl).
Defined.

(** X19 at "-foo,+baz,foo,-bar" with default 2: foo is cleared, then set;
    bar is cleared; baz is set. *)
Lemma parse_enable_string_last_wins_witness :
  parse_enable_string (Some (cstr "-foo,+baz,foo,-bar")) 2 sample_controls
  = Some 5.
Proof.
  refine (parse_enable_string_last_wins (cstr "-foo,+baz,foo,-bar") 2
            sample_controls _ _ eq_refl).
  - discriminate.
  - repeat constructor; discriminate.
Defined.

(** X21 at MESA_DEBUG=foo,baz and bit 2, which baz has. *)
Lemma debug_get_flags_option_bits_witness :
  Z.testbit (debug_get_flags_option (sample_env (cstr "foo,baz"))
                                    (cstr "MESA_DEBUG") sample_flags 0) 2
  = true
  <-> exists f, In f sample_flags
                /\ cstr "foo,baz" <> []
                /\ (cstr "foo,baz" = cstr "all"
                    \/ In (nv_name f) (fields option_delim (cstr "foo,baz")))
                /\ Z.testbit (nv_value f) 2 = true.
Proof.
  apply (debug_get_flags_option_bits (sample_env (cstr "foo,baz"))).
  - reflexivity.
  - discriminate.
Defined.

(** X22 at "YeS" and "yes". *)
Lemma debug_get_bool_option_case_witness :
  debug_get_bool_option (sample_env (cstr "YeS")) (cstr "MESA_DEBUG") false
  = debug_get_bool_option (sample_env (cstr "yes")) (cstr "MESA_DEBUG") false.
Proof.
  apply (debug_get_bool_option_case _ _ _ (cstr "YeS") (cstr "yes"));
    reflexivity.
Defined.

(** X23 at the entry "baz". *)
Lemma debug_dump_enum_entry_witness :
  debug_dump_enum sample_flags 12 = cstr "baz".
Proof.
  apply (debug_dump_enum_entry sample_flags
           (mkNamedValue (cstr "baz") 12 None)).
  - repeat constructor; cbn; intuition discriminate.
  - cbn. auto.
Defined.

(** X24 at the union of "foo" and "baz": the dump is "foo|baz". *)
Lemma debug_dump_flags_round_trip_witness :
  debug_dump_flags sample_flags 13 = cstr "foo|baz"
  /\ debug_get_flags_option (sample_env (debug_dump_flags sample_flags 13))
                            (cstr "MESA_DEBUG") sample_flags 0 = 13.
Proof.
  split; [reflexivity |].
  apply (debug_dump_flags_round_trip
           (sample_env (debug_dump_flags sample_flags 13))
           (cstr "MESA_DEBUG") sample_flags
           (fun n => negb (nv_value n =? 2)) 0 13).
  - reflexivity.
  - reflexivity.
  - reflexivity.
  - reflexivity.
  - apply Nat.leb_le. reflexivity.
  - reflexivity.
Defined.

(** Without the conditions of X24 the dump does not read back: a value
    outside the table leaves a hexadecimal remainder that names no flag. *)
Example debug_dump_flags_remainder :
  debug_dump_flags sample_flags 21 = cstr "foo|0x00000014"
  /\ debug_get_flags_option (sample_env (debug_dump_flags sample_flags 21))
                            (cstr "MESA_DEBUG") sample_flags 0 = 1.
Proof. split; reflexivity. Qed.

End DebugExamples.
